(** * JMM abstract search: a shallow embedding of [misc/abstract_search.py]

    The development follows the script top to bottom: Python strings and
    the JSON values the script receives, the catalog built at the start of
    [main], the disk cache of [lookup_abstract], the curses drawing of
    [main] and [show_popup], and the [while True] loop as a machine that
    moves from one blocking [getch] to the next.

    Modelling conventions.
    - A [str] is a [string], the sequence of its characters. [str.lower]
      follows the Unicode case mappings: it is taken from the environment
      ([str_lower]) and nothing is assumed about it, except where a
      statement says that the text is ASCII.
    - A path is what [pathlib] makes of it ([Path]): joining drops "."
      components and doubled slashes, keeps ".." and restarts at an
      absolute operand. The file system is addressed by the text of a
      path; two different texts are taken to name two different entries
      (no symbolic links, no ".." that leads back into a directory).
    - An input event is one value returned by [getch]. [curses.wrapper]
      puts [stdscr] in keypad mode, so there a function key is one event,
      its key code; the window of the popup is not in keypad mode, so
      there a function key arrives as the bytes of its sequence, one
      event each.
    - A value returned by [json.load]/[json.loads] is a [json]; numbers are
      integers.
    - Exceptions are values of [exn]; a computation that may raise and that
      touches the file system, the network, the terminal or the standard
      streams lives in the monad [M] over [world].
    - Text files are opened with the default [newline=None] on a POSIX
      system: writing leaves the text as it is, reading turns each of
      "\r\n" and "\r" into "\n".

    The converter [site/convert_schedule.py], which writes the agenda that
    [main] loads, is embedded in the module [Convert]; its statements come
    last. *)

From Stdlib Require Import ZArith Ascii String List Lia Bool DecimalString.
From stdpp Require Import base gmap strings list.
From Stdlib Require Import Sorted.
Import ListNotations.

#[local] Set Warnings "-register-all".
Local Open Scope string_scope.
Local Open Scope Z_scope.

(** ** Python strings *)

Module Str.

(** The text has ASCII characters only (codes below 128). *)
Fixpoint is_ascii (s : string) : bool :=
  match s with
  | EmptyString => true
  | String c s' => ((nat_of_ascii c <? 128)%nat && is_ascii s')%bool
  end.

(** What [str.lower] does to an ASCII character: the letters A-Z become
    a-z. *)
Definition ascii_char_lower (c : ascii) : ascii :=
  let n := nat_of_ascii c in
  if ((65 <=? n)%nat && (n <=? 90)%nat)%bool then ascii_of_nat (n + 32) else c.

(** What [s.lower()] is for an ASCII text [s]. It stands for [str.lower]
    in the sample installations, whose texts are ASCII; the script itself
    calls [str_lower] of its environment. *)
Fixpoint ascii_lower (s : string) : string :=
  match s with
  | EmptyString => EmptyString
  | String c s' => String (ascii_char_lower c) (ascii_lower s')
  end.

(** [s.startswith(p)] *)
Fixpoint startswith (p s : string) : bool :=
  match p, s with
  | EmptyString, _ => true
  | String _ _, EmptyString => false
  | String a p', String b s' => if Ascii.eqb a b then startswith p' s' else false
  end.

(** [needle in hay] for two [str] values. *)
Fixpoint contains (needle hay : string) : bool :=
  (startswith needle hay ||
   match hay with
   | EmptyString => false
   | String _ hay' => contains needle hay'
   end)%bool.

(** [s[:-1]] *)
Fixpoint drop_last (s : string) : string :=
  match s with
  | EmptyString => EmptyString
  | String c EmptyString => EmptyString
  | String c s' => String c (drop_last s')
  end.

(** [len(s)] *)
Definition len (s : string) : Z := Z.of_nat (String.length s).

(** [c * n] for a one-character string [c]. *)
Definition repeat (c : ascii) (n : Z) : string :=
  string_of_list_ascii (List.repeat c (Z.to_nat n)).

(** [s[:n]] *)
Definition take (n : Z) (s : string) : string :=
  if 0 <=? n then String.substring 0 (Z.to_nat n) s
  else String.substring 0 (String.length s - Z.to_nat (- n)) s.

(** [s.replace(old, new)] specialised to what text-mode reading does:
    "\r\n" and a lone "\r" both become "\n". *)
Fixpoint universal_newlines (s : string) : string :=
  match s with
  | EmptyString => EmptyString
  | String c s' =>
      if Ascii.eqb c "013"%char then
        match s' with
        | String d s'' =>
            if Ascii.eqb d "010"%char
            then String "010"%char (universal_newlines s'')
            else String "010"%char (universal_newlines s')
        | EmptyString => String "010"%char EmptyString
        end
      else String c (universal_newlines s')
  end.

(** True when the text has no carriage return. *)
Fixpoint no_cr (s : string) : bool :=
  match s with
  | EmptyString => true
  | String c s' => (negb (Ascii.eqb c "013"%char) && no_cr s')%bool
  end.

End Str.

(** ** Paths

    [pathlib.PurePosixPath]: a path is a root ("", "/" or "//") and the
    list of its components. *)

Module Path.

(** [s.split("/")] *)
Fixpoint split (s : string) : list string :=
  match s with
  | EmptyString => [EmptyString]
  | String c s' =>
      if Ascii.eqb c "/"%char then EmptyString :: split s'
      else match split s' with
           | head :: rest => String c head :: rest
           | [] => [String c EmptyString]
           end
  end.

(** A component that a path keeps: not empty and not ".". *)
Definition is_part (c : string) : bool :=
  (negb (String.eqb c "") && negb (String.eqb c "."))%bool.

(** The components of the text of a path. *)
Definition parts (s : string) : list string := List.filter is_part (split s).

(** The root of the text of a path: exactly two leading slashes are kept,
    three or more are one. *)
Definition root (s : string) : string :=
  match s with
  | String a (String b (String c _)) =>
      if Ascii.eqb a "/"%char
      then if Ascii.eqb b "/"%char
           then if Ascii.eqb c "/"%char then "/" else "//"
           else "/"
      else ""
  | String a (String b EmptyString) =>
      if Ascii.eqb a "/"%char then if Ascii.eqb b "/"%char then "//" else "/" else ""
  | String a EmptyString => if Ascii.eqb a "/"%char then "/" else ""
  | EmptyString => ""
  end.

Record path := Build { anchor : string; names : list string }.

(** [PurePosixPath(s)] *)
Definition parse (s : string) : path := Build (root s) (parts s).

(** [p / b] for a [str] operand [b]: an absolute operand replaces [p]. *)
Definition join (p : path) (b : string) : path :=
  if Str.startswith "/" b then parse b
  else Build (anchor p) (names p ++ parts b).

(** [str(p)] *)
Definition str (p : path) : string :=
  match names p with
  | [] => if String.eqb (anchor p) "" then "." else anchor p
  | _ => anchor p ++ String.concat "/" (names p)
  end.

(** The text has no "/". *)
Fixpoint no_slash (s : string) : bool :=
  match s with
  | EmptyString => true
  | String c s' => (negb (Ascii.eqb c "/"%char) && no_slash s')%bool
  end.

(** The text up to and with its last "/": [s[:s.rfind("/") + 1]]. *)
Fixpoint head (s : string) : string :=
  match s with
  | EmptyString => EmptyString
  | String c s' => if no_slash s then EmptyString else String c (head s')
  end.

(** [s.rstrip("/")] *)
Fixpoint rstrip (s : string) : string :=
  match s with
  | EmptyString => EmptyString
  | String c s' =>
      match rstrip s' with
      | EmptyString => if Ascii.eqb c "/"%char then EmptyString else String c EmptyString
      | rest => String c rest
      end
  end.

(** The directory in which the system looks up the last component of the
    path [s] ([os.path.dirname]); the current directory is ".". *)
Definition dirname (s : string) : string :=
  let h := head s in
  if String.eqb h "" then "."
  else let d := rstrip h in
       if String.eqb d "" then h else d.

End Path.

(** ** Python values, exceptions and containers *)

Module Py.

Inductive exn_class :=
| FileNotFoundError | IsADirectoryError | JSONDecodeError | URLError
| TypeError | KeyError | IndexError | AttributeError | ValueError
| CursesError | AssertionError | KeyboardInterrupt.

(** An exception object: its class and its message. *)
Inductive exn := Exn (c : exn_class) (msg : string).

Definition class_of (e : exn) : exn_class := let (c, _) := e in c.
Definition message_of (e : exn) : string := let (_, m) := e in m.

(** [isinstance(e, Exception)]: every class above but [KeyboardInterrupt],
    which derives from [BaseException] only. *)
Definition is_Exception (e : exn) : bool :=
  match class_of e with KeyboardInterrupt => false | _ => true end.

Definition is_curses_error (e : exn) : bool :=
  match class_of e with CursesError => true | _ => false end.

Definition is_KeyboardInterrupt (e : exn) : bool :=
  match class_of e with KeyboardInterrupt => true | _ => false end.

Inductive result (A : Type) :=
| Ok (a : A)
| Raise (e : exn).
Arguments Ok {A} a.
Arguments Raise {A} e.

(** What [json.load] returns. *)
Inductive json :=
| JNull
| JBool (b : bool)
| JInt (n : Z)
| JStr (s : string)
| JArr (l : list json)
| JObj (kvs : list (string * json)).

Definition is_str (k : string) (v : json) : bool :=
  match v with JStr s => String.eqb s k | _ => false end.

(** [d.get(k)] on the dict of a JSON object. *)
Fixpoint assoc (k : string) (kvs : list (string * json)) : option json :=
  match kvs with
  | [] => None
  | (k', v) :: kvs' => if String.eqb k' k then Some v else assoc k kvs'
  end.

(** [k in o] for a [str] key [k]. *)
Definition contains (k : string) (o : json) : result bool :=
  match o with
  | JObj kvs => Ok (match assoc k kvs with Some _ => true | None => false end)
  | JArr l => Ok (existsb (is_str k) l)
  | JStr s => Ok (Str.contains k s)
  | _ => Raise (Exn TypeError "argument is not iterable")
  end.

(** [o[k]] for a [str] key [k]. *)
Definition getitem (o : json) (k : string) : result json :=
  match o with
  | JObj kvs =>
      match assoc k kvs with
      | Some v => Ok v
      | None => Raise (Exn KeyError k)
      end
  | JArr _ => Raise (Exn TypeError "list indices must be integers or slices, not str")
  | JStr _ => Raise (Exn TypeError "string indices must be integers, not 'str'")
  | _ => Raise (Exn TypeError "object is not subscriptable")
  end.

Fixpoint chars (s : string) : list json :=
  match s with
  | EmptyString => []
  | String c s' => JStr (String c EmptyString) :: chars s'
  end.

(** [iter(o)], as a list. *)
Definition iter (o : json) : result (list json) :=
  match o with
  | JArr l => Ok l
  | JObj kvs => Ok (map (fun kv => JStr (fst kv)) kvs)
  | JStr s => Ok (chars s)
  | _ => Raise (Exn TypeError "object is not iterable")
  end.

(** [hash(k)] succeeds. *)
Definition hashable (k : json) : bool :=
  match k with JArr _ | JObj _ => false | _ => true end.

(** [a == b] on hashable values ([True == 1] and [False == 0]). *)
Definition key_eqb (a b : json) : bool :=
  match a, b with
  | JNull, JNull => true
  | JStr s, JStr t => String.eqb s t
  | JInt n, JInt m => n =? m
  | JBool x, JBool y => Bool.eqb x y
  | JBool x, JInt m | JInt m, JBool x => (if x then 1 else 0) =? m
  | _, _ => false
  end.

(** A [dict]: its items in insertion order. *)
Definition dict := list (json * json).

(** [d[k] = v]: an existing key keeps its place (and its key object) and
    takes the new value; a new key goes to the end. *)
Fixpoint dict_set (k v : json) (d : dict) : dict :=
  match d with
  | [] => [(k, v)]
  | (k', v') :: d' =>
      if key_eqb k' k then (k', v) :: d' else (k', v') :: dict_set k v d'
  end.

(** [d[k]] *)
Fixpoint dict_get (k : json) (d : dict) : result json :=
  match d with
  | [] => Raise (Exn KeyError "")
  | (k', v) :: d' => if key_eqb k' k then Ok v else dict_get k d'
  end.

(** [list(d.keys())] *)
Definition dict_keys (d : dict) : list json := map fst d.

(** [l[:n]] on a list. *)
Definition take {A} (n : Z) (l : list A) : list A :=
  if 0 <=? n then firstn (Z.to_nat n) l
  else firstn (List.length l - Z.to_nat (- n)) l.

(** [len(l)] *)
Definition len {A} (l : list A) : Z := Z.of_nat (List.length l).

End Py.
Import Py.

(** ** The catalog: lines 101-107 of [main] *)

Module Catalog.

(** [list(filter(lambda o: "presno" in o, object))], the iteration having
    started. *)
Fixpoint with_presno (objs : list json) : result (list json) :=
  match objs with
  | [] => Ok []
  | o :: objs' =>
      match Py.contains "presno" o with
      | Raise e => Raise e
      | Ok keep =>
          match with_presno objs' with
          | Raise e => Raise e
          | Ok rest => Ok (if keep then o :: rest else rest)
          end
      end
  end.

(** [dict(zip(map(lambda o: o["title"], filtered), filtered))]: the pairs
    are inserted from first to last. *)
Fixpoint title_index (filtered : list json) (d : dict) : result dict :=
  match filtered with
  | [] => Ok d
  | o :: filtered' =>
      match Py.getitem o "title" with
      | Raise e => Raise e
      | Ok t =>
          if hashable t then title_index filtered' (dict_set t o d)
          else Raise (Exn TypeError "unhashable type")
      end
  end.

(** The body of the [with] block once [json.load] has returned [object]. *)
Definition build (object : json) : result dict :=
  match Py.iter object with
  | Raise e => Raise e
  | Ok objs =>
      match with_presno objs with
      | Raise e => Raise e
      | Ok filtered => title_index filtered []
      end
  end.

End Catalog.

(** ** The world the script runs in *)

(** One successful [addstr]: absolute screen position and text. *)
Inductive draw := Draw (y x : Z) (s : string).

Record world := World {
  dirs : gset string;          (** the directories of the file system *)
  files : gmap string string;  (** the regular files and their contents *)
  term : Z * Z;                (** [stdscr.getmaxyx()] *)
  screen : list draw;          (** what was drawn since the last [clear] *)
  requests : list string;      (** the URLs opened so far *)
  stdout : list string;        (** the lines printed so far *)
}.

Definition set_files (f : gmap string string → gmap string string) (w : world) : world :=
  World (dirs w) (f (files w)) (term w) (screen w) (requests w) (stdout w).
Definition set_term (t : Z * Z) (w : world) : world :=
  World (dirs w) (files w) t (screen w) (requests w) (stdout w).
Definition set_screen (f : list draw → list draw) (w : world) : world :=
  World (dirs w) (files w) (term w) (f (screen w)) (requests w) (stdout w).
Definition add_request (url : string) (w : world) : world :=
  World (dirs w) (files w) (term w) (screen w) (requests w ++ [url])%list (stdout w).
Definition add_stdout (line : string) (w : world) : world :=
  World (dirs w) (files w) (term w) (screen w) (requests w) (stdout w ++ [line])%list.

(** Computations that read and change the world and may raise. *)
Definition M (A : Type) : Type := world → result A * world.

Definition ret {A} (a : A) : M A := fun w => (Ok a, w).
Definition raise {A} (e : exn) : M A := fun w => (Raise e, w).
Definition bind {A B} (m : M A) (k : A → M B) : M B :=
  fun w => match m w with
           | (Ok a, w') => k a w'
           | (Raise e, w') => (Raise e, w')
           end.
Definition lift {A} (r : result A) : M A := fun w => (r, w).
Definition modify (f : world → world) : M unit := fun w => (Ok tt, f w).
Definition gets {A} (f : world → A) : M A := fun w => (Ok (f w), w).

(** [try: m except <classes accepted by handles> as e: handler e] *)
Definition try_except {A} (m : M A) (handles : exn → bool) (handler : exn → M A) : M A :=
  fun w => match m w with
           | (Ok a, w') => (Ok a, w')
           | (Raise e, w') => if handles e then handler e w' else (Raise e, w')
           end.

Notation "x <- m ;; k" := (bind m (fun x => k))
  (at level 100, m at next level, right associativity).
Notation "m ;; k" := (bind m (fun _ => k))
  (at level 100, right associativity).

(** *** Files *)

(** [Path(p).exists()] *)
Definition path_exists (p : string) : M bool :=
  gets (fun w => bool_decide (p ∈ dirs w) || bool_decide (is_Some (files w !! p))).

(** [Path(p).is_dir()] *)
Definition is_dir (p : string) : M bool :=
  gets (fun w => bool_decide (p ∈ dirs w)).

(** [with open(p, 'r') as f: return f.read()] *)
Definition read_text (p : string) : M string :=
  fun w =>
    if bool_decide (p ∈ dirs w) then (Raise (Exn IsADirectoryError p), w)
    else match files w !! p with
         | Some content => (Ok (Str.universal_newlines content), w)
         | None => (Raise (Exn FileNotFoundError p), w)
         end.

(** [open(p, 'w')]: the file is created or emptied in the directory of
    its path, which has to be there; no directory is created. *)
Definition open_w (p : string) : M unit :=
  fun w =>
    if bool_decide (p ∈ dirs w) then (Raise (Exn IsADirectoryError p), w)
    else if bool_decide (Path.dirname p ∈ dirs w)
         then (Ok tt, set_files (insert p "") w)
         else (Raise (Exn FileNotFoundError p), w).

(** [f.write(v)] on the file just opened at [p]: only a [str] is accepted. *)
Definition write (p : string) (v : json) : M unit :=
  match v with
  | JStr s => modify (set_files (insert p s))
  | _ => raise (Exn TypeError "write() argument must be str")
  end.

(** [print(e)] *)
Definition print (line : string) : M unit := modify (add_stdout line).

(** *** The terminal *)

(** A curses window: its size and the screen position of its corner. *)
Record window := Window { win_h : Z; win_w : Z; win_y : Z; win_x : Z }.

Definition curses_error : exn := Exn CursesError "curses function returned ERR".

(** [stdscr] *)
Definition stdscr (w : world) : window := Window (fst (term w)) (snd (term w)) 0 0.

(** [win.move(y, x)] succeeds inside the window only. *)
Definition in_window (win : window) (y x : Z) : bool :=
  (0 <=? y) && (y <? win_h win) && (0 <=? x) && (x <? win_w win).

(** [win.addstr(y, x, s)]: the cursor is moved, then the text is written
    cell after cell, wrapping at the right margin; the call fails when the
    position is outside the window or when the text reaches the last cell
    of the window (the cursor cannot advance past it). The text is taken
    without control characters. *)
Definition addstr_ok (win : window) (y x : Z) (s : string) : bool :=
  in_window win y x && (y * win_w win + x + Str.len s <? win_h win * win_w win).

Definition win_addstr (win : window) (y x : Z) (s : string) : M unit :=
  fun w =>
    if addstr_ok win y x s
    then (Ok tt, set_screen (fun sc => (sc ++ [Draw (win_y win + y) (win_x win + x) s])%list) w)
    else (Raise curses_error, w).

Definition addstr (y x : Z) (s : string) : M unit :=
  fun w => win_addstr (stdscr w) y x s w.

(** [stdscr.move(y, x)] *)
Definition move (y x : Z) : M unit :=
  fun w => if in_window (stdscr w) y x then (Ok tt, w) else (Raise curses_error, w).

(** [stdscr.clear()] *)
Definition clear : M unit := modify (set_screen (fun _ => [])).

(** [stdscr.getmaxyx()] *)
Definition getmaxyx : M (Z * Z) := gets term.

(** [curses.newwin(nlines, ncols, begin_y, begin_x)]: a zero size extends
    the window to the edge of the screen. *)
Definition newwin (nlines ncols begin_y begin_x : Z) : M window :=
  fun w =>
    if (begin_y <? 0) || (begin_x <? 0) || (nlines <? 0) || (ncols <? 0)
    then (Raise curses_error, w)
    else
      let h := if nlines =? 0 then fst (term w) - begin_y else nlines in
      let c := if ncols =? 0 then snd (term w) - begin_x else ncols in
      if (h <=? 0) || (c <=? 0) then (Raise curses_error, w)
      else (Ok (Window h c begin_y begin_x), w).

(** The key codes of curses ([curses.KEY_*]). *)
Definition KEY_DOWN : Z := 258.
Definition KEY_UP : Z := 259.
Definition KEY_BACKSPACE : Z := 263.
Definition KEY_ENTER : Z := 343.
Definition KEY_RESIZE : Z := 410.

(** What a blocking [getch] can deliver: one event is one value returned.
    In keypad mode ([stdscr]) a function key is delivered as its code; on
    a window that is not in keypad mode (the popup) it is delivered as the
    bytes of its sequence, each of them an event. *)
Inductive event :=
| Key (k : Z)           (** [getch] returns [k] *)
| Resize (h w : Z)      (** the terminal now has [h] rows and [w] columns:
                            [getch] returns [KEY_RESIZE] *)
| Interrupt.            (** Ctrl-C: [getch] raises [KeyboardInterrupt] *)

Definition getch (ev : event) : M Z :=
  match ev with
  | Key k => ret k
  | Resize h w => modify (set_term (h, w)) ;; ret KEY_RESIZE
  | Interrupt => raise (Exn KeyboardInterrupt "")
  end.

(** [str(n)] for an [int]. *)
Definition str_of_int (n : Z) : string := NilZero.string_of_int (Z.to_int n).

(** [chr(key)] for a code below 256. *)
Definition chr (key : Z) : string := String (ascii_of_nat (Z.to_nat key)) EmptyString.

(** ** What the script takes from its environment *)

Record library := Library {
  CURRENT_DIR : string;
    (** [Path(__file__).parent] *)
  json_loads : string → result json;
    (** [json.loads], and [json.load] on the text of a file *)
  urlopen : nat → string → result string;
    (** [urllib.request.urlopen(url)] with [req.read().decode()]: the
        answer to the request that follows [n] earlier ones *)
  py_repr : json → string;
    (** [str(v)] for a value that is not a [str] *)
  textwrap_wrap : string → Z → list string;
    (** [textwrap.wrap(text, width)] for a positive width *)
  str_lower : string → string;
    (** [s.lower()] *)
  curs_set : Z → result Z;
    (** [curses.curs_set(visibility)]: the earlier visibility, or
        [curses.error] on a terminal that cannot change it *)
}.

(** ** A small installation, for the examples

    Five agenda records (one without a presentation number, two with the
    same title) and a remote service that answers paper 4 with an abstract,
    paper 2 with an answer that has no abstract, and refuses every other
    request. *)

Module Sample.

Definition DIR : string := "/opt/jmm/misc".
Definition CACHE : string := "/opt/jmm/misc/abstract_cache".
Definition AGENDA_FILE : string :=
  "/opt/jmm/misc/../site/resources/jmm2026-parsed-agenda.json".

Definition record (title presno : string) : json :=
  JObj [("title", JStr title); ("presno", JStr presno)].

Definition agenda : json :=
  JArr [ record "Knot Theory" "1";
         JObj [("title", JStr "Opening Reception")];
         record "Graph Coloring" "2";
         record "Knot Theory" "4";
         record "Theory of Rings" "3" ].

(** An abstract with a carriage return in it. *)
Definition ABSTRACT : string := "a" ++ String "013"%char "b".

Definition loads (text : string) : result json :=
  if String.eqb text "agenda" then Ok agenda
  else if String.eqb text "paper 4" then Ok (JObj [("RawAbstract", JStr ABSTRACT)])
  else if String.eqb text "paper 2" then Ok (JObj [("Message", JStr "no such paper")])
  else Raise (Exn JSONDecodeError "Expecting value").

Definition open_url (n : nat) (url : string) : result string :=
  if String.eqb url "https://meetings.ams.org/math/jmm2026/meetingapi.cgi/Paper/4"
  then Ok "paper 4"
  else if String.eqb url "https://meetings.ams.org/math/jmm2026/meetingapi.cgi/Paper/2"
  then Ok "paper 2"
  else Raise (Exn URLError "connection refused").

Definition lib : library :=
  Library DIR loads open_url (fun _ => "?") (fun text _ => [text])
          Str.ascii_lower (fun _ => Ok 0).

(** The cache directory is there and empty, the agenda is in place, the
    terminal has 24 rows and 80 columns. *)
Definition world0 : world :=
  World {[ CACHE ]} {[ AGENDA_FILE := "agenda" ]} (24, 80) [] [] [].

(** The same without the agenda file. *)
Definition world_no_agenda : world := World {[ CACHE ]} ∅ (24, 80) [] [] [].

(** The same with an agenda file that is not JSON. *)
Definition world_bad_agenda : world :=
  World {[ CACHE ]} {[ AGENDA_FILE := "<html>" ]} (24, 80) [] [] [].


End Sample.

(** ** The agenda converter: [site/convert_schedule.py]

    The converter reads the agenda of the meeting, turns every event and
    every sub-event into a flat record, and sorts the records by their
    start. The dictionaries it builds have fixed keys; they are records
    here, and [to_json] is what [json.dump] writes for one. *)

Record conv_library := ConvLibrary {
  py_int : json → result Z;
    (** [int(v)] *)
  strptime : string → result Z;
    (** [datetime.strptime(text, "%b %d %Y %I:%M %p")] as a number of
        minutes: a later instant is a larger number *)
  json_load : string → result json;
    (** [json.load] on the text of a file *)
  json_dumps : option Z → json → string;
    (** what [json.dump(v, f, indent=...)] writes to [f] *)
  repr : json → string;
    (** [str(v)], as [print] shows a list *)
  lower : string → string;
    (** [s.lower()] *)
}.

Module Convert.

(** [s.replace('.', '')] *)
Fixpoint remove_dots (s : string) : string :=
  match s with
  | EmptyString => EmptyString
  | String c s' =>
      if Ascii.eqb c "."%char then remove_dots s' else String c (remove_dots s')
  end.

(** ["0" * n] *)
Definition zeros (n : nat) : string := string_of_list_ascii (List.repeat "0"%char n).

(** [s.zfill(width)]: zeros are put in front, after a leading sign. *)
Definition zfill (width : nat) (s : string) : string :=
  if (width <=? String.length s)%nat then s
  else
    let fill := zeros (width - String.length s) in
    match s with
    | String c s' =>
        if (Ascii.eqb c "+"%char || Ascii.eqb c "-"%char)%bool
        then String c (fill ++ s') else fill ++ s
    | EmptyString => fill
    end.

(** Every character of the text satisfies [P]. *)
Fixpoint every (P : ascii → bool) (s : string) : bool :=
  match s with
  | EmptyString => true
  | String c s' => (P c && every P s')%bool
  end.

Definition not_dot (c : ascii) : bool := negb (Ascii.eqb c "."%char).

(** Not one of the letters A-Z. *)
Definition not_capital (c : ascii) : bool :=
  negb ((65 <=? nat_of_ascii c)%nat && (nat_of_ascii c <=? 90)%nat)%bool.

(** The dictionary built at lines 12-17 and 27-33; [presno] is there for a
    sub-event only. *)
Record entry := Entry {
  title : json;
  starttime : string;
  endtime : string;
  presno : option json;
  day : Z;
}.

(** What [json.dump] writes for an entry: the keys in insertion order. *)
Definition to_json (e : entry) : json :=
  JObj ([("title", title e); ("starttime", JStr (starttime e));
         ("endtime", JStr (endtime e))]
        ++ match presno e with Some p => [("presno", p)] | None => [] end
        ++ [("day", JInt (day e))]).

(** An entry of an event (no presentation number), or an entry of a
    sub-event whose title is a [str]. *)
Definition for_main (e : entry) : bool :=
  match presno e with
  | None => true
  | Some _ => match title e with JStr _ => true | _ => false end
  end.

(** Sequencing of computations that may raise. *)
Definition and_then {A B} (r : result A) (k : A → result B) : result B :=
  match r with
  | Ok a => k a
  | Raise e => Raise e
  end.

Notation "'do' x <- r ; k" := (and_then r (fun x => k))
  (at level 10, x name, r at level 100, k at level 200).

(** [[f(x) for x in l]], stopping at the first exception. *)
Fixpoint map_result {A B} (f : A → result B) (l : list A) : result (list B) :=
  match l with
  | [] => Ok []
  | x :: l' =>
      do y <- f x;
      do ys <- map_result f l';
      Ok (y :: ys)
  end.

Section WithLibrary.

Variable cl : conv_library.

(** [v.replace('.', '').lower().zfill(8)]: only a [str] has [replace]. *)
Definition normal_time (v : json) : result string :=
  match v with
  | JStr s => Ok (zfill 8 (lower cl (remove_dots s)))
  | _ => Raise (Exn AttributeError "object has no attribute 'replace'")
  end.

(** [int(event["mtgevt-day"]["mtgevt-dayno"])] *)
Definition day_number (event : json) : result Z :=
  do d <- Py.getitem event "mtgevt-day";
  do n <- Py.getitem d "mtgevt-dayno";
  py_int cl n.

(** The lambda of lines 12-17. *)
Definition day_entry (e : json) : result entry :=
  do t <- Py.getitem e "mtgevt-confextitle";
  do s0 <- Py.getitem e "mtgevt-starttime";
  do s <- normal_time s0;
  do f0 <- Py.getitem e "mtgevt-endtime";
  do f <- normal_time f0;
  do n <- day_number e;
  Ok (Entry t s f None n).

(** [mtg_day["mtg-events"]["mtg-event"]], iterated. *)
Definition events_of (mtg_day : json) : result (list json) :=
  do evs <- Py.getitem mtg_day "mtg-events";
  do l <- Py.getitem evs "mtg-event";
  Py.iter l.

(** [collect_day], lines 10-17, consumed. *)
Definition collect_day (mtg_day : json) : result (list entry) :=
  do events <- events_of mtg_day;
  map_result day_entry events.

(** The lambda of lines 27-33 for a sub-event [se] of [event]. *)
Definition sub_entry (event se : json) : result entry :=
  do t <- Py.getitem se "mtgsub-title";
  do s0 <- Py.getitem se "mtgsub-starttime";
  do s <- normal_time s0;
  do f0 <- Py.getitem se "mtgsub-endtime";
  do f <- normal_time f0;
  do p <- Py.getitem se "mtgsub-presno";
  do n <- day_number event;
  Ok (Entry t s f (Some p) n).

(** The test of line 20. *)
Definition has_subevents (e : json) : result bool :=
  do outer <- Py.contains "mtg-subevents" e;
  if outer : bool then
    do subs <- Py.getitem e "mtg-subevents";
    Py.contains "mtg-subevent" subs
  else Ok false.

(** [isinstance(e["title"], str)] *)
Definition title_is_str (e : entry) : bool :=
  match title e with JStr _ => true | _ => false end.

(** Lines 23-33 for one event that has sub-events: a sub-event that is not
    in a list is taken as a list of one; the entries whose title is not a
    [str] are dropped. *)
Definition sub_entries (event : json) : result (list entry) :=
  do subs <- Py.getitem event "mtg-subevents";
  do l <- Py.getitem subs "mtg-subevent";
  let l := match l with JArr items => items | _ => [l] end in
  do entries <- map_result (sub_entry event) l;
  Ok (List.filter title_is_str entries).

(** The loop of lines 22-33 over the events of a day. *)
Fixpoint sub_entries_of (events : list json) : result (list entry) :=
  match events with
  | [] => Ok []
  | event :: events' =>
      do has <- has_subevents event;
      if has : bool then
        do here <- sub_entries event;
        do later <- sub_entries_of events';
        Ok (here ++ later)%list
      else sub_entries_of events'
  end.

(** [collect_day_sub], lines 19-33, consumed. *)
Definition collect_day_sub (mtg_day : json) : result (list entry) :=
  do events <- events_of mtg_day;
  sub_entries_of events.

(** [chain.from_iterable(map(f, days))], consumed. *)
Definition chain_days (f : json → result (list entry)) (days : list json)
  : result (list entry) :=
  do parts <- map_result f days;
  Ok (concat parts).

(** Lines 39-42: the events of every day, then the sub-events of every
    day. *)
Definition collect (object : json) : result (list entry) :=
  do top <- Py.getitem object "mtg-days";
  do days0 <- Py.getitem top "mtg-day";
  do days <- Py.iter days0;
  do events <- chain_days collect_day days;
  do subs <- chain_days collect_day_sub days;
  Ok (events ++ subs)%list.

(** ["{:02d}".format(n)] *)
Definition two_digits (n : Z) : string :=
  if (0 <=? n) && (n <? 10) then "0" ++ str_of_int n else str_of_int n.

(** The key of line 43. *)
Definition sort_key (e : entry) : result Z :=
  strptime cl ("Jan " ++ two_digits (day e) ++ " 2026 " ++ starttime e).

(** Insertion in front of the first element with a key that is not
    smaller. *)
Fixpoint insert (x : Z * entry) (l : list (Z * entry)) : list (Z * entry) :=
  match l with
  | [] => [x]
  | y :: l' => if fst x <=? fst y then x :: l else y :: insert x l'
  end.

(** A stable sort by the key: what [sorted] returns once the keys are
    known. *)
Definition stable_sort (l : list (Z * entry)) : list (Z * entry) :=
  fold_right insert [] l.

(** [sorted(events, key=...)]: the keys are computed first, for every
    element in order, then the list is sorted, equal keys keeping their
    order. *)
Definition sorted_by_start (events : list entry) : result (list entry) :=
  do keyed <- map_result (fun e => do k <- sort_key e; Ok (k, e)) events;
  Ok (map snd (stable_sort keyed)).

(** The entry [a] does not start after [b]. *)
Definition not_later (a b : entry) : Prop :=
  ∃ ka kb, sort_key a = Ok ka ∧ sort_key b = Ok kb ∧ ka <= kb.

(** The entry starts at the instant [k]. *)
Definition starts_at (k : Z) (e : entry) : bool :=
  match sort_key e with
  | Ok k' => k' =? k
  | Raise _ => false
  end.

(** Lines 39-43: the list that is written to the two output files. *)
Definition convert (object : json) : result (list entry) :=
  do events <- collect object;
  sorted_by_start events.

(** The files of lines 36, 46 and 50, relative to the directory the
    converter is started in. *)
Definition INPUT : string := "./tmp/jmm2026-agenda.json".
Definition RESOURCES : string := "./resources".
Definition OUT_MIN : string := "./resources/jmm2026-parsed-agenda.min.json".
Definition OUT : string := "./resources/jmm2026-parsed-agenda.json".

(** The list as [json.dump] and [print] take it. *)
Definition listing (events : list entry) : json := JArr (map to_json events).

(** Lines 36-43: the agenda is read and converted. *)
Definition read_and_convert : M (list entry) :=
  text <- read_text INPUT ;;
  object <- lift (json_load cl text) ;;
  lift (convert object).

(** [with open(p, "w") as f: json.dump(events, f, indent=indent)] *)
Definition dump (indent : option Z) (events : list entry) (p : string) : M unit :=
  open_w p ;;
  write p (JStr (json_dumps cl indent (listing events))).

(** The module, lines 36-51. *)
Definition script : M unit :=
  events <- read_and_convert ;;
  print (repr cl (listing (Py.take 5 events))) ;;
  dump None events OUT_MIN ;;
  dump (Some 2) events OUT.

End WithLibrary.

End Convert.

(** A small agenda for the converter: one day with a lecture at 8 a.m. and
    a session at 1 p.m. that has two talks and one untitled slot. *)
Module ConvertSample.

Definition talk (title start stop presno : string) : json :=
  JObj [("mtgsub-title", JStr title); ("mtgsub-starttime", JStr start);
        ("mtgsub-endtime", JStr stop); ("mtgsub-presno", JStr presno)].

Definition day1 : json := JObj [("mtgevt-dayno", JStr "4")].

Definition session : json :=
  JObj [("mtgevt-confextitle", JStr "Session on Knots");
        ("mtgevt-starttime", JStr "1:00 p.m."); ("mtgevt-endtime", JStr "3:00 p.m.");
        ("mtgevt-day", day1);
        ("mtg-subevents",
         JObj [("mtg-subevent",
                JArr [talk "Knot Theory" "1:30 p.m." "2:00 p.m." "1";
                      JObj [("mtgsub-title", JObj []);
                            ("mtgsub-starttime", JStr "2:00 p.m.");
                            ("mtgsub-endtime", JStr "2:10 p.m.");
                            ("mtgsub-presno", JStr "")];
                      talk "Theory of Rings" "1:00 p.m." "1:30 p.m." "3"])])].

Definition lecture : json :=
  JObj [("mtgevt-confextitle", JStr "Opening Lecture");
        ("mtgevt-starttime", JStr "8:00 a.m."); ("mtgevt-endtime", JStr "9:00 a.m.");
        ("mtgevt-day", day1)].

Definition agenda : json :=
  JObj [("mtg-days",
         JObj [("mtg-day",
                JArr [JObj [("mtg-events",
                             JObj [("mtg-event", JArr [session; lecture])])]])])].

(** A stand-in for [int]: the day number of the sample. *)
Definition to_int (v : json) : result Z :=
  match v with
  | JInt n => Ok n
  | JStr "4" => Ok 4
  | _ => Raise (Exn ValueError "invalid literal for int()")
  end.

(** A stand-in for [strptime] on the times of the sample. *)
Definition minutes (text : string) : result Z :=
  if String.eqb text "Jan 04 2026 08:00 am" then Ok 480
  else if String.eqb text "Jan 04 2026 01:00 pm" then Ok 780
  else if String.eqb text "Jan 04 2026 01:30 pm" then Ok 810
  else Raise (Exn ValueError "time data does not match format").

(** Stand-ins for the JSON reader and writer: the text "agenda" is the
    sample; the two layouts are told apart by a mark. *)
Definition load (text : string) : result json :=
  if String.eqb text "agenda" then Ok agenda
  else Raise (Exn JSONDecodeError "Expecting value").

Definition dumps (indent : option Z) (v : json) : string :=
  match indent, v with
  | None, JArr l => "compact list of " ++ str_of_int (Py.len l)
  | Some _, JArr l => "indented list of " ++ str_of_int (Py.len l)
  | _, _ => "?"
  end.

Definition lib : conv_library :=
  ConvLibrary to_int minutes load dumps (fun _ => "[...]") Str.ascii_lower.

(** The converter is started in [site/]: the agenda was downloaded, the
    output directory is there and holds an earlier output. *)
Definition world0 : world :=
  World {[ Convert.RESOURCES; "./tmp" ]}
        {[ Convert.INPUT := "agenda"; Convert.OUT := "earlier" ]} (24, 80) [] [] [].

(** The same with a download that is not JSON. *)
Definition world_bad_input : world :=
  World {[ Convert.RESOURCES; "./tmp" ]}
        {[ Convert.INPUT := "<html>"; Convert.OUT := "earlier" ]} (24, 80) [] [] [].

End ConvertSample.

(** An installation that goes wrong: an agenda with a null among its
    records, and a service that answers every request with a null
    abstract. *)
Module Faulty.

Definition loads (text : string) : result json :=
  if String.eqb text "agenda" then Ok (JArr [Sample.record "Knot Theory" "1"; JNull])
  else Ok (JObj [("RawAbstract", JNull)]).

Definition lib : library :=
  Library Sample.DIR loads (fun _ _ => Ok "paper") (fun _ => "None") (fun text _ => [text])
          Str.ascii_lower (fun _ => Ok 0).

End Faulty.

(** An agenda whose one record has a presentation number that is an
    absolute path, a service that answers every request with an abstract,
    and a system that has a directory [/tmp]. *)
Module Hostile.

Definition loads (text : string) : result json :=
  if String.eqb text "agenda" then Ok (JArr [Sample.record "Evil Talk" "/tmp/evil"])
  else Ok (JObj [("RawAbstract", JStr "text")]).

Definition lib : library :=
  Library Sample.DIR loads (fun _ _ => Ok "paper") (fun _ => "?") (fun text _ => [text])
          Str.ascii_lower (fun _ => Ok 0).

Definition world0 : world :=
  World {[ Sample.CACHE; "/tmp" ]} {[ Sample.AGENDA_FILE := "agenda" ]} (24, 80) [] [] [].

End Hostile.

(** ** The script *)

Section Script.

(** The library functions the script calls and the place it is installed
    at are left open; every statement below holds for each choice. *)
Variable lib : library.

(** [f"{v}"] *)
Definition fstr (v : json) : string :=
  match v with JStr s => s | _ => py_repr lib v end.

(** [CURRENT_DIR], line 13, as the path it is. *)
Definition CURRENT_PATH : Path.path := Path.parse (CURRENT_DIR lib).

(** [CACHE_DIR = CURRENT_DIR / "abstract_cache/"], line 14: the path, and
    its text. *)
Definition CACHE_PATH : Path.path := Path.join CURRENT_PATH "abstract_cache/".
Definition CACHE_DIR : string := Path.str CACHE_PATH.

(** [CURRENT_DIR / "../site/resources/jmm2026-parsed-agenda.json"],
    line 101. *)
Definition AGENDA : string :=
  Path.str (Path.join CURRENT_PATH "../site/resources/jmm2026-parsed-agenda.json").

(** [CACHE_DIR / f"{id}_abstract.txt"], line 77. *)
Definition cache_file (id : string) : string :=
  Path.str (Path.join CACHE_PATH (id ++ "_abstract.txt")).

Definition paper_url (id : string) : string :=
  "https://meetings.ams.org/math/jmm2026/meetingapi.cgi/Paper/" ++ id.

Definition NOT_FOUND : string := "Abstract not found.".

(** Lines 84-85: one request, logged, and the parse of its body. *)
Definition fetch (url : string) : M json :=
  body <- (fun w => (urlopen lib (List.length (requests w)) url, add_request url w)) ;;
  lift (json_loads lib body).

(** Lines 87-93 of [lookup_abstract]: what is done with the parsed answer.
    The cache file is opened before the abstract is taken out of the
    answer and written. *)
Definition store_abstract (id : string) (data : json) : M json :=
  has <- lift (Py.contains "RawAbstract" data) ;;
  if has : bool then
    open_w (cache_file id) ;;
    abstract <- lift (Py.getitem data "RawAbstract") ;;
    write (cache_file id) abstract ;;
    lift (Py.getitem data "RawAbstract")
  else
    ret (JStr NOT_FOUND).

(** [lookup_abstract], lines 75-97. *)
Definition lookup_abstract (id : string) : M json :=
  hit <- path_exists (cache_file id) ;;
  if hit : bool then
    text <- read_text (cache_file id) ;;
    ret (JStr text)
  else
    try_except
      (data <- fetch (paper_url id) ;;
       store_abstract id data)
      is_Exception
      (fun e => print (message_of e) ;; raise e).

(** *** [show_popup], lines 17-73 *)

(** [max(len(line) for line in lines)] over a non-empty list. *)
Definition max_len (lines : list string) : Z :=
  fold_right (fun line m => Z.max (Str.len line) m)
             (match lines with [] => 0 | l :: _ => Str.len l end) lines.

(** The loop of lines 61-65. *)
Fixpoint popup_lines (win : window) (popup_height popup_width current_line : Z)
         (items : list string) : M unit :=
  match items with
  | [] => ret tt
  | item :: items' =>
      if current_line <? popup_height - 2 then
        let display_item :=
          if Str.len item >? popup_width - 6
          then Str.take (popup_width - 6) item else item in
        win_addstr win current_line 3 display_item ;;
        popup_lines win popup_height popup_width (current_line + 1) items'
      else popup_lines win popup_height popup_width current_line items'
  end.

Definition FOOTER : string := "Press any key to continue".

(** [show_popup] up to [popup_win.refresh()]; the call then blocks in
    [popup_win.getch()]. The rule character of line 52 is written "-". *)
Definition show_popup (title message : string) : M unit :=
  size <- getmaxyx ;;
  let max_y := fst size in
  let max_x := snd size in
  wrapped_msg <-
    (if max_x - 12 <=? 0 then raise (Exn ValueError "invalid width")
     else ret (textwrap_wrap lib message (max_x - 12))) ;;
  let items := (wrapped_msg ++ [""])%list in
  let popup_width := max_len (title :: items) + 6 in
  let popup_height := Py.len items + 6 in
  let popup_width := Z.min popup_width (max_x - 4) in
  let popup_height := Z.min popup_height (max_y - 4) in
  let start_y := (max_y - popup_height) / 2 in
  let start_x := (max_x - popup_width) / 2 in
  popup_win <- newwin popup_height popup_width start_y start_x ;;
  let title_x := (popup_width - Str.len title) / 2 in
  win_addstr popup_win 1 title_x title ;;
  win_addstr popup_win 2 1 (Str.repeat "-" (popup_width - 2)) ;;
  popup_lines popup_win popup_height popup_width 4 items ;;
  let footer_x := (popup_width - Str.len FOOTER) / 2 in
  win_addstr popup_win (popup_height - 2) footer_x FOOTER.

(** *** [main], lines 99-211 *)

(** The local variables of [main] that live across iterations. *)
Record locals := Locals {
  jmm_kv : dict;
  items : list json;
  search_text : string;
  selected_index : Z;
  max_y : Z;
  max_x : Z;
}.

Definition with_search (q : string) (st : locals) : locals :=
  Locals (jmm_kv st) (items st) q 0 (max_y st) (max_x st).
Definition with_index (i : Z) (st : locals) : locals :=
  Locals (jmm_kv st) (items st) (search_text st) i (max_y st) (max_x st).
Definition with_size (size : Z * Z) (st : locals) : locals :=
  Locals (jmm_kv st) (items st) (search_text st) (selected_index st)
         (fst size) (snd size).

(** [item.lower()]: only a [str] has the method. *)
Definition item_lower (item : json) : result string :=
  match item with
  | JStr s => Ok (str_lower lib s)
  | _ => Raise (Exn AttributeError "object has no attribute 'lower'")
  end.

(** The comprehension of lines 123-126. *)
Fixpoint matching (search_text : string) (items : list json) : result (list json) :=
  match items with
  | [] => Ok []
  | item :: items' =>
      match item_lower item with
      | Raise e => Raise e
      | Ok low =>
          match matching search_text items' with
          | Raise e => Raise e
          | Ok rest =>
              Ok (if Str.contains (str_lower lib search_text) low
                  then item :: rest else rest)
          end
      end
  end.

(** Lines 122-128. *)
Definition filter_items (search_text : string) (items : list json) : result (list json) :=
  match search_text with
  | EmptyString => Ok items
  | _ => matching search_text items
  end.

(** Lines 131-135. *)
Definition clamp_index (selected_index : Z) (filtered_items : list json) : Z :=
  match filtered_items with
  | [] => 0
  | _ => Z.max (Z.min selected_index (Py.len filtered_items - 1)) 0
  end.

Definition TITLE : string := "JMM Abstract Search".
(** The two arrows of the original text are written "^" and "v". *)
Definition HELP_TEXT : string :=
  "Type to search | ^/v to select | Enter to choose | Backspace to delete | ESC to exit".

(** Lines 154-163: a failing [addstr] ends the loop. *)
Fixpoint draw_items (idx : Z) (display_items : list json) (selected_index : Z) : M unit :=
  match display_items with
  | [] => ret tt
  | item :: rest =>
      drawn <- try_except
                 (addstr (6 + idx) 2
                    (if idx =? selected_index then "> " ++ fstr item
                     else "  " ++ fstr item) ;;
                  ret true)
                 is_curses_error (fun _ => ret false) ;;
      if drawn : bool then draw_items (idx + 1) rest selected_index else ret tt
  end.

(** Lines 137-176, for the locals and the filtered list of this pass. *)
Definition render (st : locals) (filtered_items : list json) : M unit :=
  addstr 0 0 TITLE ;;
  addstr 1 0 (Str.repeat "=" (Str.len TITLE)) ;;
  addstr 3 0 "Search: " ;;
  addstr 3 8 (search_text st) ;;
  addstr 4 0 (Str.repeat "-" (max_x st - 1)) ;;
  addstr 5 0 ("Results (" ++ str_of_int (Py.len filtered_items) ++ " items):") ;;
  let available_lines := max_y st - 7 in
  let display_items := Py.take available_lines filtered_items in
  draw_items 0 display_items (selected_index st) ;;
  try_except (addstr (max_y st - 1) 0 HELP_TEXT) is_curses_error (fun _ => ret tt) ;;
  move 3 (8 + Str.len (search_text st)).

(** Lines 119-176: one pass from the top of the loop body to the call of
    [getch]; it yields the locals and the filtered list of the pass. *)
Definition loop_head (st : locals) : M (locals * list json) :=
  clear ;;
  filtered_items <- lift (filter_items (search_text st) (items st)) ;;
  let st := with_index (clamp_index (selected_index st) filtered_items) st in
  render st filtered_items ;;
  ret (st, filtered_items).

(** [filtered_items[selected_index]] *)
Definition list_getitem (l : list json) (i : Z) : result json :=
  let j := if i <? 0 then Py.len l + i else i in
  if j <? 0 then Raise (Exn IndexError "list index out of range")
  else match nth_error l (Z.to_nat j) with
       | Some v => Ok v
       | None => Raise (Exn IndexError "list index out of range")
       end.

(** Where [main] stands between two input events. *)
Inductive mode :=
| Browsing (st : locals) (filtered_items : list json)
    (** blocked in [stdscr.getch()], line 180 *)
| DetailOverlay (st : locals)
    (** blocked in [popup_win.getch()], line 73 *)
| Returned
    (** [main] has returned: the loop was left by [break] *)
| Raised (e : exn).
    (** [main] has raised [e] *)

(** From the top of the loop body to the next [getch]. *)
Definition next_pass (st : locals) : world → mode * world :=
  fun w => match loop_head st w with
           | (Ok (st', filtered_items), w') => (Browsing st' filtered_items, w')
           | (Raise e, w') => (Raised e, w')
           end.

(** Lines 194-201: the branch of the Enter key, up to the blocking
    [getch] of the popup. *)
Definition activate (st : locals) (filtered_items : list json) : M unit :=
  selected_item <- lift (list_getitem filtered_items (selected_index st)) ;;
  record <- lift (dict_get selected_item (jmm_kv st)) ;;
  presno <- lift (Py.getitem record "presno") ;;
  abstract <- lookup_abstract (fstr presno) ;;
  show_popup ("Abstract for: " ++ String "034"%char (fstr selected_item ++ String "034"%char ""))
             ("Abstract:" ++ String "010"%char (fstr abstract)).

(** Lines 185-211: what the key does, and where [main] blocks next. *)
Definition handle_key (key : Z) (st : locals) (filtered_items : list json)
  : world → mode * world :=
  if key =? 27 then fun w => (Returned, w)
  else if key =? KEY_UP then
    next_pass (if selected_index st >? 0
               then with_index (selected_index st - 1) st else st)
  else if key =? KEY_DOWN then
    next_pass (match filtered_items with
               | [] => st
               | _ => if selected_index st <? Py.len filtered_items - 1
                      then with_index (selected_index st + 1) st else st
               end)
  else if (key =? KEY_ENTER) || (key =? 10) || (key =? 13) then
    match filtered_items with
    | [] => next_pass st
    | _ => fun w => match activate st filtered_items w with
                    | (Ok _, w') => (DetailOverlay st, w')
                    | (Raise e, w') => (Raised e, w')
                    end
    end
  else if (key =? KEY_BACKSPACE) || (key =? 127) || (key =? 8) then
    next_pass (with_search (Str.drop_last (search_text st)) st)
  else if key =? KEY_RESIZE then
    fun w => next_pass (with_size (term w) st) w
  else if (32 <=? key) && (key <=? 126) then
    next_pass (with_search (search_text st ++ chr key) st)
  else next_pass st.

(** One input event. In [Browsing] the event is what [stdscr.getch()]
    delivers ([KeyboardInterrupt] leaves the loop, lines 179-182); in
    [DetailOverlay] it is the one value that [popup_win.getch()] returns:
    [show_popup] does not look at it, the popup returns and the loop
    starts its next pass. The window of the popup is made by [newwin] and
    never put in keypad mode: a function key pressed there comes as the
    bytes of its sequence, the first as this event and the others as
    events of the loop. *)
Definition step (m : mode) (ev : event) : world → mode * world :=
  fun w =>
    match m with
    | Browsing st filtered_items =>
        match getch ev w with
        | (Ok key, w') => handle_key key st filtered_items w'
        | (Raise e, w') =>
            if is_KeyboardInterrupt e then (Returned, w') else (Raised e, w')
        end
    | DetailOverlay st =>
        match getch ev w with
        | (Ok _, w') => next_pass st w'
        | (Raise e, w') => (Raised e, w')
        end
    | Returned => (Returned, w)
    | Raised e => (Raised e, w)
    end.

(** Lines 101-116: the catalog is loaded, the cursor is shown and the
    locals are set. *)
Definition main_init : M locals :=
  text <- read_text AGENDA ;;
  object <- lift (json_loads lib text) ;;
  jmm_kv <- lift (Catalog.build object) ;;
  let items := dict_keys jmm_kv in
  lift (curs_set lib 1) ;;
  clear ;;
  size <- getmaxyx ;;
  ret (Locals jmm_kv items "" 0 (fst size) (snd size)).

(** [main] from its first line to the first [getch]. *)
Definition main_start : world → mode * world :=
  fun w => match main_init w with
           | (Ok st, w') => next_pass st w'
           | (Raise e, w') => (Raised e, w')
           end.

(** The module from its import to the first [getch] of [main]: line 15
    asserts that the cache directory is there. *)
Definition start : world → mode * world :=
  fun w => match is_dir CACHE_DIR w with
           | (Ok true, w') => main_start w'
           | (Ok false, w') => (Raised (Exn AssertionError ""), w')
           | (Raise e, w') => (Raised e, w')
           end.

(** The run of the script on a sequence of input events. *)
Fixpoint steps (m : mode) (evs : list event) (w : world) : mode * world :=
  match evs with
  | [] => (m, w)
  | ev :: evs' => let '(m', w') := step m ev w in steps m' evs' w'
  end.

Definition run (evs : list event) (w : world) : mode * world :=
  let '(m, w') := start w in steps m evs w'.

(** How the process ends, lines 214-219. *)
Inductive ending :=
| StillRunning                (** blocked on input *)
| Closed                      (** "Application closed." was printed *)
| Traceback (e : exn).        (** [e] was not caught: the interpreter
                                  reports it and exits with status 1 *)

Definition finish (m : mode) : ending :=
  match m with
  | Browsing _ _ | DetailOverlay _ => StillRunning
  | Returned => Closed
  | Raised e => if is_KeyboardInterrupt e then Closed else Traceback e
  end.

(** *** The notions the statements below are about *)

(** The text [title] contains [q] case-insensitively: once both are in
    lower case, [q] is a stretch of [title]. *)
Definition contains_ci (q title : string) : Prop :=
  ∃ pre suf, str_lower lib title = pre ++ str_lower lib q ++ suf.

(** [view] is the subsequence of [l] made of the elements that satisfy [P],
    in the order of [l]. *)
Inductive selects {A} (P : A → Prop) : list A → list A → Prop :=
| selects_nil : selects P [] []
| selects_keep x l view : P x → selects P l view → selects P (x :: l) (x :: view)
| selects_skip x l view : ¬ P x → selects P l view → selects P (x :: l) view.

(** The selection index is a valid index of the filtered view, or 0 when
    the view is empty. *)
Definition index_ok (selected_index : Z) (filtered_items : list json) : Prop :=
  match filtered_items with
  | [] => selected_index = 0
  | _ => 0 <= selected_index < Py.len filtered_items
  end.

(** The locals agree with the filtered view of their query. *)
Definition view_ok (st : locals) (filtered_items : list json) : Prop :=
  filter_items (search_text st) (items st) = Ok filtered_items
  ∧ index_ok (selected_index st) filtered_items.

Definition mode_ok (m : mode) : Prop :=
  match m with
  | Browsing st filtered_items => view_ok st filtered_items
  | DetailOverlay st => ∃ filtered_items, view_ok st filtered_items
  | Returned | Raised _ => True
  end.

(** What the script may have done to the file system between [w] and [w']:
    no directory was made or removed, no file that existed was changed or
    removed, and each new file is the cache file of a key whose paper was
    requested. *)
Definition evolves (w w' : world) : Prop :=
  dirs w' = dirs w
  ∧ (∃ more, requests w' = (requests w ++ more)%list)
  ∧ ∀ p, files w' !! p = files w !! p
         ∨ (files w !! p = None ∧ ∃ id, p = cache_file id ∧ paper_url id ∈ requests w').

(** The answer to one request: the body that arrives is parsed; a failure
    of the transport or of the parser is the outcome. *)
Definition answer (url : string) (w : world) : result json :=
  match urlopen lib (List.length (requests w)) url with
  | Ok body => json_loads lib body
  | Raise e => Raise e
  end.


(** The cache holds no entry for [id]: no file and no directory of that
    name. *)
Definition uncached (id : string) (w : world) : Prop :=
  path_exists (cache_file id) w = (Ok false, w).

(** Only the terminal differs. *)
Definition same_store (w w' : world) : Prop :=
  dirs w' = dirs w ∧ files w' = files w ∧ requests w' = requests w
  ∧ stdout w' = stdout w.

(** Every run of [m] relates the world before to the world after. *)
Definition keeps (R : relation world) {A} (m : world → A * world) : Prop :=
  ∀ w, R w (snd (m w)).

(** The agenda cannot be loaded and [e] is why: the file is missing, or
    its text is not valid JSON. *)
Inductive load_fails (w : world) : exn → Prop :=
| agenda_missing :
    AGENDA ∉ dirs w → files w !! AGENDA = None →
    load_fails w (Exn FileNotFoundError AGENDA)
| agenda_invalid content e :
    AGENDA ∉ dirs w → files w !! AGENDA = Some content →
    json_loads lib (Str.universal_newlines content) = Raise e →
    class_of e = JSONDecodeError →
    load_fails w e.

(** The query and the selection index of a mode in which [main] is still
    running. *)
Definition query_and_selection (m : mode) : option (string * Z) :=
  match m with
  | Browsing st _ | DetailOverlay st => Some (search_text st, selected_index st)
  | Returned | Raised _ => None
  end.

(** [m] raises exceptions accepted by [P] only. *)
Definition raises_only (P : exn → bool) {A} (m : M A) : Prop :=
  ∀ w e w', m w = (Raise e, w') → P e = true.

(** No request was sent between [w] and [w']. *)
Definition same_requests (w w' : world) : Prop := requests w' = requests w.

(** *** Notions for the further properties *)

(** An entry of the title-to-record mapping as [main] needs it: a hashable
    key, and an object that carries a presentation number and a title equal
    to the key. *)
Definition entry_ok (k r : json) : Prop :=
  hashable k = true
  ∧ ∃ kvs title presno,
      r = JObj kvs ∧ Py.assoc "title" kvs = Some title ∧ key_eqb k title = true
      ∧ Py.assoc "presno" kvs = Some presno.

Definition catalog_ok (d : dict) : Prop :=
  ∀ k r, (k, r) ∈ d → entry_ok k r.

(** The keys of the mapping are pairwise different for Python's [==]. *)
Definition keys_distinct (d : dict) : Prop :=
  ∀ i j k1 k2,
    dict_keys d !! i = Some k1 → dict_keys d !! j = Some k2 →
    key_eqb k1 k2 = true → i = j.

(** The locals hold a catalog as line 105-107 build it. *)
Definition locals_ok (st : locals) : Prop :=
  items st = dict_keys (jmm_kv st) ∧ catalog_ok (jmm_kv st).

Definition mode_loaded (m : mode) : Prop :=
  match m with
  | Browsing st _ | DetailOverlay st => locals_ok st
  | Returned | Raised _ => True
  end.

(** The keys the loop gives a meaning to. *)
Definition is_enter (key : Z) : bool := (key =? KEY_ENTER) || (key =? 10) || (key =? 13).
Definition is_backspace (key : Z) : bool := (key =? KEY_BACKSPACE) || (key =? 127) || (key =? 8).
Definition is_printable (key : Z) : bool := (32 <=? key) && (key <=? 126).

(** The text that a run of keys types into the search box. *)
Definition typed (keys : list Z) : string :=
  fold_right (fun key text => chr key ++ text) "" keys.


(** The terminal kept its size. *)
Definition same_term (w w' : world) : Prop := term w' = term w.

(** The file at [p] is as it was (there or not, with the same content). *)
Definition same_file (p : string) (w w' : world) : Prop :=
  files w' !! p = files w !! p.

(** An element of the agenda that lines 104-105 accept: a container on
    which ["presno" in o] is false, or an object with a presentation number
    and a hashable title. *)
Definition loadable (o : json) : bool :=
  match o with
  | JObj kvs =>
      match Py.assoc "presno" kvs with
      | None => true
      | Some _ =>
          match Py.assoc "title" kvs with
          | Some t => hashable t
          | None => false
          end
      end
  | JArr l => negb (existsb (is_str "presno") l)
  | JStr s => negb (Str.contains "presno" s)
  | _ => false
  end.


(** * Properties *)

(** ** Strings *)

Lemma startswith_spec (p s : string) :
  Str.startswith p s = true ↔ ∃ suf, s = p ++ suf.
Proof.
  revert s; induction p as [|a p IH]; intros s; simpl.
  - split; [eauto | reflexivity].
  - destruct s as [|b s].
    + split; [discriminate | intros [suf H]; discriminate].
    + destruct (Ascii.eqb_spec a b) as [->|Hne].
      * rewrite IH. split; intros [suf H]; exists suf.
        -- now rewrite H.
        -- now injection H.
      * split; [discriminate | intros [suf H]; injection H; congruence].
Qed.

Lemma contains_spec (needle hay : string) :
  Str.contains needle hay = true ↔ ∃ pre suf, hay = pre ++ needle ++ suf.
Proof.
  induction hay as [|c hay IH]; simpl.
  - rewrite orb_false_r, startswith_spec. split.
    + intros [suf H]. exists "", suf. exact H.
    + intros (pre & suf & H). destruct pre; [eauto | discriminate].
  - rewrite orb_true_iff, startswith_spec, IH. split.
    + intros [[suf H] | (pre & suf & H)].
      * exists "", suf. exact H.
      * exists (String c pre), suf. simpl. now rewrite H.
    + intros (pre & suf & H). destruct pre as [|d pre]; simpl in H.
      * left. eauto.
      * right. injection H as _ H. eauto.
Qed.

(** The test of line 125 decides case-insensitive containment. *)
Lemma contains_lower_spec (q title : string) :
  Str.contains (str_lower lib q) (str_lower lib title) = true ↔ contains_ci q title.
Proof. apply contains_spec. Qed.

Lemma ascii_lower_app (a b : string) :
  Str.ascii_lower (a ++ b) = Str.ascii_lower a ++ Str.ascii_lower b.
Proof. induction a as [|c a IH]; simpl; [reflexivity | now rewrite IH]. Qed.

(** A split of the lowered text comes from a split of the text. *)
Lemma ascii_lower_split (t a b : string) :
  Str.ascii_lower t = a ++ b →
  ∃ t1 t2, t = t1 ++ t2 ∧ Str.ascii_lower t1 = a ∧ Str.ascii_lower t2 = b.
Proof.
  revert t; induction a as [|c a IH]; intros t H.
  - exists "", t. auto.
  - destruct t as [|d t]; simpl in H; [discriminate|].
    injection H as Hc Ht. destruct (IH _ Ht) as (t1 & t2 & -> & H1 & H2).
    exists (String d t1), t2. simpl. now rewrite Hc, H1.
Qed.

(** On ASCII text, where [str.lower] only turns A-Z into a-z, a title
    contains the query case-insensitively exactly when a stretch of the
    title is the query up to the case of its letters. *)
Lemma contains_ci_ascii (q title : string) :
  (∀ t, Str.is_ascii t = true → str_lower lib t = Str.ascii_lower t) →
  Str.is_ascii q = true → Str.is_ascii title = true →
  (contains_ci q title
   ↔ ∃ pre mid suf, title = pre ++ mid ++ suf
                    ∧ Str.ascii_lower mid = Str.ascii_lower q).
Proof.
  intros Hlow Hq Ht. unfold contains_ci. rewrite (Hlow _ Hq), (Hlow _ Ht). split.
  - intros (pre & suf & H).
    destruct (ascii_lower_split _ _ _ H) as (t1 & t23 & -> & H1 & H23).
    destruct (ascii_lower_split _ _ _ H23) as (t2 & t3 & -> & H2 & H3).
    exists t1, t2, t3. auto.
  - intros (pre & mid & suf & -> & H).
    exists (Str.ascii_lower pre), (Str.ascii_lower suf).
    now rewrite !ascii_lower_app, H.
Qed.

Lemma selects_all {A} (P : A → Prop) (l : list A) :
  (∀ x, P x) → selects P l l.
Proof. intros H. induction l; constructor; auto. Qed.

Lemma selects_functional {A} (P : A → Prop) (l v1 v2 : list A) :
  selects P l v1 → selects P l v2 → v1 = v2.
Proof.
  intros H1; revert v2; induction H1; intros v2 H2; inversion H2; subst;
    try reflexivity; try contradiction; auto.
  f_equal; auto.
Qed.

Lemma selects_sublist {A} (P : A → Prop) (l view : list A) :
  selects P l view → sublist view l.
Proof. induction 1; constructor; auto. Qed.

Lemma selects_elem_of {A} (P : A → Prop) (l view : list A) :
  selects P l view → ∀ x, x ∈ view ↔ x ∈ l ∧ P x.
Proof.
  induction 1 as [|y l view Hy _ IH|y l view Hy _ IH]; intros x.
  - split; [intros H; inversion H | intros [H _]; inversion H].
  - rewrite !elem_of_cons, IH. split; [intros [->|[]]; auto | intros [[->|] ?]; auto].
  - rewrite elem_of_cons, IH. split; [intros []; auto | intros [[->|] ?]; [contradiction | auto]].
Qed.

(** ** Paths *)

Lemma append_assoc (a b c : string) : a ++ b ++ c = (a ++ b) ++ c.
Proof.
  induction a as [|x a IH]; [reflexivity|].
  change (String x (a ++ b ++ c) = String x ((a ++ b) ++ c)). now rewrite IH.
Qed.

Lemma split_no_slash (s : string) : Path.no_slash s = true → Path.split s = [s].
Proof.
  induction s as [|c s IH]; simpl; [reflexivity|].
  destruct (Ascii.eqb c "/"); [discriminate|]. simpl. intros H. now rewrite (IH H).
Qed.

(** A name without "/" that is neither empty nor "." is one component. *)
Lemma parts_name (s : string) :
  Path.no_slash s = true → s ≠ "" → s ≠ "." → Path.parts s = [s].
Proof.
  intros H H1 H2. unfold Path.parts. rewrite (split_no_slash s H). simpl.
  unfold Path.is_part.
  destruct (String.eqb_spec s ""); [contradiction|].
  destruct (String.eqb_spec s "."); [contradiction | reflexivity].
Qed.

Lemma concat_snoc (sep : string) (l : list string) (n : string) :
  l ≠ [] → String.concat sep (l ++ [n]) = String.concat sep l ++ sep ++ n.
Proof.
  induction l as [|x l IH]; [contradiction|]. intros _.
  destruct l as [|y l]; [reflexivity|].
  change (String.concat sep ((x :: y :: l) ++ [n]))
    with (x ++ sep ++ String.concat sep ((y :: l) ++ [n])).
  rewrite IH by discriminate.
  change (String.concat sep (x :: y :: l)) with (x ++ sep ++ String.concat sep (y :: l)).
  now rewrite <- !append_assoc.
Qed.

Lemma no_slash_app (a b : string) :
  Path.no_slash (a ++ b) = (Path.no_slash a && Path.no_slash b)%bool.
Proof.
  induction a as [|c a IH]; [reflexivity|].
  change (Path.no_slash (String c (a ++ b))
          = (negb (Ascii.eqb c "/") && Path.no_slash a && Path.no_slash b)%bool).
  simpl. now rewrite IH, andb_assoc.
Qed.

Lemma head_no_slash (n : string) : Path.no_slash n = true → Path.head n = "".
Proof.
  destruct n as [|c n]; [reflexivity|]. intros H.
  change (Path.head (String c n))
    with (if Path.no_slash (String c n) then "" else String c (Path.head n)).
  now rewrite H.
Qed.

Lemma head_slash (x n : string) :
  Path.no_slash n = true → Path.head (x ++ "/" ++ n) = x ++ "/".
Proof.
  intros H. induction x as [|a x IH].
  - change (Path.head ("" ++ "/" ++ n))
      with (if Path.no_slash (String "/" n) then "" else String "/" (Path.head n)).
    now rewrite (head_no_slash n H).
  - change (Path.head (String a x ++ "/" ++ n))
      with (if Path.no_slash (String a (x ++ "/" ++ n)) then ""
            else String a (Path.head (x ++ "/" ++ n))).
    rewrite IH.
    assert (Path.no_slash (String a (x ++ "/" ++ n)) = false) as ->; [|reflexivity].
    simpl. rewrite no_slash_app.
    change (Path.no_slash ("/" ++ n)) with false. now rewrite !andb_false_r.
Qed.

Lemma rstrip_slash (x : string) (c : ascii) :
  c ≠ "/"%char → Path.rstrip (x ++ String c "/") = x ++ String c "".
Proof.
  intros Hc. induction x as [|a x IH].
  - change (Path.rstrip ("" ++ String c "/")) with (Path.rstrip (String c "/")).
    simpl. destruct (Ascii.eqb_spec c "/"); [contradiction | reflexivity].
  - change (Path.rstrip (String a x ++ String c "/"))
      with (match Path.rstrip (x ++ String c "/") with
            | EmptyString => if Ascii.eqb a "/" then EmptyString else String a EmptyString
            | rest => String a rest
            end).
    rewrite IH. now destruct x.
Qed.

(** The directory of a name that is put, with a "/", after a path that
    does not end in "/" is that path. *)
Lemma dirname_slash (x : string) (c : ascii) (n : string) :
  c ≠ "/"%char → Path.no_slash n = true →
  Path.dirname ((x ++ String c "") ++ "/" ++ n) = x ++ String c "".
Proof.
  intros Hc Hn. unfold Path.dirname. rewrite (head_slash _ n Hn).
  rewrite <- append_assoc. change (String c "" ++ "/") with (String c "/"). cbv zeta.
  rewrite (rstrip_slash x c Hc). destruct x; reflexivity.
Qed.

Lemma str_names (p : Path.path) :
  Path.names p ≠ [] → Path.str p = Path.anchor p ++ String.concat "/" (Path.names p).
Proof. unfold Path.str. now destruct (Path.names p). Qed.

(** One more component at the end of a path that has some. *)
Lemma str_snoc (p : Path.path) (n : string) :
  Path.names p ≠ [] →
  Path.str (Path.Build (Path.anchor p) (Path.names p ++ [n])) = Path.str p ++ "/" ++ n.
Proof.
  intros H. rewrite (str_names p H), str_names.
  - cbn [Path.anchor Path.names]. rewrite (concat_snoc "/" _ n H).
    now rewrite <- !append_assoc.
  - cbn [Path.names]. now destruct (Path.names p).
Qed.

Lemma CACHE_PATH_names :
  Path.names CACHE_PATH = (Path.names CURRENT_PATH ++ ["abstract_cache"])%list.
Proof. reflexivity. Qed.

Lemma CACHE_PATH_not_root : Path.names CACHE_PATH ≠ [].
Proof. rewrite CACHE_PATH_names. now destruct (Path.names CURRENT_PATH). Qed.

(** The cache directory is a path that ends in its name. *)
Lemma CACHE_DIR_eq : ∃ x, CACHE_DIR = x ++ "abstract_cache".
Proof.
  unfold CACHE_DIR. rewrite (str_names _ CACHE_PATH_not_root), CACHE_PATH_names.
  destruct (Path.names CURRENT_PATH) as [|y l].
  - exists (Path.anchor CACHE_PATH). reflexivity.
  - exists (Path.anchor CACHE_PATH ++ String.concat "/" (y :: l) ++ "/").
    rewrite concat_snoc by discriminate. now rewrite <- !append_assoc.
Qed.

Lemma name_not_slash (id : string) :
  Path.no_slash id = true → Str.startswith "/" (id ++ "_abstract.txt") = false.
Proof.
  destruct id as [|c id]; [reflexivity|].
  change (Path.no_slash (String c id))
    with (negb (Ascii.eqb c "/") && Path.no_slash id)%bool.
  change (Str.startswith "/" (String c id ++ "_abstract.txt"))
    with (if Ascii.eqb "/" c then true else false).
  destruct (Ascii.eqb_spec c "/") as [->|Hne]; [discriminate|]. intros _.
  destruct (Ascii.eqb_spec "/" c); [congruence | reflexivity].
Qed.

Lemma name_is_part (id : string) :
  Path.no_slash id = true → Path.parts (id ++ "_abstract.txt") = [id ++ "_abstract.txt"].
Proof.
  intros H. apply parts_name.
  - rewrite no_slash_app, H. reflexivity.
  - destruct id; discriminate.
  - destruct id as [|c [|d id]]; discriminate.
Qed.

(** The cache file of a key without "/" is the file of that name in the
    cache directory. *)
Lemma cache_file_simple (id : string) :
  Path.no_slash id = true →
  cache_file id = CACHE_DIR ++ "/" ++ id ++ "_abstract.txt"
  ∧ Path.dirname (cache_file id) = CACHE_DIR.
Proof.
  intros H.
  assert (cache_file id = CACHE_DIR ++ "/" ++ id ++ "_abstract.txt") as E.
  { unfold cache_file, Path.join.
    rewrite (name_not_slash id H), (name_is_part id H).
    apply (str_snoc CACHE_PATH), CACHE_PATH_not_root. }
  split; [exact E|]. rewrite E. destruct CACHE_DIR_eq as [x ->].
  change (x ++ "abstract_cache") with (x ++ "abstract_cach" ++ String "e" "").
  rewrite (append_assoc x "abstract_cach").
  apply dirname_slash; [discriminate|]. rewrite no_slash_app, H. reflexivity.
Qed.


(** ** The filtered view *)

Lemma matching_titles (q : string) (titles : list string) :
  ∃ view, matching q (map JStr titles) = Ok (map JStr view)
          ∧ selects (contains_ci q) titles view.
Proof.
  induction titles as [|t titles (view & IH & Hsel)]; simpl.
  - exists []. split; [reflexivity | constructor].
  - rewrite IH.
    destruct (Str.contains (str_lower lib q) (str_lower lib t)) eqn:E.
    + exists (t :: view). split; [reflexivity|].
      constructor; [now apply contains_lower_spec | exact Hsel].
    + exists view. split; [reflexivity|].
      apply selects_skip; [|exact Hsel].
      intros H. apply contains_lower_spec in H. congruence.
Qed.

(** C1. For every query and every catalog (given by its titles, in
    order), the filtered view of the loop is the subsequence of the
    catalog whose titles contain the query case-insensitively, in the
    order of the catalog; for the empty query it is the whole catalog.
    Lower case is what [str.lower] of the environment makes of a text,
    whatever its characters; of this function the statement needs only,
    for the empty query, that the empty text has the empty text as its
    lower case. *)
Theorem filtered_view_is_matching_subsequence (q : string) (titles : list string) :
  ∃ view,
    filter_items q (map JStr titles) = Ok (map JStr view)
    ∧ (q ≠ "" ∨ str_lower lib "" = "" → selects (contains_ci q) titles view)
    ∧ (q = "" → view = titles).
Proof.
  destruct q as [|c q].
  - exists titles. split; [reflexivity|]. split; [|reflexivity].
    intros [H | H]; [congruence|]. apply selects_all. intros t.
    exists "", (str_lower lib t). now rewrite H.
  - destruct (matching_titles (String c q) titles) as (view & H & Hsel).
    exists view. split; [exact H|]. split; [intros _; exact Hsel | discriminate].
Qed.

(** ** The catalog *)

Lemma key_eqb_str_r (k : json) (t : string) : key_eqb k (JStr t) = true ↔ k = JStr t.
Proof.
  destruct k; simpl; try (split; [discriminate | intros H; discriminate]).
  rewrite String.eqb_eq. split; [intros -> | intros [= ->]]; reflexivity.
Qed.

Lemma key_eqb_str_l (k : json) (t : string) : key_eqb (JStr t) k = true ↔ k = JStr t.
Proof.
  destruct k; simpl; try (split; [discriminate | intros H; discriminate]).
  rewrite String.eqb_eq. split; [intros -> | intros [= ->]]; reflexivity.
Qed.

(** Reading a string key after a store. *)
Lemma dict_get_set (t : string) (k v : json) (d : dict) :
  dict_get (JStr t) (dict_set k v d)
  = if key_eqb k (JStr t) then Ok v else dict_get (JStr t) d.
Proof.
  induction d as [|[k0 v0] d IH]; simpl.
  - reflexivity.
  - destruct (key_eqb k0 k) eqn:E0; simpl.
    + destruct (key_eqb k0 (JStr t)) eqn:E1.
      * apply key_eqb_str_r in E1; subst k0.
        apply key_eqb_str_l in E0; subst k. simpl. now rewrite String.eqb_refl.
      * destruct (key_eqb k (JStr t)) eqn:E2; [|reflexivity].
        apply key_eqb_str_r in E2; subst k.
        destruct k0; simpl in E0, E1; try discriminate. congruence.
    + destruct (key_eqb k0 (JStr t)) eqn:E1; [|exact IH].
      destruct (key_eqb k (JStr t)) eqn:E2; [|reflexivity].
      apply key_eqb_str_r in E1, E2; subst.
      simpl in E0. rewrite String.eqb_refl in E0. discriminate.
Qed.

(** A record whose title differs from [t] leaves the entry of [t] alone;
    the last record titled [t] decides it. *)
Lemma title_index_last (t : string) (r : json) (after : list json) :
  Py.getitem r "title" = Ok (JStr t) →
  (∀ r', r' ∈ after → Py.getitem r' "title" ≠ Ok (JStr t)) →
  ∀ d d', Catalog.title_index after d = Ok d' →
          dict_get (JStr t) d = Ok r → dict_get (JStr t) d' = Ok r.
Proof.
  intros Hr. induction after as [|o after IH]; intros Hafter d d' Hidx Hget.
  - simpl in Hidx. congruence.
  - simpl in Hidx. destruct (Py.getitem o "title") as [k|] eqn:Ek; [|discriminate].
    destruct (hashable k); [|discriminate].
    apply (IH (fun r' H => Hafter r' (list_elem_of_further _ _ _ H)) _ _ Hidx).
    rewrite dict_get_set.
    destruct (key_eqb k (JStr t)) eqn:E; [|exact Hget].
    apply key_eqb_str_r in E; subst k.
    exfalso. apply (Hafter o); [left | exact Ek].
Qed.

Lemma title_index_app (before after : list json) (d d' : dict) :
  Catalog.title_index (before ++ after) d = Ok d' →
  ∃ d1, Catalog.title_index before d = Ok d1 ∧ Catalog.title_index after d1 = Ok d'.
Proof.
  revert d; induction before as [|o before IH]; intros d H; simpl in *.
  - exists d. split; [reflexivity | exact H].
  - destruct (Py.getitem o "title") as [k|]; [|discriminate].
    destruct (hashable k); [|discriminate]. apply IH, H.
Qed.

(** C8. When the records that carry a presentation number hold several
    with the same title, the title-to-record mapping built at load time
    maps that title to the last of them. *)
Theorem duplicate_titles_last_write_wins
  (objs filtered before after : list json) (r : json) (t : string) (d : dict) :
  Catalog.build (JArr objs) = Ok d →
  Catalog.with_presno objs = Ok filtered →
  filtered = (before ++ r :: after)%list →
  Py.getitem r "title" = Ok (JStr t) →
  (∀ r', r' ∈ after → Py.getitem r' "title" ≠ Ok (JStr t)) →
  dict_get (JStr t) d = Ok r.
Proof.
  intros Hbuild Hfilt -> Hr Hafter.
  unfold Catalog.build in Hbuild. simpl in Hbuild. rewrite Hfilt in Hbuild.
  destruct (title_index_app _ _ _ _ Hbuild) as (d1 & _ & H2).
  simpl in H2. rewrite Hr in H2. simpl in H2.
  apply (title_index_last t r after Hr Hafter _ _ H2).
  rewrite dict_get_set. simpl. now rewrite String.eqb_refl.
Qed.

(** A record without the key is skipped by the filter of line 104. *)
Lemma with_presno_skips (before after : list json) (kvs : list (string * json)) :
  Py.assoc "presno" kvs = None →
  Catalog.with_presno (before ++ JObj kvs :: after) = Catalog.with_presno (before ++ after).
Proof.
  intros H. induction before as [|o before IH]; simpl.
  - rewrite H. now destruct (Catalog.with_presno after).
  - now rewrite IH.
Qed.

Lemma build_skips (before after : list json) (kvs : list (string * json)) :
  Py.assoc "presno" kvs = None →
  Catalog.build (JArr (before ++ JObj kvs :: after)) = Catalog.build (JArr (before ++ after)).
Proof. intros H. unfold Catalog.build. simpl. now rewrite with_presno_skips. Qed.

(** ** The world: what a computation may change *)

Lemma evolves_refl (w : world) : evolves w w.
Proof.
  split; [reflexivity|]. split; [exists []; now rewrite app_nil_r|]. now left.
Qed.

Lemma evolves_trans (w1 w2 w3 : world) : evolves w1 w2 → evolves w2 w3 → evolves w1 w3.
Proof.
  intros (Hd1 & [m1 Hr1] & Hf1) (Hd2 & [m2 Hr2] & Hf2).
  split; [congruence|]. split.
  - exists (m1 ++ m2)%list. now rewrite Hr2, Hr1, <- app_assoc.
  - intros p. destruct (Hf2 p) as [E2 | (N2 & id & -> & Hin)].
    + destruct (Hf1 p) as [E1 | (N1 & id & -> & Hin)]; [left; congruence|].
      right. split; [exact N1|]. exists id. split; [reflexivity|].
      rewrite Hr2. apply elem_of_app. now left.
    + right. split; [|eauto].
      destruct (Hf1 (cache_file id)) as [E1 | (N1 & _)]; congruence.
Qed.

#[local] Instance evolves_preorder : PreOrder evolves.
Proof. split; [exact evolves_refl | exact evolves_trans]. Qed.

#[local] Instance same_store_preorder : PreOrder same_store.
Proof.
  split.
  - intros w. now repeat split.
  - intros w1 w2 w3 (? & ? & ? & ?) (? & ? & ? & ?). repeat split; congruence.
Qed.


Section Keeps.
Context (R : relation world) `{!PreOrder R}.

Lemma keeps_ret {A} (a : A) : keeps R (ret a).
Proof. intros w. reflexivity. Qed.

Lemma keeps_raise {A} (e : exn) : keeps R (@raise A e).
Proof. intros w. reflexivity. Qed.

Lemma keeps_lift {A} (r : result A) : keeps R (lift r).
Proof. intros w. reflexivity. Qed.

Lemma keeps_gets {A} (f : world → A) : keeps R (gets f).
Proof. intros w. reflexivity. Qed.

Lemma keeps_bind {A B} (m : M A) (k : A → M B) :
  keeps R m → (∀ a, keeps R (k a)) → keeps R (bind m k).
Proof.
  intros Hm Hk w. unfold bind. specialize (Hm w).
  destruct (m w) as [[a|e] w1]; simpl in *; [|exact Hm].
  etransitivity; [exact Hm | apply Hk].
Qed.

Lemma keeps_try_except {A} (m : M A) (handles : exn → bool) (handler : exn → M A) :
  keeps R m → (∀ e, keeps R (handler e)) → keeps R (try_except m handles handler).
Proof.
  intros Hm Hh w. unfold try_except. specialize (Hm w).
  destruct (m w) as [[a|e] w1]; simpl in *; [exact Hm|].
  destruct (handles e); [|exact Hm].
  etransitivity; [exact Hm | apply Hh].
Qed.

Lemma keeps_if {A} (b : bool) (m1 m2 : M A) :
  keeps R m1 → keeps R m2 → keeps R (if b then m1 else m2).
Proof. now destruct b. Qed.

End Keeps.


(** *** The terminal leaves the store alone *)

Lemma keeps_win_addstr (win : window) (y x : Z) (s : string) :
  keeps same_store (win_addstr win y x s).
Proof. intros w. unfold win_addstr. destruct addstr_ok; now repeat split. Qed.

Lemma keeps_addstr (y x : Z) (s : string) : keeps same_store (addstr y x s).
Proof. intros w. unfold addstr. apply keeps_win_addstr. Qed.

Lemma keeps_move (y x : Z) : keeps same_store (move y x).
Proof. intros w. unfold move. destruct in_window; now repeat split. Qed.

Lemma keeps_clear : keeps same_store clear.
Proof. intros w. now repeat split. Qed.



Lemma keeps_draw_items (display_items : list json) (idx selected : Z) :
  keeps same_store (draw_items idx display_items selected).
Proof.
  revert idx; induction display_items as [|item rest IH]; intros idx; simpl.
  - apply keeps_ret; apply _.
  - apply keeps_bind; [apply _| |].
    + apply keeps_try_except; [apply _| |intros; apply keeps_ret; apply _].
      apply keeps_bind; [apply _|apply keeps_addstr|intros; apply keeps_ret; apply _].
    + intros []; [apply IH | apply keeps_ret; apply _].
Qed.

Lemma keeps_render (st : locals) (filtered_items : list json) :
  keeps same_store (render st filtered_items).
Proof.
  unfold render.
  repeat (apply keeps_bind; [apply _| |intros _]);
    try apply keeps_addstr; try apply keeps_draw_items; try apply keeps_move.
  apply keeps_try_except; [apply _|apply keeps_addstr|intros; apply keeps_ret; apply _].
Qed.

Lemma keeps_loop_head (st : locals) : keeps same_store (loop_head st).
Proof.
  unfold loop_head.
  apply keeps_bind; [apply _|apply keeps_clear|intros _].
  apply keeps_bind; [apply _|apply keeps_lift; apply _|intros fl].
  apply keeps_bind; [apply _|apply keeps_render|intros; apply keeps_ret; apply _].
Qed.



(** ** The abstract cache *)

Lemma uncached_spec (id : string) (w : world) :
  uncached id w ↔ (cache_file id ∉ dirs w) ∧ files w !! cache_file id = None.
Proof.
  unfold uncached, path_exists, gets. split.
  - intros [= H]. apply orb_false_elim in H as [H1 H2].
    apply bool_decide_eq_false in H1, H2.
    split; [exact H1|]. now apply eq_None_not_Some.
  - intros [H1 H2]. do 2 f_equal.
    rewrite (bool_decide_eq_false_2 _ H1). simpl.
    apply bool_decide_eq_false_2. rewrite H2. now apply is_Some_None.
Qed.

Lemma no_cr_universal_newlines (s : string) :
  Str.no_cr s = true → Str.universal_newlines s = s.
Proof.
  induction s as [|c s IH]; simpl; [reflexivity|].
  intros H. apply andb_prop in H as [Hc Hs].
  destruct (Ascii.eqb c "013"); [discriminate|]. now rewrite IH.
Qed.

(** A cache entry is returned as its text reads, and nothing is touched:
    no request, no write, no print. *)
Lemma lookup_hit (id content : string) (w : world) :
  cache_file id ∉ dirs w →
  files w !! cache_file id = Some content →
  lookup_abstract id w = (Ok (JStr (Str.universal_newlines content)), w).
Proof.
  intros Hd Hf. unfold lookup_abstract, bind, path_exists, gets, read_text, ret.
  rewrite (bool_decide_eq_false_2 _ Hd), Hf, orb_false_l.
  rewrite bool_decide_eq_true_2 by (eexists; reflexivity). cbv beta iota.
  now rewrite (bool_decide_eq_false_2 _ Hd), Hf.
Qed.

(** Without a cache entry the lookup runs lines 82-97. *)
Lemma lookup_miss (id : string) (w : world) :
  uncached id w →
  lookup_abstract id w
  = try_except
      (data <- fetch (paper_url id) ;; store_abstract id data)
      is_Exception
      (fun e => print (message_of e) ;; raise e) w.
Proof.
  intros H. unfold lookup_abstract at 1, bind at 1. unfold uncached in H.
  now rewrite H.
Qed.

#[local] Instance same_requests_preorder : PreOrder same_requests.
Proof. split; [now intros w | intros w1 w2 w3; unfold same_requests; congruence]. Qed.

Lemma fetch_world (url : string) (w : world) : snd (fetch url w) = add_request url w.
Proof.
  unfold fetch, bind, lift. now destruct (urlopen lib (List.length (requests w)) url).
Qed.

Lemma keeps_open_w (R : relation world) (p : string) :
  (∀ w, R w w) → (∀ w, R w (set_files (insert p "") w)) → keeps R (open_w p).
Proof.
  intros Hrefl Hset w. unfold open_w.
  destruct (bool_decide _); [apply Hrefl|]. destruct (bool_decide _); [apply Hset | apply Hrefl].
Qed.

Lemma keeps_write (R : relation world) (p : string) (v : json) :
  (∀ w, R w w) → (∀ s w, R w (set_files (insert p s) w)) → keeps R (write p v).
Proof. intros Hrefl Hset w. destruct v; try apply Hrefl. apply Hset. Qed.

Lemma keeps_store_abstract_requests (id : string) (data : json) :
  keeps same_requests (store_abstract id data).
Proof.
  unfold store_abstract.
  apply keeps_bind; [apply _|apply keeps_lift; apply _|intros has].
  apply keeps_if; [|apply keeps_ret; apply _].
  apply keeps_bind; [apply _|apply keeps_open_w; now intros|intros _].
  apply keeps_bind; [apply _|apply keeps_lift; apply _|intros v].
  apply keeps_bind; [apply _|apply keeps_write; now intros|intros _].
  apply keeps_lift; apply _.
Qed.

(** A lookup that finds no entry sends exactly one request. *)
Lemma lookup_miss_requests (id : string) (w : world) :
  uncached id w →
  requests (snd (lookup_abstract id w)) = (requests w ++ [paper_url id])%list.
Proof.
  intros H. rewrite (lookup_miss id w H).
  unfold try_except, bind at 1.
  pose proof (fetch_world (paper_url id) w) as Hw.
  destruct (fetch (paper_url id) w) as [[data|e] w1]; simpl in Hw; subst w1.
  - pose proof (keeps_store_abstract_requests id data (add_request (paper_url id) w)) as Hk.
    destruct (store_abstract id data (add_request (paper_url id) w)) as [[v|e] w2]; simpl in *.
    + exact Hk.
    + destruct (is_Exception e); simpl; exact Hk.
  - now destruct (is_Exception e).
Qed.

Lemma fetch_eq (url : string) (w : world) :
  fetch url w = (answer url w, add_request url w).
Proof.
  unfold fetch, answer, bind, lift.
  now destruct (urlopen lib (List.length (requests w)) url).
Qed.

(** A failed fetch: the cause is printed and raised again, unchanged. *)
Lemma lookup_fetch_error (id : string) (e : exn) (w : world) :
  uncached id w →
  answer (paper_url id) w = Raise e →
  is_Exception e = true →
  lookup_abstract id w
  = (Raise e, add_stdout (message_of e) (add_request (paper_url id) w)).
Proof.
  intros Hu Ha He. rewrite (lookup_miss id w Hu).
  unfold try_except, bind at 1. rewrite fetch_eq, Ha, He. reflexivity.
Qed.

(** An answer with a [str] abstract: the abstract is stored and returned. *)
Lemma lookup_stores (id T : string) (kvs : list (string * json)) (w : world) :
  uncached id w →
  Path.dirname (cache_file id) ∈ dirs w →
  answer (paper_url id) w = Ok (JObj kvs) →
  Py.assoc "RawAbstract" kvs = Some (JStr T) →
  lookup_abstract id w
  = (Ok (JStr T),
     set_files (insert (cache_file id) T) (add_request (paper_url id) w)).
Proof.
  intros Hu Hd Ha Hk. rewrite (lookup_miss id w Hu).
  apply uncached_spec in Hu as [Hnd _].
  unfold try_except, bind at 1. rewrite fetch_eq, Ha.
  unfold store_abstract, bind, lift, open_w, write, modify. simpl.
  rewrite Hk. simpl.
  rewrite (bool_decide_eq_false_2 _ Hnd), (bool_decide_eq_true_2 _ Hd). simpl.
  unfold set_files, add_request. simpl. now rewrite insert_insert_eq.
Qed.

(** An answer without the field: the sentinel, and no write. *)
Lemma lookup_not_found (id : string) (kvs : list (string * json)) (w : world) :
  uncached id w →
  answer (paper_url id) w = Ok (JObj kvs) →
  Py.assoc "RawAbstract" kvs = None →
  lookup_abstract id w = (Ok (JStr NOT_FOUND), add_request (paper_url id) w).
Proof.
  intros Hu Ha Hk. rewrite (lookup_miss id w Hu).
  unfold try_except, bind at 1. rewrite fetch_eq, Ha.
  unfold store_abstract, bind, lift. simpl. now rewrite Hk.
Qed.

(** *** What a lookup may do to the store *)






(** ** The loop: what it may do to the store *)

Lemma keeps_next_pass (st : locals) : keeps same_store (next_pass st).
Proof.
  intros w. unfold next_pass. pose proof (keeps_loop_head st w) as H.
  now destruct (loop_head st w) as [[[st' fl]|e] w'].
Qed.







(** Once [main] has returned or raised, no event is read. *)
Lemma steps_Raised (e : exn) (evs : list event) (w : world) :
  steps (Raised e) evs w = (Raised e, w).
Proof. induction evs; simpl; auto. Qed.

Lemma steps_Returned (evs : list event) (w : world) :
  steps Returned evs w = (Returned, w).
Proof. induction evs; simpl; auto. Qed.

(** ** The selection index *)

Lemma clamp_index_ok (i : Z) (filtered_items : list json) :
  index_ok (clamp_index i filtered_items) filtered_items.
Proof.
  destruct filtered_items as [|x l]; simpl; [reflexivity|].
  unfold Py.len. simpl length. lia.
Qed.

Lemma clamp_index_id (i : Z) (filtered_items : list json) :
  index_ok i filtered_items → clamp_index i filtered_items = i.
Proof.
  destruct filtered_items as [|x l]; simpl; [congruence|].
  unfold Py.len. simpl length. lia.
Qed.

Lemma next_pass_ok (st : locals) (w : world) : mode_ok (fst (next_pass st w)).
Proof.
  unfold next_pass, loop_head, bind, clear, modify, lift.
  destruct (filter_items (search_text st) (items st)) as [fl|e] eqn:Hf; simpl; [|exact I].
  destruct (render _ fl _) as [[[]|e] w']; simpl; [|exact I].
  split; [exact Hf | apply clamp_index_ok].
Qed.

Lemma handle_key_ok (key : Z) (st : locals) (filtered_items : list json) (w : world) :
  view_ok st filtered_items → mode_ok (fst (handle_key key st filtered_items w)).
Proof.
  intros Hv. unfold handle_key.
  destruct (key =? 27); [exact I|].
  destruct (key =? KEY_UP); [apply next_pass_ok|].
  destruct (key =? KEY_DOWN); [apply next_pass_ok|].
  destruct (_ || _).
  { destruct filtered_items as [|item rest]; [apply next_pass_ok|].
    destruct (activate st _ w) as [[|] ?]; simpl; [eauto | exact I]. }
  destruct (_ || _); [apply next_pass_ok|].
  destruct (key =? KEY_RESIZE); [apply next_pass_ok|].
  destruct (_ && _); apply next_pass_ok.
Qed.

Lemma step_ok (m : mode) (ev : event) (w : world) :
  mode_ok m → mode_ok (fst (step m ev w)).
Proof.
  intros Hm. unfold step. destruct m as [st fl|st| |e]; try exact I.
  - destruct (getch ev w) as [[key|e] w1]; [now apply handle_key_ok|].
    now destruct (is_KeyboardInterrupt e).
  - destruct (getch ev w) as [[key|e] w1]; [apply next_pass_ok | exact I].
Qed.

Lemma steps_ok (evs : list event) (m : mode) (w : world) :
  mode_ok m → mode_ok (fst (steps m evs w)).
Proof.
  revert m w; induction evs as [|ev evs IH]; intros m w Hm; simpl; [exact Hm|].
  pose proof (step_ok m ev w Hm) as H.
  destruct (step m ev w) as [m' w']. now apply IH.
Qed.

Lemma start_ok (w : world) : mode_ok (fst (start w)).
Proof.
  unfold start, is_dir, gets, main_start.
  destruct (bool_decide _); [|exact I].
  destruct (main_init w) as [[st|e] w1]; [apply next_pass_ok | exact I].
Qed.

Lemma run_ok (evs : list event) (w : world) : mode_ok (fst (run evs w)).
Proof.
  unfold run. pose proof (start_ok w) as H.
  destruct (start w) as [m w1]. now apply steps_ok.
Qed.

(** C3. After any sequence of input events (move-up, move-down, printable
    characters, backspace, and every other event as well), when the loop
    waits for the next key the selection index is a valid index of the
    filtered view of the current query, and it is 0 when that view is
    empty. *)
Theorem selected_index_in_range
  (evs : list event) (w w' : world) (st : locals) (filtered_items : list json) :
  run evs w = (Browsing st filtered_items, w') →
  filter_items (search_text st) (items st) = Ok filtered_items
  ∧ (filtered_items ≠ [] → 0 <= selected_index st < Py.len filtered_items)
  ∧ (filtered_items = [] → selected_index st = 0).
Proof.
  intros H. pose proof (run_ok evs w) as Hok. rewrite H in Hok.
  destruct Hok as [Hf Hi]. split; [exact Hf|].
  unfold index_ok in Hi. destruct filtered_items; split; intros ?; congruence.
Qed.

(** ** Drawing raises curses errors only *)

Lemma raises_only_ret (P : exn → bool) {A} (a : A) : raises_only P (ret a).
Proof. intros w e w' H. discriminate. Qed.

Lemma raises_only_bind (P : exn → bool) {A B} (m : M A) (k : A → M B) :
  raises_only P m → (∀ a, raises_only P (k a)) → raises_only P (bind m k).
Proof.
  intros Hm Hk w e w' H. unfold bind in H.
  destruct (m w) as [[a|e1] w1] eqn:E.
  - exact (Hk a _ _ _ H).
  - injection H as <- <-. exact (Hm _ _ _ E).
Qed.

Lemma raises_only_addstr (y x : Z) (s : string) : raises_only is_curses_error (addstr y x s).
Proof.
  intros w e w' H. unfold addstr, win_addstr in H.
  destruct addstr_ok; [discriminate|]. now injection H as <- _.
Qed.

Lemma raises_only_move (y x : Z) : raises_only is_curses_error (move y x).
Proof.
  intros w e w' H. unfold move in H.
  destruct in_window; [discriminate|]. now injection H as <- _.
Qed.

(** A handler that does not raise, for the class the body raises. *)
Lemma raises_only_caught (P : exn → bool) {A} (m : M A) (a : A) :
  raises_only P m → raises_only P (try_except m P (fun _ => ret a)).
Proof.
  intros Hm w e w' H. unfold try_except in H.
  destruct (m w) as [[a1|e1] w1] eqn:E; [discriminate|].
  rewrite (Hm _ _ _ E) in H. discriminate.
Qed.

Lemma raises_only_draw_items (display_items : list json) (idx selected : Z) :
  raises_only is_curses_error (draw_items idx display_items selected).
Proof.
  revert idx; induction display_items as [|item rest IH]; intros idx; simpl.
  - apply raises_only_ret.
  - apply raises_only_bind.
    + apply raises_only_caught, raises_only_bind;
        [apply raises_only_addstr | intros; apply raises_only_ret].
    + intros []; [apply IH | apply raises_only_ret].
Qed.

Lemma raises_only_render (st : locals) (filtered_items : list json) :
  raises_only is_curses_error (render st filtered_items).
Proof.
  unfold render.
  repeat (apply raises_only_bind; [|intros _]);
    try apply raises_only_addstr; try apply raises_only_draw_items;
    try apply raises_only_move.
  apply raises_only_caught, raises_only_addstr.
Qed.

(** ** Resizing *)

(** The pass that follows an event which left query, index and catalog as
    they were: the same view is drawn again. *)
Lemma next_pass_same_view (st st2 : locals) (filtered_items : list json) (w : world) :
  view_ok st filtered_items →
  search_text st2 = search_text st → selected_index st2 = selected_index st →
  items st2 = items st →
  ∀ m' w', next_pass st2 w = (m', w') →
    (m' = Browsing st2 filtered_items)
    ∨ (∃ e, m' = Raised e ∧ is_curses_error e = true).
Proof.
  intros [Hf Hi] Hq Hs Hit m' w' H.
  unfold next_pass, loop_head, bind, clear, modify, lift in H.
  rewrite Hq, Hit, Hf, Hs, (clamp_index_id _ _ Hi) in H.
  assert (with_index (selected_index st) st2 = st2) as E.
  { rewrite <- Hs. now destruct st2. }
  rewrite E in H.
  destruct (render st2 filtered_items _) as [[[]|e] w1] eqn:Hr; simpl in H;
    injection H as <- <-.
  - now left.
  - right. exists e. split; [reflexivity|]. exact (raises_only_render _ _ _ _ _ Hr).
Qed.

Lemma step_resize_store (m : mode) (h wd : Z) (w : world) :
  same_store w (snd (step m (Resize h wd) w)).
Proof.
  unfold step, getch, bind, modify, ret, handle_key. simpl.
  destruct m as [st fl|st| |e]; simpl; try reflexivity.
  - transitivity (set_term (h, wd) w); [now repeat split | apply keeps_next_pass].
  - transitivity (set_term (h, wd) w); [now repeat split | apply keeps_next_pass].
Qed.

(** C9. A resize event leaves the query and the selection index as they
    were, in whatever state the loop is: the view is drawn again (which a
    terminal that became too small can make fail with a curses error), and
    while browsing the stored terminal size becomes the new one. The file
    system, the requests and the standard output are not touched. *)
Theorem resize_changes_layout_only
  (evs : list event) (w0 w w' : world) (m m' : mode) (h wd : Z) :
  run evs w0 = (m, w) →
  step m (Resize h wd) w = (m', w') →
  (query_and_selection m' = query_and_selection m
   ∨ ∃ e, m' = Raised e ∧ is_curses_error e = true)
  ∧ (∀ st fl st' fl', m = Browsing st fl → m' = Browsing st' fl' →
       fl' = fl ∧ max_y st' = h ∧ max_x st' = wd
       ∧ items st' = items st ∧ jmm_kv st' = jmm_kv st)
  ∧ same_store w w'.
Proof.
  intros Hrun Hstep.
  pose proof (run_ok evs w0) as Hok. rewrite Hrun in Hok. simpl in Hok.
  pose proof (step_resize_store m h wd w) as Hstore. rewrite Hstep in Hstore.
  split; [|split; [|exact Hstore]].
  - destruct m as [st fl|st| |e]; simpl in Hstep.
    + unfold getch, bind, modify, ret, handle_key in Hstep. simpl in Hstep.
      destruct (next_pass_same_view st (with_size (h, wd) st) fl _ Hok eq_refl eq_refl eq_refl _ _ Hstep)
        as [-> | ?]; [left; reflexivity | now right].
    + unfold getch, bind, modify, ret in Hstep. simpl in Hstep.
      destruct Hok as [fl Hok].
      destruct (next_pass_same_view st st fl _ Hok eq_refl eq_refl eq_refl _ _ Hstep)
        as [-> | ?]; [left; reflexivity | now right].
    + injection Hstep as <- <-. now left.
    + injection Hstep as <- <-. now left.
  - intros st fl st' fl' -> ->.
    unfold step, getch, bind, modify, ret, handle_key in Hstep. simpl in Hstep.
    destruct (next_pass_same_view st (with_size (h, wd) st) fl _ Hok eq_refl eq_refl eq_refl _ _ Hstep)
      as [[= -> ->] | (e & [=] & _)].
    now repeat split.
Qed.

(** ** Start-up *)



Lemma main_init_load_fails (w : world) (e : exn) :
  load_fails w e → main_init w = (Raise e, w).
Proof.
  intros [Hd Hf | content e' Hd Hf Hj _]; unfold main_init, bind at 1, read_text;
    rewrite (bool_decide_eq_false_2 _ Hd), Hf; [reflexivity|].
  unfold bind at 1, lift. now rewrite Hj.
Qed.

Lemma load_fails_not_interrupt (w : world) (e : exn) :
  load_fails w e → is_KeyboardInterrupt e = false.
Proof.
  intros [|content e' _ _ _ Hc]; [reflexivity|].
  unfold is_KeyboardInterrupt. now rewrite Hc.
Qed.

(** C7. When the agenda file is missing or is not valid JSON, loading
    fails: [main] raises before its loop, no input event is ever read, and
    the exception reaches the interpreter, which reports it. A record of
    the input sequence without the lookup key is left out of the catalog
    and causes no error: the catalog is the one built without it. *)
Theorem load_failure_is_reported_and_keyless_records_are_skipped :
  (∀ (w : world) (e : exn) (evs : list event),
     CACHE_DIR ∈ dirs w → load_fails w e →
     run evs w = (Raised e, w) ∧ finish (Raised e) = Traceback e)
  ∧ (∀ (before after : list json) (kvs : list (string * json)),
       Py.assoc "presno" kvs = None →
       Catalog.build (JArr (before ++ JObj kvs :: after))
       = Catalog.build (JArr (before ++ after))).
Proof.
  split.
  - intros w e evs Hd Hl. split.
    + unfold run, start, is_dir, gets, main_start.
      rewrite (bool_decide_eq_true_2 _ Hd), (main_init_load_fails w e Hl).
      apply steps_Raised.
    + unfold finish. now rewrite (load_fails_not_interrupt w e Hl).
  - intros before after kvs H. now apply build_skips.
Qed.

(** ** Lookups from the loop *)

Lemma list_getitem_nonempty (l : list json) (i : Z) (v : json) :
  list_getitem l i = Ok v → l ≠ [].
Proof.
  intros H ->. unfold list_getitem in H.
  destruct (_ <? 0); [discriminate|]. now destruct (Z.to_nat _).
Qed.

Lemma is_Exception_not_interrupt (e : exn) :
  is_Exception e = true → is_KeyboardInterrupt e = false.
Proof. unfold is_Exception, is_KeyboardInterrupt. now destruct (class_of e). Qed.

(** C2 (amended). When the fetch of a lookup fails (the transport or the
    parser raises [e]), [lookup_abstract] prints the cause and raises the
    same exception again; the loop does not catch it: pressing Enter on the
    item makes [main] raise [e], no further event is read, and the
    interpreter reports [e]. *)
Theorem lookup_error_leaves_the_loop
  (st : locals) (filtered_items : list json) (w : world) (key : Z)
  (item record presno : json) (e : exn) :
  key = KEY_ENTER ∨ key = 10 ∨ key = 13 →
  list_getitem filtered_items (selected_index st) = Ok item →
  dict_get item (jmm_kv st) = Ok record →
  Py.getitem record "presno" = Ok presno →
  uncached (fstr presno) w →
  answer (paper_url (fstr presno)) w = Raise e →
  is_Exception e = true →
  let w' := add_stdout (message_of e) (add_request (paper_url (fstr presno)) w) in
  lookup_abstract (fstr presno) w = (Raise e, w')
  ∧ step (Browsing st filtered_items) (Key key) w = (Raised e, w')
  ∧ (∀ evs, steps (Raised e) evs w' = (Raised e, w'))
  ∧ finish (Raised e) = Traceback e.
Proof.
  intros Hkey Hitem Hrec Hpres Hu Ha He w'.
  pose proof (lookup_fetch_error _ _ _ Hu Ha He) as Hl.
  split; [exact Hl|]. split; [|split].
  - assert (handle_key key st filtered_items w = (Raised e, w')) as Hh.
    { unfold handle_key.
      assert ((key =? 27) = false) as -> by (destruct Hkey as [->|[->| ->]]; reflexivity).
      assert ((key =? KEY_UP) = false) as -> by (destruct Hkey as [->|[->| ->]]; reflexivity).
      assert ((key =? KEY_DOWN) = false) as -> by (destruct Hkey as [->|[->| ->]]; reflexivity).
      assert ((key =? KEY_ENTER) || (key =? 10) || (key =? 13) = true) as ->
        by (destruct Hkey as [->|[->| ->]]; reflexivity).
      pose proof (list_getitem_nonempty _ _ _ Hitem) as Hne.
      destruct filtered_items as [|x l]; [congruence|].
      unfold activate, bind, lift. rewrite Hitem, Hrec, Hpres, Hl. reflexivity. }
    exact Hh.
  - intros evs. apply steps_Raised.
  - unfold finish. now rewrite (is_Exception_not_interrupt e He).
Qed.

(** C5. An answer that is an object without the abstract field: the lookup
    returns the sentinel and only logs its request; no cache entry is made,
    so the next lookup of the key sends a request again. *)
Theorem missing_field_gives_sentinel_and_no_entry
  (id : string) (kvs : list (string * json)) (w : world) :
  uncached id w →
  answer (paper_url id) w = Ok (JObj kvs) →
  Py.assoc "RawAbstract" kvs = None →
  let w' := add_request (paper_url id) w in
  lookup_abstract id w = (Ok (JStr NOT_FOUND), w')
  ∧ files w' = files w
  ∧ uncached id w'
  ∧ requests (snd (lookup_abstract id w')) = (requests w' ++ [paper_url id])%list.
Proof.
  intros Hu Ha Hk w'. split; [now apply (lookup_not_found id kvs)|].
  split; [reflexivity|].
  assert (uncached id w') as Hu' by (apply uncached_spec; now apply uncached_spec in Hu).
  split; [exact Hu' | now apply lookup_miss_requests].
Qed.

(** What holds of the round trip through the cache: after a fetch that
    stored the abstract [T], whatever the script does next, a lookup of
    the key sends no request, changes nothing, and returns [T] as a text
    file reads it, which is [T] itself when [T] has no carriage return. *)
Lemma cache_round_trip
  (id T : string) (kvs : list (string * json)) (w w1 w2 : world) (r : result json) :
  uncached id w →
  Path.dirname (cache_file id) ∈ dirs w →
  answer (paper_url id) w = Ok (JObj kvs) →
  Py.assoc "RawAbstract" kvs = Some (JStr T) →
  lookup_abstract id w = (r, w1) →
  evolves w1 w2 →
  r = Ok (JStr T)
  ∧ lookup_abstract id w2 = (Ok (JStr (Str.universal_newlines T)), w2)
  ∧ (Str.no_cr T = true → lookup_abstract id w2 = (Ok (JStr T), w2)).
Proof.
  intros Hu Hd Ha Hk Hl Hev.
  rewrite (lookup_stores id T kvs w Hu Hd Ha Hk) in Hl. injection Hl as <- <-.
  split; [reflexivity|].
  assert (lookup_abstract id w2 = (Ok (JStr (Str.universal_newlines T)), w2)) as H2.
  { destruct Hev as (Hdirs & _ & Hf). apply lookup_hit.
    - rewrite Hdirs. simpl. now apply uncached_spec in Hu.
    - destruct (Hf (cache_file id)) as [E | [N _]].
      + rewrite E. simpl. apply lookup_insert_eq.
      + simpl in N. rewrite lookup_insert_eq in N. discriminate. }
  split; [exact H2|]. intros Hcr. now rewrite <- (no_cr_universal_newlines T Hcr) at 1.
Qed.

(** * Further properties of the loop *)

(** The pass that follows an event: the view of the query is drawn with
    the index clamped into it, or the drawing raises a curses error. *)
Lemma next_pass_view (st2 : locals) (filtered_items : list json) (w : world)
      (m' : mode) (w' : world) :
  filter_items (search_text st2) (items st2) = Ok filtered_items →
  next_pass st2 w = (m', w') →
  m' = Browsing (with_index (clamp_index (selected_index st2) filtered_items) st2)
                filtered_items
  ∨ (∃ e, m' = Raised e ∧ is_curses_error e = true).
Proof.
  intros Hf H. unfold next_pass, loop_head, bind, clear, modify, lift in H.
  rewrite Hf in H.
  destruct (render _ filtered_items _) as [[[]|e] w1] eqn:Hr; simpl in H;
    injection H as <- <-.
  - now left.
  - right. exists e. split; [reflexivity|]. exact (raises_only_render _ _ _ _ _ Hr).
Qed.

(** When a title is not a [str] the comprehension raises, and so does
    [main]. *)
Lemma next_pass_filter_error (st2 : locals) (e : exn) (w : world) :
  filter_items (search_text st2) (items st2) = Raise e →
  fst (next_pass st2 w) = Raised e.
Proof.
  intros Hf. unfold next_pass, loop_head, bind, clear, modify, lift.
  now rewrite Hf.
Qed.

Lemma handle_key_store (key : Z) (st : locals) (filtered_items : list json) (w : world) :
  is_enter key = false → same_store w (snd (handle_key key st filtered_items w)).
Proof.
  unfold is_enter. intros He. unfold handle_key.
  destruct (key =? 27); [reflexivity|].
  destruct (key =? KEY_UP); [apply keeps_next_pass|].
  destruct (key =? KEY_DOWN); [apply keeps_next_pass|].
  rewrite He. clear He.
  destruct (_ || _); [apply keeps_next_pass|].
  destruct (key =? KEY_RESIZE); [apply keeps_next_pass|].
  destruct (_ && _); apply keeps_next_pass.
Qed.

(** X1. The arrow keys move the selection by one inside the view and stop
    at its ends: up at the first item and down at the last item (or in an
    empty view) change nothing. The query and the view stay as they are;
    the only other outcome is a curses error of the redraw. *)
Theorem arrow_keys_move_within_the_view
  (evs : list event) (w0 w w' : world) (st : locals) (filtered_items : list json)
  (key : Z) (m' : mode) :
  run evs w0 = (Browsing st filtered_items, w) →
  key = KEY_UP ∨ key = KEY_DOWN →
  step (Browsing st filtered_items) (Key key) w = (m', w') →
  same_store w w'
  ∧ ((∃ e, m' = Raised e ∧ is_curses_error e = true)
     ∨ ∃ st', m' = Browsing st' filtered_items
              ∧ search_text st' = search_text st
              ∧ selected_index st'
                = if key =? KEY_UP then Z.max (selected_index st - 1) 0
                  else match filtered_items with
                       | [] => 0
                       | _ => Z.min (selected_index st + 1) (Py.len filtered_items - 1)
                       end).
Proof.
  intros Hrun Hkey Hstep.
  pose proof (run_ok evs w0) as Hok. rewrite Hrun in Hok. destruct Hok as [Hf Hi].
  simpl in Hstep. split.
  { pose proof (handle_key_store key st filtered_items w) as Hs.
    rewrite Hstep in Hs. apply Hs. now destruct Hkey as [-> | ->]. }
  unfold handle_key in Hstep.
  destruct Hkey as [-> | ->]; simpl in Hstep.
  - destruct (selected_index st >? 0) eqn:Hpos.
    + destruct (next_pass_view (with_index (selected_index st - 1) st)
                  filtered_items w m' w' Hf Hstep) as [-> | ?]; [|now left].
      right. eexists. split; [reflexivity|]. split; [reflexivity|]. simpl.
      unfold index_ok, clamp_index in *. destruct filtered_items; [lia|].
      unfold Py.len in *. simpl length in *. lia.
    + destruct (next_pass_view st filtered_items w m' w' Hf Hstep) as [-> | ?];
        [|now left].
      right. eexists. split; [reflexivity|]. split; [reflexivity|]. simpl.
      rewrite (clamp_index_id _ _ Hi).
      unfold index_ok in Hi. destruct filtered_items; lia.
  - destruct filtered_items as [|x l] eqn:Hfl.
    + destruct (next_pass_view st [] w m' w' Hf Hstep) as [-> | ?]; [|now left].
      right. eexists. split; [reflexivity|]. split; reflexivity.
    + rewrite <- Hfl in *.
      destruct (selected_index st <? Py.len filtered_items - 1) eqn:Hlt.
      * destruct (next_pass_view (with_index (selected_index st + 1) st)
                    filtered_items w m' w' Hf Hstep) as [-> | ?]; [|now left].
        right. eexists. split; [reflexivity|]. split; [reflexivity|]. simpl.
        rewrite Hfl. rewrite <- Hfl. unfold clamp_index. rewrite Hfl.
        rewrite <- Hfl. rewrite Hfl in Hi. simpl in Hi. rewrite <- Hfl in Hi. lia.
      * destruct (next_pass_view st filtered_items w m' w' Hf Hstep) as [-> | ?];
          [|now left].
        right. eexists. split; [reflexivity|]. split; [reflexivity|]. simpl.
        rewrite (clamp_index_id _ _ Hi).
        rewrite Hfl in Hi. simpl in Hi. rewrite <- Hfl in Hi.
        rewrite Hfl. rewrite <- Hfl. lia.
Qed.

Lemma matching_elem_of (q : string) (l view : list json) :
  matching q l = Ok view → ∀ x, x ∈ view → x ∈ l.
Proof.
  revert view; induction l as [|item l IH]; intros view H x Hx; simpl in H.
  - injection H as <-. inversion Hx.
  - destruct (item_lower item) as [low|]; [|discriminate].
    destruct (matching q l) as [rest|]; [|discriminate].
    injection H as <-.
    destruct (Str.contains _ low).
    + apply elem_of_cons in Hx as [-> | Hx]; [left | right; now apply (IH rest)].
    + right. now apply (IH rest).
Qed.

Lemma filter_items_elem_of (q : string) (l view : list json) :
  filter_items q l = Ok view → ∀ x, x ∈ view → x ∈ l.
Proof.
  destruct q; simpl; [intros [= <-]; auto | apply matching_elem_of].
Qed.

(** X2. A printable key appends its character to the query and backspace
    removes the last one (nothing on an empty query); either way the
    selection goes back to the first item and the view is the filter of
    the new query. When a title of the catalog is not a [str], the filter
    of a non-empty query raises and [main] raises with it. *)
Theorem editing_the_query_refilters_from_the_top
  (evs : list event) (w0 w w' : world) (st : locals) (filtered_items : list json)
  (key : Z) (m' : mode) :
  run evs w0 = (Browsing st filtered_items, w) →
  is_printable key = true ∨ is_backspace key = true →
  step (Browsing st filtered_items) (Key key) w = (m', w') →
  let query := if is_backspace key then Str.drop_last (search_text st)
               else search_text st ++ chr key in
  same_store w w'
  ∧ match filter_items query (items st) with
    | Raise e => m' = Raised e
    | Ok view =>
        (∃ e, m' = Raised e ∧ is_curses_error e = true)
        ∨ ∃ st', m' = Browsing st' view ∧ search_text st' = query
                 ∧ selected_index st' = 0 ∧ items st' = items st
    end.
Proof.
  intros Hrun Hkey Hstep query. simpl in Hstep.
  assert (is_enter key = false ∧ (key =? 27) = false ∧ (key =? KEY_UP) = false
          ∧ (key =? KEY_DOWN) = false) as (Hen & Hesc & Hup & Hdn).
  { unfold is_printable, is_backspace, is_enter, KEY_ENTER, KEY_BACKSPACE,
      KEY_UP, KEY_DOWN in *. lia. }
  split.
  { pose proof (handle_key_store key st filtered_items w Hen) as Hs.
    now rewrite Hstep in Hs. }
  unfold handle_key in Hstep. unfold is_enter in Hen.
  rewrite Hesc, Hup, Hdn, Hen in Hstep.
  assert (next_pass (with_search query st) w = (m', w')) as Hpass.
  { subst query. unfold is_backspace in *.
    destruct ((key =? KEY_BACKSPACE) || (key =? 127) || (key =? 8)) eqn:Hb;
      [exact Hstep|].
    destruct Hkey as [Hp | ?]; [|discriminate].
    assert ((key =? KEY_RESIZE) = false) as Hr
      by (unfold is_printable, KEY_RESIZE in *; lia).
    unfold is_printable in Hp. now rewrite Hr, Hp in Hstep. }
  clear Hstep.
  destruct (filter_items query (items st)) as [view|e] eqn:Hf.
  - destruct (next_pass_view (with_search query st) view w m' w' Hf Hpass)
      as [-> | ?]; [|now left].
    right. eexists. split; [reflexivity|]. simpl.
    split; [reflexivity|]. split; [|reflexivity].
    unfold clamp_index. destruct view; [reflexivity|].
    unfold Py.len. simpl length. lia.
  - pose proof (next_pass_filter_error (with_search query st) e w Hf) as H.
    now rewrite Hpass in H.
Qed.

(** X3. A key the loop gives no meaning to (for instance the left arrow,
    a function key, or the -1 of a read without input) changes nothing:
    the same view is drawn again with the same locals. *)
Theorem other_keys_change_nothing
  (evs : list event) (w0 w w' : world) (st : locals) (filtered_items : list json)
  (key : Z) (m' : mode) :
  run evs w0 = (Browsing st filtered_items, w) →
  key ≠ 27 → key ≠ KEY_UP → key ≠ KEY_DOWN → key ≠ KEY_RESIZE →
  is_enter key = false → is_backspace key = false → is_printable key = false →
  step (Browsing st filtered_items) (Key key) w = (m', w') →
  same_store w w'
  ∧ (m' = Browsing st filtered_items
     ∨ ∃ e, m' = Raised e ∧ is_curses_error e = true).
Proof.
  intros Hrun H27 Hup Hdn Hrs Hen Hbs Hpr Hstep. simpl in Hstep.
  split.
  { pose proof (handle_key_store key st filtered_items w Hen) as Hs.
    now rewrite Hstep in Hs. }
  pose proof (run_ok evs w0) as Hok. rewrite Hrun in Hok.
  unfold handle_key in Hstep. unfold is_enter, is_backspace, is_printable in *.
  apply Z.eqb_neq in H27, Hup, Hdn, Hrs.
  rewrite H27, Hup, Hdn, Hen, Hbs, Hrs, Hpr in Hstep.
  exact (next_pass_same_view st st filtered_items w Hok eq_refl eq_refl eq_refl
           m' w' Hstep).
Qed.

(** * Further properties of the catalog *)

Lemma key_eqb_refl (k : json) : hashable k = true → key_eqb k k = true.
Proof.
  destruct k; simpl; try discriminate; intros _;
    auto using Z.eqb_refl, String.eqb_refl. now destruct b.
Qed.

Lemma key_eqb_sym (a b : json) : key_eqb a b = key_eqb b a.
Proof.
  destruct a, b; simpl; try reflexivity;
    auto using Z.eqb_sym, String.eqb_sym.
  now destruct b, b0.
Qed.

Lemma key_eqb_trans (a b c : json) :
  key_eqb a b = true → key_eqb b c = true → key_eqb a c = true.
Proof.
  destruct a, b, c; cbn -[Z.eqb]; try discriminate; intros H1 H2;
    repeat match goal with x : bool |- _ => destruct x end; cbn -[Z.eqb] in *;
    rewrite ?Z.eqb_eq, ?String.eqb_eq in *; subst;
    try reflexivity; try discriminate; try lia.
Qed.

Lemma dict_set_keys (k v : json) (d : dict) :
  dict_keys (dict_set k v d)
  = if existsb (fun k' => key_eqb k' k) (dict_keys d)
    then dict_keys d else (dict_keys d ++ [k])%list.
Proof.
  unfold dict_keys. induction d as [|[k0 v0] d IH]; simpl; [reflexivity|].
  destruct (key_eqb k0 k); simpl; [reflexivity|].
  rewrite IH. now destruct (existsb _ _).
Qed.

Lemma dict_set_elem_of (k v : json) (d : dict) (k' r' : json) :
  (k', r') ∈ dict_set k v d →
  (k', r') ∈ d ∨ (r' = v ∧ (k' = k ∨ (key_eqb k' k = true ∧ ∃ r0, (k', r0) ∈ d))).
Proof.
  induction d as [|[k0 v0] d IH]; simpl; intros H.
  - apply list_elem_of_singleton in H as [= -> ->]. right. auto.
  - destruct (key_eqb k0 k) eqn:E.
    + apply elem_of_cons in H as [[= -> ->] | H].
      * right. split; [reflexivity|]. right. split; [exact E|]. exists v0. left.
      * left. now right.
    + apply elem_of_cons in H as [[= -> ->] | H]; [left; left|].
      destruct (IH H) as [? | (-> & [-> | (? & r0 & ?)])].
      * left. now right.
      * right. auto.
      * right. split; [reflexivity|]. right. split; [assumption|]. exists r0. now right.
Qed.

Lemma dict_set_keys_distinct (k v : json) (d : dict) :
  keys_distinct d → keys_distinct (dict_set k v d).
Proof.
  intros Hd. unfold keys_distinct. rewrite dict_set_keys.
  destruct (existsb _ _) eqn:E; [exact Hd|].
  assert (∀ k', k' ∈ dict_keys d → key_eqb k' k = false) as Hnew.
  { intros k' Hin. destruct (key_eqb k' k) eqn:Ek; [|reflexivity].
    assert (existsb (fun k' => key_eqb k' k) (dict_keys d) = true) as Hex.
    { apply existsb_exists. exists k'. split; [now apply list_elem_of_In | exact Ek]. }
    congruence. }
  intros i j k1 k2 Hi Hj Heq.
  apply lookup_app_Some in Hi as [Hi | [Hli Hi]];
    apply lookup_app_Some in Hj as [Hj | [Hlj Hj]].
  - exact (Hd i j k1 k2 Hi Hj Heq).
  - apply list_lookup_singleton_Some in Hj as [_ <-].
    rewrite (Hnew k1) in Heq; [discriminate|]. eapply list_elem_of_lookup_2, Hi.
  - apply list_lookup_singleton_Some in Hi as [_ <-].
    rewrite key_eqb_sym, (Hnew k2) in Heq; [discriminate|].
    eapply list_elem_of_lookup_2, Hj.
  - apply list_lookup_singleton_Some in Hi as [Hi _].
    apply list_lookup_singleton_Some in Hj as [Hj _]. lia.
Qed.

Lemma dict_set_catalog_ok (k v : json) (d : dict) :
  catalog_ok d → entry_ok k v → catalog_ok (dict_set k v d).
Proof.
  intros Hd (Hh & kvs & title & presno & -> & Ht & Hk & Hp) k' r' Hin.
  destruct (dict_set_elem_of _ _ _ _ _ Hin) as [Hold | (-> & [-> | (Hk' & r0 & Hold)])].
  - now apply Hd.
  - split; [exact Hh|]. now exists kvs, title, presno.
  - destruct (Hd _ _ Hold) as [Hh' _]. split; [exact Hh'|].
    exists kvs, title, presno. repeat split; try assumption.
    rewrite key_eqb_sym in Hk'. rewrite key_eqb_sym.
    rewrite key_eqb_sym in Hk. exact (key_eqb_trans _ _ _ Hk Hk').
Qed.

Lemma with_presno_spec (objs filtered : list json) :
  Catalog.with_presno objs = Ok filtered →
  ∀ r, r ∈ filtered → r ∈ objs ∧ Py.contains "presno" r = Ok true.
Proof.
  revert filtered; induction objs as [|o objs IH]; intros filtered H r Hr; simpl in H.
  - injection H as <-. inversion Hr.
  - destruct (Py.contains "presno" o) as [keep|] eqn:Ec; [|discriminate].
    destruct (Catalog.with_presno objs) as [rest|]; [|discriminate].
    injection H as <-. destruct keep.
    + apply elem_of_cons in Hr as [-> | Hr].
      * split; [left | exact Ec].
      * destruct (IH rest eq_refl r Hr). split; [now right | assumption].
    + destruct (IH rest eq_refl r Hr). split; [now right | assumption].
Qed.

Lemma title_index_ok (filtered : list json) (d d' : dict) :
  (∀ r, r ∈ filtered → Py.contains "presno" r = Ok true) →
  Catalog.title_index filtered d = Ok d' →
  catalog_ok d → keys_distinct d → catalog_ok d' ∧ keys_distinct d'.
Proof.
  revert d; induction filtered as [|o filtered IH]; intros d Hp H Hc Hk; simpl in H.
  - injection H as <-. auto.
  - destruct (Py.getitem o "title") as [t|] eqn:Et; [|discriminate].
    destruct (hashable t) eqn:Hh; [|discriminate].
    apply (IH (dict_set t o d)); auto.
    + intros r Hr. apply Hp. now right.
    + apply dict_set_catalog_ok; [exact Hc|].
      split; [exact Hh|].
      destruct o; simpl in Et; try discriminate.
      destruct (Py.assoc "title" kvs) as [t'|] eqn:Ea; [|discriminate].
      injection Et as ->.
      pose proof (Hp (JObj kvs) (list_elem_of_here _ _)) as Hc'. simpl in Hc'.
      destruct (Py.assoc "presno" kvs) as [p|] eqn:Epn; [|discriminate].
      exists kvs, t, p. repeat split; auto using key_eqb_refl.
    + now apply dict_set_keys_distinct.
Qed.

Lemma build_invariants (object : json) (d : dict) :
  Catalog.build object = Ok d → catalog_ok d ∧ keys_distinct d.
Proof.
  unfold Catalog.build. intros H.
  destruct (Py.iter object) as [objs|]; [|discriminate].
  destruct (Catalog.with_presno objs) as [filtered|] eqn:Hf; [|discriminate].
  apply (title_index_ok filtered [] d); auto.
  - intros r Hr. now destruct (with_presno_spec _ _ Hf r Hr).
  - intros k r Hin. inversion Hin.
  - intros i j k1 k2 Hi. discriminate.
Qed.

Lemma build_catalog_ok (object : json) (d : dict) :
  Catalog.build object = Ok d → catalog_ok d.
Proof. intros H. now apply (build_invariants object d). Qed.

Lemma build_keys_distinct (object : json) (d : dict) :
  Catalog.build object = Ok d → keys_distinct d.
Proof. intros H. now apply (build_invariants object d). Qed.

(** X5. Whatever the agenda, when the catalog is built its titles are
    pairwise different (for Python's equality), and each title is mapped
    to an object that carries a presentation number and that very title. *)
Theorem built_catalog_is_well_formed (object : json) (d : dict) :
  Catalog.build object = Ok d → keys_distinct d ∧ catalog_ok d.
Proof.
  intros H. split; [exact (build_keys_distinct object d H) | exact (build_catalog_ok object d H)].
Qed.

(** * Activation *)

Lemma next_pass_catalog (st : locals) (w w' : world) (st' : locals) (view : list json) :
  next_pass st w = (Browsing st' view, w') →
  jmm_kv st' = jmm_kv st ∧ items st' = items st.
Proof.
  unfold next_pass, loop_head, bind, clear, modify, lift. intros H.
  destruct (filter_items _ _) as [fl|]; simpl in H; [|discriminate].
  destruct (render _ fl _) as [[[]|] ?]; simpl in H; [|discriminate].
  injection H as <- _ _. auto.
Qed.

Lemma next_pass_loaded (st : locals) (w : world) :
  locals_ok st → mode_loaded (fst (next_pass st w)).
Proof.
  intros [Hi Hc]. destruct (next_pass st w) as [[st' view|st'| |e] w'] eqn:H;
    simpl; try exact I.
  - destruct (next_pass_catalog _ _ _ _ _ H) as [Hj Hit].
    split; [now rewrite Hit, Hj | now rewrite Hj].
  - unfold next_pass in H. now destruct (loop_head st w) as [[[? ?]|] ?].
Qed.

Lemma locals_ok_with (st st' : locals) :
  jmm_kv st' = jmm_kv st → items st' = items st → locals_ok st → locals_ok st'.
Proof. intros Hj Hi [? ?]. split; [now rewrite Hi, Hj | now rewrite Hj]. Qed.

Lemma handle_key_loaded (key : Z) (st : locals) (filtered_items : list json) (w : world) :
  locals_ok st → mode_loaded (fst (handle_key key st filtered_items w)).
Proof.
  intros Hl. unfold handle_key.
  destruct (key =? 27); [exact I|].
  destruct (key =? KEY_UP).
  { apply next_pass_loaded. destruct (_ >? 0); [|exact Hl].
    now apply (locals_ok_with st). }
  destruct (key =? KEY_DOWN).
  { apply next_pass_loaded. destruct filtered_items; [exact Hl|].
    destruct (_ <? _); [|exact Hl]. now apply (locals_ok_with st). }
  destruct (_ || _).
  { destruct filtered_items as [|item rest]; [now apply next_pass_loaded|].
    destruct (activate st _ w) as [[|] ?]; simpl; [exact Hl | exact I]. }
  destruct (_ || _); [apply next_pass_loaded; now apply (locals_ok_with st)|].
  destruct (key =? KEY_RESIZE); [apply next_pass_loaded; now apply (locals_ok_with st)|].
  destruct (_ && _); apply next_pass_loaded; [now apply (locals_ok_with st) | exact Hl].
Qed.

Lemma step_loaded (m : mode) (ev : event) (w : world) :
  mode_loaded m → mode_loaded (fst (step m ev w)).
Proof.
  intros Hm. unfold step. destruct m as [st fl|st| |e]; try exact I.
  - destruct (getch ev w) as [[key|e] w1]; [now apply handle_key_loaded|].
    now destruct (is_KeyboardInterrupt e).
  - destruct (getch ev w) as [[key|e] w1]; [now apply next_pass_loaded | exact I].
Qed.

Lemma steps_loaded (evs : list event) (m : mode) (w : world) :
  mode_loaded m → mode_loaded (fst (steps m evs w)).
Proof.
  revert m w; induction evs as [|ev evs IH]; intros m w Hm; simpl; [exact Hm|].
  pose proof (step_loaded m ev w Hm) as H.
  destruct (step m ev w) as [m' w']. now apply IH.
Qed.

Lemma start_loaded (w : world) : mode_loaded (fst (start w)).
Proof.
  unfold start, is_dir, gets, main_start.
  destruct (bool_decide _); [|exact I].
  destruct (main_init w) as [[st|e] w1] eqn:Hi; [|exact I].
  apply next_pass_loaded.
  unfold main_init, bind, read_text, lift, clear, modify, getmaxyx, gets, ret in Hi.
  destruct (bool_decide _); [discriminate|].
  destruct (files w !! AGENDA); [|discriminate].
  destruct (json_loads lib _) as [object|]; [|discriminate].
  destruct (Catalog.build object) as [d|] eqn:Hb; [|discriminate].
  destruct (curs_set lib 1); [|discriminate].
  injection Hi as <- _. split; [reflexivity|].
  exact (build_catalog_ok object d Hb).
Qed.

Lemma run_loaded (evs : list event) (w : world) : mode_loaded (fst (run evs w)).
Proof.
  unfold run. pose proof (start_loaded w) as H.
  destruct (start w) as [m w1]. now apply steps_loaded.
Qed.

Lemma dict_get_key (k : json) (d : dict) :
  k ∈ dict_keys d → hashable k = true →
  ∃ k' r, dict_get k d = Ok r ∧ (k', r) ∈ d.
Proof.
  intros Hin Hh. induction d as [|[k0 v0] d IH]; [inversion Hin|]. simpl.
  destruct (key_eqb k0 k) eqn:E.
  - exists k0, v0. split; [reflexivity | left].
  - unfold dict_keys in Hin. simpl in Hin.
    apply elem_of_cons in Hin as [-> | Hin].
    + rewrite key_eqb_refl in E by exact Hh. discriminate.
    + destruct (IH Hin) as (k' & r & Hg & Hr). exists k', r. split; [exact Hg | now right].
Qed.

Lemma list_getitem_in_range (l : list json) (i : Z) :
  0 <= i < Py.len l → ∃ v, list_getitem l i = Ok v ∧ v ∈ l.
Proof.
  intros Hi. unfold list_getitem, Py.len in *.
  destruct (i <? 0) eqn:E; [lia|]. rewrite E.
  destruct (nth_error l (Z.to_nat i)) as [v|] eqn:En.
  - exists v. split; [reflexivity|]. apply list_elem_of_In. eapply nth_error_In, En.
  - apply nth_error_None in En. lia.
Qed.

(** X6. Pressing Enter on a non-empty view always finds its record: the
    selected title is in the view, the mapping has a record for it, and
    the record has a presentation number, so lines 196-197 raise neither
    [IndexError] nor [KeyError]. What Enter does is then the lookup of
    that number followed by the popup; only these two can raise. *)
Theorem enter_resolves_the_selected_record
  (evs : list event) (w0 w : world) (st : locals) (filtered_items : list json) :
  run evs w0 = (Browsing st filtered_items, w) →
  filtered_items ≠ [] →
  ∃ item record presno,
    list_getitem filtered_items (selected_index st) = Ok item
    ∧ item ∈ items st
    ∧ dict_get item (jmm_kv st) = Ok record
    ∧ Py.getitem record "presno" = Ok presno
    ∧ ∀ key, is_enter key = true →
        step (Browsing st filtered_items) (Key key) w
        = match (abstract <- lookup_abstract (fstr presno) ;;
                 show_popup
                   ("Abstract for: " ++ String "034"%char (fstr item ++ String "034"%char ""))
                   ("Abstract:" ++ String "010"%char (fstr abstract))) w with
          | (Ok _, w') => (DetailOverlay st, w')
          | (Raise e, w') => (Raised e, w')
          end.
Proof.
  intros Hrun Hne.
  pose proof (run_ok evs w0) as Hok. rewrite Hrun in Hok. destruct Hok as [Hf Hi].
  pose proof (run_loaded evs w0) as Hl. rewrite Hrun in Hl. destruct Hl as [Hit Hc].
  assert (0 <= selected_index st < Py.len filtered_items) as Hrange
    by (unfold index_ok in Hi; now destruct filtered_items).
  destruct (list_getitem_in_range _ _ Hrange) as (item & Hget & Hin).
  pose proof (filter_items_elem_of _ _ _ Hf item Hin) as Hitem.
  assert (hashable item = true) as Hh.
  { rewrite Hit in Hitem. unfold dict_keys in Hitem.
    apply list_elem_of_fmap in Hitem as ([k r] & -> & Hkr). now destruct (Hc k r Hkr). }
  destruct (dict_get_key item (jmm_kv st)) as (k' & record & Hrec & Hkr);
    [now rewrite <- Hit | exact Hh |].
  destruct (Hc k' record Hkr) as (_ & kvs & title & presno & -> & _ & _ & Hp).
  exists item, (JObj kvs), presno.
  split; [exact Hget|]. split; [exact Hitem|]. split; [exact Hrec|].
  split; [simpl; now rewrite Hp|].
  intros key Hkey. simpl. unfold handle_key.
  assert ((key =? 27) = false ∧ (key =? KEY_UP) = false ∧ (key =? KEY_DOWN) = false)
    as (-> & -> & ->)
    by (unfold is_enter, KEY_ENTER, KEY_UP, KEY_DOWN in *; lia).
  unfold is_enter in Hkey. rewrite Hkey.
  destruct filtered_items as [|x l]; [congruence|].
  unfold activate. unfold bind at 1, lift at 1. rewrite Hget.
  unfold bind at 1, lift at 1. rewrite Hrec.
  unfold bind at 1, lift at 1. simpl Py.getitem. rewrite Hp. reflexivity.
Qed.

(** * Further properties of the cache *)

Lemma append_length (a b : string) :
  String.length (a ++ b) = (String.length a + String.length b)%nat.
Proof. induction a; simpl; [reflexivity | now rewrite IHa]. Qed.

Lemma append_inj_l (p a b : string) : p ++ a = p ++ b → a = b.
Proof. induction p; simpl; intros H; [exact H | injection H; auto]. Qed.

Lemma append_inj_r (a b t : string) : a ++ t = b ++ t → a = b.
Proof.
  revert b; induction a as [|c a IH]; intros [|d b] H; simpl in H.
  - reflexivity.
  - apply (f_equal String.length) in H. simpl in H. rewrite !append_length in H.
    simpl in H. lia.
  - apply (f_equal String.length) in H. simpl in H. rewrite !append_length in H.
    simpl in H. lia.
  - injection H as -> H. now rewrite (IH b H).
Qed.

(** Different keys without "/" have different cache files. *)
Lemma cache_file_inj (id id' : string) :
  Path.no_slash id = true → Path.no_slash id' = true →
  cache_file id = cache_file id' → id = id'.
Proof.
  intros Hs Hs' H.
  rewrite (proj1 (cache_file_simple id Hs)), (proj1 (cache_file_simple id' Hs')) in H.
  apply append_inj_l, append_inj_l in H. now apply append_inj_r in H.
Qed.

#[local] Instance same_file_preorder (p : string) : PreOrder (same_file p).
Proof.
  split; [now intros w | intros w1 w2 w3; unfold same_file; congruence].
Qed.

Lemma keeps_same_file_lookup (id p : string) :
  p ≠ cache_file id → keeps (same_file p) (lookup_abstract id).
Proof.
  intros Hne. unfold lookup_abstract.
  apply keeps_bind; [apply _|apply keeps_gets; apply _|intros hit].
  destruct hit.
  - apply keeps_bind; [apply _| |intros; apply keeps_ret; apply _].
    intros w. unfold read_text. destruct (bool_decide _); [reflexivity|].
    destruct (files w !! _); reflexivity.
  - apply keeps_try_except; [apply _| |].
    + apply keeps_bind; [apply _| |intros data].
      { intros w. rewrite fetch_eq. reflexivity. }
      unfold store_abstract.
      apply keeps_bind; [apply _|apply keeps_lift; apply _|intros has].
      apply keeps_if; [|apply keeps_ret; apply _].
      assert (∀ s w, same_file p w (set_files (insert (cache_file id) s) w)) as Hset.
      { intros s w. unfold same_file. simpl. apply lookup_insert_ne. congruence. }
      apply keeps_bind; [apply _|apply keeps_open_w; [now intros | apply Hset]|intros _].
      apply keeps_bind; [apply _|apply keeps_lift; apply _|intros v].
      apply keeps_bind; [apply _|apply keeps_write; [now intros | apply Hset]|intros _].
      apply keeps_lift; apply _.
    + intros e. apply keeps_bind; [apply _|now intros w|intros; apply keeps_raise; apply _].
Qed.

(** X7. Among keys without "/", a lookup reads and writes the cache file
    of its own key only: the cache entry of every other such key is after
    the lookup what it was before, whatever the remote service answers.
    (Keys with "/" are left out: the join of paths gives "1" and "./1" the
    same file.) *)
Theorem lookup_leaves_other_entries_alone (id id' : string) (w : world) :
  Path.no_slash id = true → Path.no_slash id' = true →
  id' ≠ id →
  files (snd (lookup_abstract id w)) !! cache_file id' = files w !! cache_file id'.
Proof.
  intros Hs Hs' Hne. apply (keeps_same_file_lookup id (cache_file id')).
  intros H. apply Hne. now apply cache_file_inj.
Qed.

(** X8. An answer that announces an abstract which is not a [str] (a JSON
    null or number under "RawAbstract", or an array that merely contains
    the string "RawAbstract") makes the lookup raise a [TypeError], but
    only after line 88 has created the cache file: an empty entry stays
    behind, and from then on every lookup of the key returns the empty
    text without asking the service again. (The directory of the cache
    file is there: for a key without "/" it is the cache directory.) *)
Theorem non_text_abstract_leaves_an_empty_entry
  (id : string) (data : json) (w : world) :
  uncached id w →
  Path.dirname (cache_file id) ∈ dirs w →
  answer (paper_url id) w = Ok data →
  Py.contains "RawAbstract" data = Ok true →
  (∀ T, Py.getitem data "RawAbstract" ≠ Ok (JStr T)) →
  ∃ e w1,
    lookup_abstract id w = (Raise e, w1)
    ∧ class_of e = TypeError
    ∧ files w1 !! cache_file id = Some ""
    ∧ ∀ w2, evolves w1 w2 → lookup_abstract id w2 = (Ok (JStr ""), w2).
Proof.
  intros Hu Hd Ha Hc Hg. rewrite (lookup_miss id w Hu).
  pose proof Hu as Hu'. apply uncached_spec in Hu' as [Hnd Hnf].
  unfold try_except, bind at 1. rewrite fetch_eq, Ha.
  unfold store_abstract, bind at 1, lift at 1. rewrite Hc.
  unfold bind at 1, open_w. simpl dirs.
  rewrite (bool_decide_eq_false_2 _ Hnd), (bool_decide_eq_true_2 _ Hd).
  assert (∀ w1, dirs w1 = dirs w → files w1 !! cache_file id = Some "" →
            ∀ w2, evolves w1 w2 → lookup_abstract id w2 = (Ok (JStr ""), w2)) as Hlater.
  { intros w1 Hd1 Hf1 w2 (Hd2 & _ & Hf2).
    change (JStr "") with (JStr (Str.universal_newlines "")). apply lookup_hit.
    - now rewrite Hd2, Hd1.
    - destruct (Hf2 (cache_file id)) as [E | [N _]]; congruence. }
  unfold bind at 1, lift at 1.
  destruct (Py.getitem data "RawAbstract") as [v|e] eqn:Ev.
  - destruct v; try (specialize (Hg s); congruence);
      (eexists _, _; split; [reflexivity|]; split; [reflexivity|];
       split; [simpl; apply lookup_insert_eq|];
       apply Hlater; [reflexivity | simpl; apply lookup_insert_eq]).
  - assert (class_of e = TypeError) as Hcls.
    { destruct data; simpl in Hc, Ev; try discriminate; try (now injection Ev as <-).
      destruct (Py.assoc "RawAbstract" kvs); discriminate. }
    assert (is_Exception e = true) as He by (unfold is_Exception; now rewrite Hcls).
    simpl. rewrite He.
    eexists _, _. split; [reflexivity|]. split; [exact Hcls|].
    split; [simpl; apply lookup_insert_eq|].
    apply Hlater; [reflexivity | simpl; apply lookup_insert_eq].
Qed.

(** * When drawing succeeds *)












#[local] Instance same_term_preorder : PreOrder same_term.
Proof. split; [now intros w | intros w1 w2 w3; unfold same_term; congruence]. Qed.









(** * Which agendas load *)

Lemma with_presno_succeeds (objs : list json) :
  forallb (fun o => match Py.contains "presno" o with Ok _ => true | Raise _ => false end)
          objs = true →
  Catalog.with_presno objs
  = Ok (List.filter (fun o => match Py.contains "presno" o with
                              | Ok b => b | Raise _ => false end) objs).
Proof.
  induction objs as [|o objs IH]; simpl; [reflexivity|].
  intros H. apply andb_prop in H as [Ho Hr].
  destruct (Py.contains "presno" o) as [b|]; [|discriminate].
  rewrite (IH Hr). now destruct b.
Qed.

Lemma with_presno_raises (objs : list json) :
  forallb (fun o => match Py.contains "presno" o with Ok _ => true | Raise _ => false end)
          objs = false →
  ∃ e, Catalog.with_presno objs = Raise e ∧ class_of e = TypeError.
Proof.
  induction objs as [|o objs IH]; simpl; [discriminate|].
  intros H. destruct (Py.contains "presno" o) as [b|e] eqn:Ec.
  - simpl in H. destruct (IH H) as (e & -> & He). now exists e.
  - exists e. split; [reflexivity|].
    destruct o; simpl in Ec; try discriminate; now injection Ec as <-.
Qed.

Lemma title_index_succeeds (filtered : list json) (d : dict) :
  forallb (fun o => match Py.getitem o "title" with
                    | Ok t => hashable t | Raise _ => false end) filtered = true →
  ∃ d', Catalog.title_index filtered d = Ok d'.
Proof.
  revert d; induction filtered as [|o l IH]; intros d H; simpl in *; [eauto|].
  apply andb_prop in H as [Ho Hr].
  destruct (Py.getitem o "title") as [t|]; [|discriminate]. rewrite Ho. now apply IH.
Qed.

Lemma title_index_raises (filtered : list json) (d : dict) :
  forallb (fun o => match Py.getitem o "title" with
                    | Ok t => hashable t | Raise _ => false end) filtered = false →
  ∃ e, Catalog.title_index filtered d = Raise e
       ∧ (class_of e = TypeError ∨ class_of e = KeyError).
Proof.
  revert d; induction filtered as [|o l IH]; intros d H; simpl in *; [discriminate|].
  destruct (Py.getitem o "title") as [t|e] eqn:Et.
  - destruct (hashable t); simpl in H; [now apply IH|].
    eexists. split; [reflexivity | now left].
  - exists e. split; [reflexivity|].
    destruct o; simpl in Et; try (injection Et as <-; now left).
    destruct (Py.assoc "title" kvs); [discriminate|]. injection Et as <-. now right.
Qed.

Lemma loadable_spec (o : json) :
  loadable o
  = match Py.contains "presno" o with
    | Raise _ => false
    | Ok false => true
    | Ok true => match Py.getitem o "title" with
                 | Ok t => hashable t | Raise _ => false end
    end.
Proof.
  destruct o as [| | |s|l|kvs]; unfold loadable, Py.contains, Py.getitem;
    try reflexivity.
  destruct (Py.assoc "presno" kvs); [|reflexivity].
  now destruct (Py.assoc "title" kvs).
Qed.

Lemma build_outcome (objs : list json) :
  if forallb loadable objs
  then ∃ d, Catalog.build (JArr objs) = Ok d
  else ∃ e, Catalog.build (JArr objs) = Raise e
            ∧ (class_of e = TypeError ∨ class_of e = KeyError).
Proof.
  unfold Catalog.build. simpl.
  set (has := fun o => match Py.contains "presno" o with Ok _ => true | Raise _ => false end).
  set (titled := fun o => match Py.getitem o "title" with
                          | Ok t => hashable t | Raise _ => false end).
  set (keep := fun o => match Py.contains "presno" o with Ok b => b | Raise _ => false end).
  destruct (forallb has objs) eqn:Hhas.
  - rewrite (with_presno_succeeds objs Hhas). fold keep.
    assert (forallb loadable objs = forallb titled (List.filter keep objs)) as ->.
    { revert Hhas. induction objs as [|o objs IH]; simpl; [reflexivity|].
      intros H. apply andb_prop in H as [Ho Hr].
      rewrite (IH Hr), loadable_spec. subst has keep titled. simpl in *.
      destruct (Py.contains "presno" o) as [[|]|]; simpl; try reflexivity.
      discriminate. }
    destruct (forallb titled (List.filter keep objs)) eqn:Ht.
    + apply title_index_succeeds, Ht.
    + apply title_index_raises, Ht.
  - assert (forallb loadable objs = false) as ->.
    { revert Hhas. induction objs as [|o objs IH]; simpl; [discriminate|].
      intros H. rewrite loadable_spec. subst has. simpl in H.
      destruct (Py.contains "presno" o) as [[|]|]; simpl in *; auto.
      rewrite (IH H). apply andb_false_r. }
    destruct (with_presno_raises objs Hhas) as (e & -> & He). exists e. auto.
Qed.

(** X11. An agenda that is a list loads exactly when each of its elements
    is a container without the key "presno", or an object with the key
    and a hashable title; otherwise building the catalog raises a
    [TypeError] or a [KeyError] (a null or a number among the records, a
    record with a number but no title, a title that is a list). *)
Theorem agenda_loads_iff_records_are_well_shaped (objs : list json) :
  ((∃ d, Catalog.build (JArr objs) = Ok d) ↔ forallb loadable objs = true)
  ∧ (forallb loadable objs = false →
     ∃ e, Catalog.build (JArr objs) = Raise e
          ∧ (class_of e = TypeError ∨ class_of e = KeyError)).
Proof.
  pose proof (build_outcome objs) as H.
  destruct (forallb loadable objs).
  - split; [tauto | discriminate].
  - destruct H as (e & He & Hc). split.
    + split; [intros [d Hd]; congruence | discriminate].
    + intros _. now exists e.
Qed.

Lemma build_raises_class (object : json) (e : exn) :
  Catalog.build object = Raise e → class_of e = TypeError ∨ class_of e = KeyError.
Proof.
  intros Hb. unfold Catalog.build in Hb.
  destruct (Py.iter object) as [objs|e0] eqn:Hi.
  - destruct (Catalog.with_presno objs) as [filtered|e1] eqn:Hp.
    + destruct (forallb (fun o => match Py.getitem o "title" with
                                   | Ok t => hashable t | Raise _ => false end)
                        filtered) eqn:Ht.
      * destruct (title_index_succeeds filtered [] Ht) as [d Hd']. congruence.
      * destruct (title_index_raises filtered [] Ht) as (e2 & He2 & Hc2). congruence.
    + injection Hb as <-.
      destruct (forallb (fun o => match Py.contains "presno" o with
                                  | Ok _ => true | Raise _ => false end) objs) eqn:Hh.
      * rewrite (with_presno_succeeds objs Hh) in Hp. discriminate.
      * destruct (with_presno_raises objs Hh) as (e2 & He2 & Hc2). left. congruence.
  - injection Hb as <-. left.
    destruct object; simpl in Hi; try discriminate; now injection Hi as <-.
Qed.

(** X12. When the agenda file parses but the catalog cannot be built from
    it, [main] raises the error of the build before its loop: no event is
    read, nothing is drawn or written, and the interpreter reports the
    error, a [TypeError] or a [KeyError]. *)
Theorem unloadable_agenda_stops_before_the_loop
  (w : world) (content : string) (object : json) (e : exn) (evs : list event) :
  CACHE_DIR ∈ dirs w →
  AGENDA ∉ dirs w →
  files w !! AGENDA = Some content →
  json_loads lib (Str.universal_newlines content) = Ok object →
  Catalog.build object = Raise e →
  run evs w = (Raised e, w)
  ∧ finish (Raised e) = Traceback e
  ∧ (class_of e = TypeError ∨ class_of e = KeyError).
Proof.
  intros Hc Hd Hf Hj Hb.
  pose proof (build_raises_class object e Hb) as Hcl.
  split; [|split; [|exact Hcl]].
  - unfold run, start, is_dir, gets, main_start.
    rewrite (bool_decide_eq_true_2 _ Hc).
    assert (main_init w = (Raise e, w)) as ->.
    { unfold main_init, bind at 1, read_text.
      rewrite (bool_decide_eq_false_2 _ Hd), Hf.
      unfold bind at 1, lift at 1. rewrite Hj.
      unfold bind at 1, lift at 1. now rewrite Hb. }
    apply steps_Raised.
  - unfold finish, is_KeyboardInterrupt. now destruct Hcl as [-> | ->].
Qed.

(** * The titles of the catalog *)

Lemma with_presno_filter (objs filtered : list json) :
  Catalog.with_presno objs = Ok filtered →
  filtered = List.filter (fun o => match Py.contains "presno" o with
                                   | Ok b => b | Raise _ => false end) objs.
Proof.
  revert filtered; induction objs as [|o objs IH]; intros filtered H; simpl in H.
  - now injection H as <-.
  - simpl. destruct (Py.contains "presno" o) as [b|]; [|discriminate].
    destruct (Catalog.with_presno objs) as [rest|]; [|discriminate].
    injection H as <-. rewrite <- (IH rest eq_refl). now destruct b.
Qed.

Lemma dict_set_keeps_keys (k v : json) (d : dict) (k' : json) :
  k' ∈ dict_keys d → k' ∈ dict_keys (dict_set k v d).
Proof.
  intros H. rewrite dict_set_keys. destruct (existsb _ _); [exact H|].
  apply elem_of_app. now left.
Qed.

Lemma dict_set_has_key (t : string) (v : json) (d : dict) :
  JStr t ∈ dict_keys (dict_set (JStr t) v d).
Proof.
  rewrite dict_set_keys. destruct (existsb _ _) eqn:E.
  - apply existsb_exists in E as (k' & Hin & Hk).
    apply key_eqb_str_r in Hk. subst k'. now apply list_elem_of_In.
  - apply elem_of_app. right. left.
Qed.

Lemma title_index_keeps_keys (l : list json) (d d' : dict) (k : json) :
  Catalog.title_index l d = Ok d' → k ∈ dict_keys d → k ∈ dict_keys d'.
Proof.
  revert d; induction l as [|o l IH]; intros d H Hk; simpl in H.
  - now injection H as <-.
  - destruct (Py.getitem o "title") as [t|]; [|discriminate].
    destruct (hashable t); [|discriminate].
    apply (IH _ H). now apply dict_set_keeps_keys.
Qed.

Lemma title_index_keys (l : list json) (d d' : dict) (k : json) :
  Catalog.title_index l d = Ok d' → k ∈ dict_keys d' →
  k ∈ dict_keys d ∨ ∃ o, o ∈ l ∧ Py.getitem o "title" = Ok k.
Proof.
  revert d; induction l as [|o l IH]; intros d H Hk; simpl in H.
  - injection H as <-. now left.
  - destruct (Py.getitem o "title") as [t|] eqn:Et; [|discriminate].
    destruct (hashable t); [|discriminate].
    destruct (IH _ H Hk) as [Hin | (o' & Ho' & Ht')].
    + rewrite dict_set_keys in Hin. destruct (existsb _ _); [now left|].
      apply elem_of_app in Hin as [Hin | Hin]; [now left|].
      apply list_elem_of_singleton in Hin. subst k. right. exists o. split; [left | exact Et].
    + right. exists o'. split; [now right | exact Ht'].
Qed.

Lemma title_index_has_title (l : list json) (d d' : dict) (o : json) (t : string) :
  Catalog.title_index l d = Ok d' → o ∈ l → Py.getitem o "title" = Ok (JStr t) →
  JStr t ∈ dict_keys d'.
Proof.
  revert d; induction l as [|o0 l IH]; intros d H Ho Ht; simpl in H; [inversion Ho|].
  destruct (Py.getitem o0 "title") as [t0|] eqn:Et0; [|discriminate].
  destruct (hashable t0); [|discriminate].
  apply elem_of_cons in Ho as [-> | Ho].
  - rewrite Ht in Et0. injection Et0 as <-.
    apply (title_index_keeps_keys _ _ _ _ H), dict_set_has_key.
  - exact (IH _ H Ho Ht).
Qed.

(** The keys of the built mapping are the titles of the elements that
    carry a presentation number. *)
Lemma build_keys (objs : list json) (d : dict) :
  Catalog.build (JArr objs) = Ok d →
  (∀ k, k ∈ dict_keys d →
        ∃ o, o ∈ objs ∧ Py.contains "presno" o = Ok true ∧ Py.getitem o "title" = Ok k)
  ∧ (∀ o t, o ∈ objs → Py.contains "presno" o = Ok true →
            Py.getitem o "title" = Ok (JStr t) → JStr t ∈ dict_keys d).
Proof.
  unfold Catalog.build. simpl. intros H.
  destruct (Catalog.with_presno objs) as [filtered|] eqn:Hf; [|discriminate].
  split.
  - intros k Hk. destruct (title_index_keys _ _ _ _ H Hk) as [Hin | (o & Ho & Ht)];
      [inversion Hin|].
    destruct (with_presno_spec _ _ Hf o Ho) as [Hobj Hc]. now exists o.
  - intros o t Ho Hc Ht. apply (title_index_has_title _ _ _ o t H); [|exact Ht].
    rewrite (with_presno_filter _ _ Hf). apply list_elem_of_In, filter_In.
    split; [now apply list_elem_of_In | now rewrite Hc].
Qed.

(** * What can leave the loop *)

Lemma filter_items_raises (q : string) (l : list json) (e : exn) :
  filter_items q l = Raise e → e = Exn AttributeError "object has no attribute 'lower'".
Proof.
  unfold filter_items. destruct q as [|c q]; [discriminate|].
  generalize (String c q). intros q'. induction l as [|item l IH]; simpl; [discriminate|].
  destruct (item_lower item) as [low|e0] eqn:El.
  - destruct (matching q' l) as [rest|e1]; [discriminate|].
    intros H. injection H as <-. now apply IH.
  - intros H. injection H as <-. unfold item_lower in El.
    destruct item; try discriminate; now injection El as <-.
Qed.











(** * The popup and the keyboard *)

Lemma handle_key_printable (key : Z) (st : locals) (filtered_items : list json) :
  is_printable key = true →
  handle_key key st filtered_items
  = next_pass (with_search (search_text st ++ chr key) st).
Proof.
  intros Hp. unfold handle_key.
  assert ((key =? 27) = false ∧ (key =? KEY_UP) = false ∧ (key =? KEY_DOWN) = false
          ∧ is_enter key = false ∧ is_backspace key = false
          ∧ (key =? KEY_RESIZE) = false) as (-> & -> & -> & He & Hb & ->)
    by (unfold is_printable, is_enter, is_backspace, KEY_ENTER, KEY_BACKSPACE,
          KEY_UP, KEY_DOWN, KEY_RESIZE in *; lia).
  unfold is_enter in He. unfold is_backspace in Hb. unfold is_printable in Hp.
  now rewrite He, Hb, Hp.
Qed.

Lemma next_pass_outcome (st : locals) (w w' : world) (m' : mode) :
  next_pass st w = (m', w') →
  same_store w w'
  ∧ ((∃ e, m' = Raised e
           ∧ (is_curses_error e = true
              ∨ e = Exn AttributeError "object has no attribute 'lower'"))
     ∨ ∃ view, filter_items (search_text st) (items st) = Ok view
               ∧ m' = Browsing (with_index (clamp_index (selected_index st) view) st) view).
Proof.
  intros H. split.
  { pose proof (keeps_next_pass st w) as Hs. now rewrite H in Hs. }
  destruct (filter_items (search_text st) (items st)) as [view|e] eqn:Hf.
  - destruct (next_pass_view st view w m' w' Hf H) as [-> | (e & -> & He)].
    + right. now exists view.
    + left. exists e. split; [reflexivity | now left].
  - pose proof (next_pass_filter_error st e w Hf) as Hn. rewrite H in Hn. simpl in Hn.
    left. exists e. split; [exact Hn|]. right. exact (filter_items_raises _ _ _ Hf).
Qed.

(** Printable keys, one after the other, from a pass of the loop. *)
Lemma typing_appends (keys : list Z) :
  keys ≠ [] → Forall (fun key => is_printable key = true) keys →
  ∀ st fl w m' w',
    steps (Browsing st fl) (map Key keys) w = (m', w') →
    same_store w w'
    ∧ ((∃ e, m' = Raised e
             ∧ (is_curses_error e = true
                ∨ e = Exn AttributeError "object has no attribute 'lower'"))
       ∨ ∃ st' view, m' = Browsing st' view
                     ∧ search_text st' = search_text st ++ typed keys
                     ∧ selected_index st' = 0
                     ∧ items st' = items st
                     ∧ filter_items (search_text st') (items st') = Ok view).
Proof.
  induction keys as [|key keys IH]; [contradiction|]. intros _ Hall st fl w m' w' H.
  apply Forall_cons in Hall as [Hp Hall].
  change (steps (Browsing st fl) (map Key (key :: keys)) w)
    with (let '(m1, w1) := step (Browsing st fl) (Key key) w in
          steps m1 (map Key keys) w1) in H.
  change (step (Browsing st fl) (Key key) w) with (handle_key key st fl w) in H.
  rewrite (handle_key_printable key st fl Hp) in H.
  destruct (next_pass (with_search (search_text st ++ chr key) st) w) as [m1 w1] eqn:Hn.
  destruct (next_pass_outcome _ _ _ _ Hn) as [Hs1 [(e & -> & He) | (view & Hf & ->)]].
  - rewrite steps_Raised in H. injection H as <- <-. split; [exact Hs1|]. left. eauto.
  - simpl in Hf. destruct keys as [|key2 keys].
    + simpl in H. injection H as <- <-. split; [exact Hs1|]. right.
      eexists _, view. split; [reflexivity|]. simpl.
      split; [reflexivity|]. split; [|split; [reflexivity | exact Hf]].
      unfold clamp_index. destruct view; [reflexivity|].
      unfold Py.len. simpl length. lia.
    + destruct (IH ltac:(discriminate) Hall _ _ _ _ _ H)
        as [Hs2 [? | (st' & view' & -> & Hq & Hi & Hit & Hf')]].
      * split; [etransitivity; eassumption | now left].
      * split; [etransitivity; eassumption|]. right. exists st', view'.
        split; [reflexivity|]. simpl in Hq, Hit.
        split; [rewrite Hq; symmetry; apply append_assoc|].
        split; [exact Hi|]. split; [exact Hit | exact Hf'].
Qed.

(** X4. [show_popup] takes one value from [popup_win.getch()] and does
    not look at it (lines 72-73): whatever the value is (27, a letter, the
    first byte of the sequence of a function key), the popup returns and
    the loop draws the view of the unchanged query with the unchanged
    locals. The window of the popup is not in keypad mode, so the bytes
    that follow the first one of a sequence are read by the loop as keys
    of their own: when they are printable, they are typed into the
    query. *)
Theorem popup_takes_one_value_and_ignores_it
  (evs : list event) (w0 w : world) (st : locals) :
  run evs w0 = (DetailOverlay st, w) →
  (∀ value m' w',
     step (DetailOverlay st) (Key value) w = (m', w') →
     same_store w w'
     ∧ ((∃ e, m' = Raised e ∧ is_curses_error e = true)
        ∨ ∃ view, m' = Browsing st view
                  ∧ filter_items (search_text st) (items st) = Ok view))
  ∧ (∀ value rest m' w',
       rest ≠ [] → Forall (fun key => is_printable key = true) rest →
       steps (DetailOverlay st) (Key value :: map Key rest) w = (m', w') →
       same_store w w'
       ∧ ((∃ e, m' = Raised e
                ∧ (is_curses_error e = true
                   ∨ e = Exn AttributeError "object has no attribute 'lower'"))
          ∨ ∃ st' view, m' = Browsing st' view
                        ∧ search_text st' = search_text st ++ typed rest
                        ∧ selected_index st' = 0
                        ∧ items st' = items st
                        ∧ filter_items (search_text st') (items st') = Ok view)).
Proof.
  intros Hrun.
  pose proof (run_ok evs w0) as Hok. rewrite Hrun in Hok. destruct Hok as [view Hok].
  assert (∀ value m' w',
            step (DetailOverlay st) (Key value) w = (m', w') →
            same_store w w'
            ∧ ((∃ e, m' = Raised e ∧ is_curses_error e = true)
               ∨ m' = Browsing st view)) as Hone.
  { intros value m' w' Hstep. simpl in Hstep. split.
    { pose proof (keeps_next_pass st w) as Hs. now rewrite Hstep in Hs. }
    destruct (next_pass_same_view st st view w Hok eq_refl eq_refl eq_refl m' w' Hstep)
      as [-> | ?]; [now right | now left]. }
  split.
  - intros value m' w' Hstep. destruct (Hone value m' w' Hstep) as [Hs [? | ->]].
    + split; [exact Hs | now left].
    + split; [exact Hs|]. right. exists view. split; [reflexivity | apply Hok].
  - intros value rest m' w' Hne Hall H.
    change (steps (DetailOverlay st) (Key value :: map Key rest) w)
      with (let '(m1, w1) := step (DetailOverlay st) (Key value) w in
            steps m1 (map Key rest) w1) in H.
    destruct (step (DetailOverlay st) (Key value) w) as [m1 w1] eqn:Hstep.
    destruct (Hone value m1 w1 Hstep) as [Hs [(e & -> & He) | ->]].
    + rewrite steps_Raised in H. injection H as <- <-. split; [exact Hs|]. left. eauto.
    + destruct (typing_appends rest Hne Hall st view w1 m' w' H) as [Hs2 Hout].
      split; [etransitivity; eassumption | exact Hout].
Qed.


End Script.

(** * The statements at work on the sample installation *)

(** A decidable fact about concrete data, by evaluation. *)
Ltac by_compute :=
  match goal with
  | |- ?P => apply (bool_decide_eq_true_1 P); vm_compute; reflexivity
  end.

(** C4. After the first lookup of paper 4 has fetched and stored the
    abstract "a\rb", the second lookup sends no request, but it returns
    "a\nb": the cache file is read back in text mode, which turns the
    carriage return into a line feed. The text returned from the cache is
    not the text that was fetched. *)
Theorem cache_round_trip_loses_carriage_return :
  let first := lookup_abstract Sample.lib "4" Sample.world0 in
  let second := lookup_abstract Sample.lib "4" (snd first) in
  fst first = Ok (JStr ("a" ++ String "013"%char "b"))
  ∧ files (snd first) !! cache_file Sample.lib "4" = Some ("a" ++ String "013"%char "b")
  ∧ fst second = Ok (JStr ("a" ++ String "010"%char "b"))
  ∧ requests (snd second) = requests (snd first)
  ∧ fst second ≠ fst first.
Proof.
  cbv zeta. repeat split; try (vm_compute; reflexivity).
  vm_compute. discriminate.
Qed.

(** C6. On a terminal of 24 rows and 80 columns, seventy-one characters
    typed into the search box are drawn, and the seventy-second makes the
    pass that draws it raise a curses error out of [main]: the cursor is
    moved to column 80 of the search line (line 173), outside the window,
    and nothing catches the error. *)
Theorem long_query_makes_render_raise :
  (∃ st fl, fst (run Sample.lib (repeat (Key 97) 71) Sample.world0) = Browsing st fl
            ∧ Str.len (search_text st) = 71)
  ∧ fst (run Sample.lib (repeat (Key 97) 72) Sample.world0) = Raised curses_error
  ∧ finish (Raised curses_error) = Traceback curses_error.
Proof.
  split; [|split; vm_compute; reflexivity].
  eexists _, _. split; [vm_compute; reflexivity|]. vm_compute. reflexivity.
Qed.

(** C2 (as stated, refuted). The third item of the sample catalog is paper
    3, which the remote service refuses. Activating it does not bring the
    loop back to browsing: [main] raises the transport error and the
    interpreter reports it. *)
Lemma lookup_error_is_not_caught_by_the_loop :
  fst (run Sample.lib [Key KEY_DOWN; Key KEY_DOWN; Key 10] Sample.world0)
  = Raised (Exn URLError "connection refused")
  ∧ finish (fst (run Sample.lib [Key KEY_DOWN; Key KEY_DOWN; Key 10] Sample.world0))
    = Traceback (Exn URLError "connection refused")
  ∧ ¬ (∃ st fl, fst (run Sample.lib [Key KEY_DOWN; Key KEY_DOWN; Key 10] Sample.world0)
                = Browsing st fl).
Proof.
  split; [vm_compute; reflexivity|]. split; [vm_compute; reflexivity|].
  intros (st & fl & H). vm_compute in H. discriminate.
Qed.

Lemma lookup_error_leaves_the_loop_witness :
  lookup_abstract Sample.lib "3" Sample.world0
  = (Raise (Exn URLError "connection refused"),
     add_stdout "connection refused" (add_request (paper_url "3") Sample.world0))
  ∧ step Sample.lib
      (Browsing (Locals [(JStr "Theory of Rings", Sample.record "Theory of Rings" "3")]
                        [JStr "Theory of Rings"] "" 0 24 80)
                [JStr "Theory of Rings"])
      (Key 10) Sample.world0
    = (Raised (Exn URLError "connection refused"),
       add_stdout "connection refused" (add_request (paper_url "3") Sample.world0))
  ∧ (∀ evs, steps Sample.lib (Raised (Exn URLError "connection refused")) evs
              (add_stdout "connection refused" (add_request (paper_url "3") Sample.world0))
            = (Raised (Exn URLError "connection refused"),
               add_stdout "connection refused"
                 (add_request (paper_url "3") Sample.world0)))
  ∧ finish (Raised (Exn URLError "connection refused"))
    = Traceback (Exn URLError "connection refused").
Proof.
  apply (lookup_error_leaves_the_loop Sample.lib
           (Locals [(JStr "Theory of Rings", Sample.record "Theory of Rings" "3")]
                   [JStr "Theory of Rings"] "" 0 24 80)
           [JStr "Theory of Rings"] Sample.world0 10
           (JStr "Theory of Rings") (Sample.record "Theory of Rings" "3") (JStr "3")
           (Exn URLError "connection refused")).
  - right. left. reflexivity.
  - reflexivity.
  - reflexivity.
  - reflexivity.
  - vm_compute. reflexivity.
  - vm_compute. reflexivity.
  - reflexivity.
Defined.

Lemma selected_index_in_range_witness :
  ∃ st, fst (run Sample.lib
               [Key 116; Key 104; Key KEY_DOWN; Key KEY_DOWN; Key KEY_UP; Key KEY_DOWN]
               Sample.world0)
        = Browsing st [JStr "Knot Theory"; JStr "Theory of Rings"]
        ∧ search_text st = "th" ∧ selected_index st = 1
        ∧ 0 <= selected_index st < 2.
Proof.
  set (evs := [Key 116; Key 104; Key KEY_DOWN; Key KEY_DOWN; Key KEY_UP; Key KEY_DOWN]).
  set (st := Locals
               [(JStr "Knot Theory", Sample.record "Knot Theory" "4");
                (JStr "Graph Coloring", Sample.record "Graph Coloring" "2");
                (JStr "Theory of Rings", Sample.record "Theory of Rings" "3")]
               [JStr "Knot Theory"; JStr "Graph Coloring"; JStr "Theory of Rings"]
               "th" 1 24 80).
  assert (run Sample.lib evs Sample.world0
          = (Browsing st [JStr "Knot Theory"; JStr "Theory of Rings"],
             snd (run Sample.lib evs Sample.world0))) as Hrun
    by (vm_compute; reflexivity).
  destruct (selected_index_in_range Sample.lib evs Sample.world0 _ st _ Hrun)
    as (_ & Hin & _).
  exists st. rewrite Hrun. split; [reflexivity|]. split; [reflexivity|].
  split; [reflexivity|]. apply Hin. discriminate.
Defined.

Lemma missing_field_gives_sentinel_and_no_entry_witness :
  lookup_abstract Sample.lib "2" Sample.world0
  = (Ok (JStr "Abstract not found."), add_request (paper_url "2") Sample.world0)
  ∧ files (add_request (paper_url "2") Sample.world0) = files Sample.world0
  ∧ uncached Sample.lib "2" (add_request (paper_url "2") Sample.world0)
  ∧ requests (snd (lookup_abstract Sample.lib "2"
                     (add_request (paper_url "2") Sample.world0)))
    = (requests (add_request (paper_url "2") Sample.world0) ++ [paper_url "2"])%list.
Proof.
  apply (missing_field_gives_sentinel_and_no_entry Sample.lib "2"
           [("Message", JStr "no such paper")] Sample.world0).
  - vm_compute. reflexivity.
  - vm_compute. reflexivity.
  - reflexivity.
Defined.

Lemma load_failure_is_reported_witness :
  run Sample.lib [Key 116; Key 10] Sample.world_no_agenda
  = (Raised (Exn FileNotFoundError Sample.AGENDA_FILE), Sample.world_no_agenda)
  ∧ run Sample.lib [Key 116; Key 10] Sample.world_bad_agenda
    = (Raised (Exn JSONDecodeError "Expecting value"), Sample.world_bad_agenda)
  ∧ Catalog.build Sample.agenda
    = Catalog.build
        (JArr [Sample.record "Knot Theory" "1"; Sample.record "Graph Coloring" "2";
               Sample.record "Knot Theory" "4"; Sample.record "Theory of Rings" "3"]).
Proof.
  destruct (load_failure_is_reported_and_keyless_records_are_skipped Sample.lib)
    as [Hfail Hskip].
  split; [|split].
  - apply (Hfail Sample.world_no_agenda (Exn FileNotFoundError Sample.AGENDA_FILE)
                 [Key 116; Key 10]).
    + by_compute.
    + apply (agenda_missing Sample.lib Sample.world_no_agenda).
      * by_compute.
      * vm_compute. reflexivity.
  - apply (Hfail Sample.world_bad_agenda (Exn JSONDecodeError "Expecting value")
                 [Key 116; Key 10]).
    + by_compute.
    + apply (agenda_invalid Sample.lib Sample.world_bad_agenda "<html>").
      * by_compute.
      * vm_compute. reflexivity.
      * reflexivity.
      * reflexivity.
  - apply (Hskip [Sample.record "Knot Theory" "1"]
                 [Sample.record "Graph Coloring" "2"; Sample.record "Knot Theory" "4";
                  Sample.record "Theory of Rings" "3"]
                 [("title", JStr "Opening Reception")]).
    reflexivity.
Defined.

Lemma duplicate_titles_last_write_wins_witness :
  ∃ d, Catalog.build Sample.agenda = Ok d
       ∧ dict_get (JStr "Knot Theory") d = Ok (Sample.record "Knot Theory" "4")
       ∧ dict_keys d = [JStr "Knot Theory"; JStr "Graph Coloring"; JStr "Theory of Rings"].
Proof.
  exists [(JStr "Knot Theory", Sample.record "Knot Theory" "4");
          (JStr "Graph Coloring", Sample.record "Graph Coloring" "2");
          (JStr "Theory of Rings", Sample.record "Theory of Rings" "3")].
  split; [reflexivity|]. split; [|reflexivity].
  apply (duplicate_titles_last_write_wins
           [Sample.record "Knot Theory" "1"; JObj [("title", JStr "Opening Reception")];
            Sample.record "Graph Coloring" "2"; Sample.record "Knot Theory" "4";
            Sample.record "Theory of Rings" "3"]
           [Sample.record "Knot Theory" "1"; Sample.record "Graph Coloring" "2";
            Sample.record "Knot Theory" "4"; Sample.record "Theory of Rings" "3"]
           [Sample.record "Knot Theory" "1"; Sample.record "Graph Coloring" "2"]
           [Sample.record "Theory of Rings" "3"]
           (Sample.record "Knot Theory" "4") "Knot Theory").
  - reflexivity.
  - reflexivity.
  - reflexivity.
  - reflexivity.
  - intros r' H. apply list_elem_of_singleton in H. subst r'. discriminate.
Defined.

Lemma resize_changes_layout_only_witness :
  query_and_selection
    (fst (step Sample.lib
            (fst (run Sample.lib [Key 116; Key KEY_DOWN] Sample.world0))
            (Resize 30 100)
            (snd (run Sample.lib [Key 116; Key KEY_DOWN] Sample.world0))))
  = Some ("t", 1)
  ∧ query_and_selection (fst (run Sample.lib [Key 116; Key KEY_DOWN] Sample.world0))
    = Some ("t", 1)
  ∧ same_store
      (snd (run Sample.lib [Key 116; Key KEY_DOWN] Sample.world0))
      (snd (step Sample.lib
              (fst (run Sample.lib [Key 116; Key KEY_DOWN] Sample.world0))
              (Resize 30 100)
              (snd (run Sample.lib [Key 116; Key KEY_DOWN] Sample.world0)))).
Proof.
  destruct (resize_changes_layout_only Sample.lib [Key 116; Key KEY_DOWN] Sample.world0
              (snd (run Sample.lib [Key 116; Key KEY_DOWN] Sample.world0))
              (snd (step Sample.lib
                      (fst (run Sample.lib [Key 116; Key KEY_DOWN] Sample.world0))
                      (Resize 30 100)
                      (snd (run Sample.lib [Key 116; Key KEY_DOWN] Sample.world0))))
              (fst (run Sample.lib [Key 116; Key KEY_DOWN] Sample.world0))
              (fst (step Sample.lib
                      (fst (run Sample.lib [Key 116; Key KEY_DOWN] Sample.world0))
                      (Resize 30 100)
                      (snd (run Sample.lib [Key 116; Key KEY_DOWN] Sample.world0))))
              30 100) as (_ & _ & Hstore).
  - apply surjective_pairing.
  - apply surjective_pairing.
  - split; [vm_compute; reflexivity|]. split; [vm_compute; reflexivity | exact Hstore].
Defined.



(** The same defect in the popup: a talk title of 61 characters gives a
    popup title of 77, wider than the popup on 80 columns; line 50 then
    computes a negative column and the [addstr] of line 51 raises. *)
Example long_title_makes_popup_raise :
  fst (show_popup Sample.lib
         ("Abstract for: " ++ String "034"%char (Str.repeat "x" 61 ++ String "034"%char ""))
         "Abstract: abc" Sample.world0)
  = Raise curses_error.
Proof. vm_compute. reflexivity. Qed.

(** The scenario of the three talks: the query "theory" keeps "Knot Theory"
    and "Theory of Rings", in that order. *)
Example filter_theory :
  filter_items Sample.lib "theory"
    [JStr "Knot Theory"; JStr "Graph Coloring"; JStr "Theory of Rings"]
  = Ok [JStr "Knot Theory"; JStr "Theory of Rings"].
Proof. reflexivity. Qed.

(** A cache file that is already there is shown without any request. *)
Example cached_abstract_is_shown_without_request :
  let w := set_files (insert (cache_file Sample.lib "4") "abc") Sample.world0 in
  lookup_abstract Sample.lib "4" w = (Ok (JStr "abc"), w).
Proof. cbv zeta. vm_compute. reflexivity. Qed.

(** * The agenda converter *)

(** ** Times *)

Lemma zeros_length (n : nat) : String.length (Convert.zeros n) = n.
Proof. unfold Convert.zeros. induction n; simpl; congruence. Qed.

Lemma zfill_length (width : nat) (s : string) :
  String.length (Convert.zfill width s) = Nat.max width (String.length s).
Proof.
  unfold Convert.zfill. destruct (width <=? String.length s)%nat eqn:E.
  - apply Nat.leb_le in E. lia.
  - apply Nat.leb_gt in E. destruct s as [|c s].
    + rewrite zeros_length. simpl. lia.
    + destruct (_ || _)%bool; simpl in *;
        rewrite append_length, zeros_length; simpl; lia.
Qed.

Lemma zfill_long (width : nat) (s : string) :
  (width <= String.length s)%nat → Convert.zfill width s = s.
Proof. intros H. unfold Convert.zfill. apply Nat.leb_le in H. now rewrite H. Qed.

Lemma every_app (P : ascii → bool) (a b : string) :
  Convert.every P (a ++ b) = (Convert.every P a && Convert.every P b)%bool.
Proof. induction a; simpl; [reflexivity | now rewrite IHa, andb_assoc]. Qed.

Lemma every_zeros (P : ascii → bool) (n : nat) :
  P "0"%char = true → Convert.every P (Convert.zeros n) = true.
Proof.
  intros H. unfold Convert.zeros. induction n; simpl; [reflexivity | now rewrite H].
Qed.

Lemma every_zfill (P : ascii → bool) (width : nat) (s : string) :
  P "0"%char = true → Convert.every P s = true →
  Convert.every P (Convert.zfill width s) = true.
Proof.
  intros H0 Hs. unfold Convert.zfill. destruct (_ <=? _)%nat; [exact Hs|].
  destruct s as [|c s]; [now apply every_zeros|].
  simpl in Hs. apply andb_prop in Hs as [Hc Hs].
  destruct (_ || _)%bool; simpl.
  - now rewrite Hc, every_app, every_zeros, Hs.
  - rewrite every_app, every_zeros by exact H0. simpl. now rewrite Hc, Hs.
Qed.

Lemma every_remove_dots (s : string) :
  Convert.every Convert.not_dot (Convert.remove_dots s) = true.
Proof.
  induction s as [|c s IH]; simpl; [reflexivity|].
  destruct (Ascii.eqb c ".") eqn:E; [exact IH|]. simpl. unfold Convert.not_dot at 1.
  now rewrite E, IH.
Qed.

Lemma ascii_char_lower_not_dot (c : ascii) :
  Convert.not_dot (Str.ascii_char_lower c) = Convert.not_dot c.
Proof. destruct c as [[] [] [] [] [] [] [] []]; reflexivity. Qed.

Lemma ascii_char_lower_not_capital (c : ascii) :
  Convert.not_capital (Str.ascii_char_lower c) = true.
Proof. destruct c as [[] [] [] [] [] [] [] []]; reflexivity. Qed.

Lemma ascii_char_lower_id (c : ascii) :
  Convert.not_capital c = true → Str.ascii_char_lower c = c.
Proof.
  unfold Convert.not_capital, Str.ascii_char_lower. cbv zeta.
  now destruct (_ && _)%bool.
Qed.

Lemma every_lower_not_dot (s : string) :
  Convert.every Convert.not_dot s = true →
  Convert.every Convert.not_dot (Str.ascii_lower s) = true.
Proof.
  induction s as [|c s IH]; simpl; [reflexivity|].
  intros H. apply andb_prop in H as [Hc Hs].
  now rewrite ascii_char_lower_not_dot, Hc, IH.
Qed.

Lemma every_lower_not_capital (s : string) :
  Convert.every Convert.not_capital (Str.ascii_lower s) = true.
Proof.
  induction s as [|c s IH]; simpl; [reflexivity|].
  now rewrite ascii_char_lower_not_capital, IH.
Qed.

Lemma remove_dots_id (s : string) :
  Convert.every Convert.not_dot s = true → Convert.remove_dots s = s.
Proof.
  induction s as [|c s IH]; simpl; [reflexivity|].
  intros H. apply andb_prop in H as [Hc Hs]. unfold Convert.not_dot in Hc.
  destruct (Ascii.eqb c "."); [discriminate|]. now rewrite IH.
Qed.

Lemma ascii_lower_id (s : string) :
  Convert.every Convert.not_capital s = true → Str.ascii_lower s = s.
Proof.
  induction s as [|c s IH]; simpl; [reflexivity|].
  intros H. apply andb_prop in H as [Hc Hs].
  now rewrite (ascii_char_lower_id c Hc), IH.
Qed.

Lemma ascii_lower_length (s : string) :
  String.length (Str.ascii_lower s) = String.length s.
Proof. induction s; simpl; congruence. Qed.

(** ASCII text stays ASCII. *)
Lemma is_ascii_remove_dots (s : string) :
  Str.is_ascii s = true → Str.is_ascii (Convert.remove_dots s) = true.
Proof.
  induction s as [|c s IH]; simpl; [reflexivity|].
  intros H. apply andb_prop in H as [Hc Hs].
  destruct (Ascii.eqb c "."); [now apply IH|]. simpl. now rewrite Hc, IH.
Qed.

Lemma is_ascii_char_lower (c : ascii) :
  (nat_of_ascii c <? 128)%nat = true →
  (nat_of_ascii (Str.ascii_char_lower c) <? 128)%nat = true.
Proof.
  destruct c as [[] [] [] [] [] [] [] []]; intros H;
    first [reflexivity | discriminate H].
Qed.

Lemma is_ascii_lower (s : string) :
  Str.is_ascii s = true → Str.is_ascii (Str.ascii_lower s) = true.
Proof.
  induction s as [|c s IH]; simpl; [reflexivity|].
  intros H. apply andb_prop in H as [Hc Hs].
  now rewrite (is_ascii_char_lower c Hc), IH.
Qed.

Lemma is_ascii_app (a b : string) :
  Str.is_ascii (a ++ b) = (Str.is_ascii a && Str.is_ascii b)%bool.
Proof.
  induction a as [|c a IH]; [reflexivity|].
  change (Str.is_ascii (String c (a ++ b))
          = ((nat_of_ascii c <? 128)%nat && Str.is_ascii a && Str.is_ascii b)%bool).
  simpl. now rewrite IH, andb_assoc.
Qed.

Lemma is_ascii_zeros (n : nat) : Str.is_ascii (Convert.zeros n) = true.
Proof. unfold Convert.zeros. induction n; [reflexivity|]. simpl. exact IHn. Qed.

Lemma is_ascii_zfill (width : nat) (s : string) :
  Str.is_ascii s = true → Str.is_ascii (Convert.zfill width s) = true.
Proof.
  intros Hs. unfold Convert.zfill. destruct (_ <=? _)%nat; [exact Hs|].
  destruct s as [|c s]; [apply is_ascii_zeros|].
  simpl in Hs. apply andb_prop in Hs as [Hc Hs'].
  destruct (_ || _)%bool.
  - simpl. now rewrite Hc, is_ascii_app, is_ascii_zeros, Hs'.
  - rewrite is_ascii_app, is_ascii_zeros. simpl. now rewrite Hc, Hs'.
Qed.

(** X13. The times the converter writes, for a text of ASCII characters,
    on which [str.lower] turns the letters A-Z into a-z and nothing else:
    the normalised time has the length of the text without its dots, or 8
    if that is less; it has no dot and none of the letters A-Z; and it is
    a fixed point: normalising it again gives the same text. *)
Theorem normal_time_is_padded_and_stable (cl : conv_library) (s : string) :
  (∀ t, Str.is_ascii t = true → lower cl t = Str.ascii_lower t) →
  Str.is_ascii s = true →
  ∃ t, Convert.normal_time cl (JStr s) = Ok t
       ∧ String.length t = Nat.max 8 (String.length (Convert.remove_dots s))
       ∧ Convert.every Convert.not_dot t = true
       ∧ Convert.every Convert.not_capital t = true
       ∧ Convert.normal_time cl (JStr t) = Ok t.
Proof.
  intros Hlow Hs.
  pose proof (is_ascii_remove_dots s Hs) as Hrd.
  exists (Convert.zfill 8 (Str.ascii_lower (Convert.remove_dots s))).
  split; [simpl; now rewrite (Hlow _ Hrd)|].
  assert (Convert.every Convert.not_dot
            (Convert.zfill 8 (Str.ascii_lower (Convert.remove_dots s))) = true) as Hd.
  { apply every_zfill; [reflexivity|]. apply every_lower_not_dot, every_remove_dots. }
  assert (Convert.every Convert.not_capital
            (Convert.zfill 8 (Str.ascii_lower (Convert.remove_dots s))) = true) as Hw.
  { apply every_zfill; [reflexivity|]. apply every_lower_not_capital. }
  assert (Str.is_ascii (Convert.zfill 8 (Str.ascii_lower (Convert.remove_dots s))) = true)
    as Ha by now apply is_ascii_zfill, is_ascii_lower.
  split; [now rewrite zfill_length, ascii_lower_length|].
  split; [exact Hd|]. split; [exact Hw|].
  simpl. rewrite (remove_dots_id _ Hd), (Hlow _ Ha), (ascii_lower_id _ Hw), zfill_long;
    [reflexivity|].
  rewrite zfill_length. lia.
Qed.

(** ** Sorting by start *)

Lemma insert_perm (x : Z * Convert.entry) (l : list (Z * Convert.entry)) :
  Convert.insert x l ≡ₚ x :: l.
Proof.
  induction l as [|y l IH]; simpl; [reflexivity|].
  destruct (fst x <=? fst y); [reflexivity|]. rewrite IH. apply perm_swap.
Qed.

Lemma stable_sort_perm (l : list (Z * Convert.entry)) : Convert.stable_sort l ≡ₚ l.
Proof.
  induction l as [|x l IH]; simpl; [reflexivity|].
  unfold Convert.stable_sort in *. simpl. now rewrite insert_perm, IH.
Qed.

Lemma insert_sorted (x : Z * Convert.entry) (l : list (Z * Convert.entry)) :
  StronglySorted (fun a b => fst a <= fst b) l →
  StronglySorted (fun a b => fst a <= fst b) (Convert.insert x l).
Proof.
  induction 1 as [|y l Hs IH Hy]; simpl.
  - repeat constructor.
  - destruct (fst x <=? fst y) eqn:E.
    + apply Z.leb_le in E. constructor; [now constructor|].
      constructor; [exact E|]. eapply Forall_impl; [exact Hy|]. simpl. intros; lia.
    + apply Z.leb_gt in E. constructor; [exact IH|].
      rewrite insert_perm. constructor; [lia | exact Hy].
Qed.

Lemma stable_sort_sorted (l : list (Z * Convert.entry)) :
  StronglySorted (fun a b => fst a <= fst b) (Convert.stable_sort l).
Proof.
  induction l as [|x l IH]; [constructor|]. now apply insert_sorted.
Qed.

Lemma insert_filter (k : Z) (x : Z * Convert.entry) (l : list (Z * Convert.entry)) :
  List.filter (fun p => fst p =? k) (Convert.insert x l)
  = List.filter (fun p => fst p =? k) (x :: l).
Proof.
  induction l as [|y l IH]; [reflexivity|]. simpl in *.
  destruct (fst x <=? fst y) eqn:E; [reflexivity|]. simpl. rewrite IH.
  apply Z.leb_gt in E.
  destruct (fst x =? k) eqn:Ex, (fst y =? k) eqn:Ey; try reflexivity. lia.
Qed.

Lemma stable_sort_filter (k : Z) (l : list (Z * Convert.entry)) :
  List.filter (fun p => fst p =? k) (Convert.stable_sort l)
  = List.filter (fun p => fst p =? k) l.
Proof.
  induction l as [|x l IH]; [reflexivity|].
  unfold Convert.stable_sort in *. simpl fold_right. rewrite insert_filter. simpl.
  now rewrite IH.
Qed.

(** The keys computed at line 43 are those of the entries, in order. *)
Lemma keyed_spec (cl : conv_library) (events : list Convert.entry)
      (keyed : list (Z * Convert.entry)) :
  Convert.map_result
    (fun e => Convert.and_then (Convert.sort_key cl e) (fun k => Ok (k, e))) events
  = Ok keyed →
  map snd keyed = events
  ∧ Forall (fun p => Convert.sort_key cl (snd p) = Ok (fst p)) keyed.
Proof.
  revert keyed; induction events as [|e events IH]; intros keyed H; simpl in H.
  - injection H as <-. split; [reflexivity | constructor].
  - unfold Convert.and_then in H at 1.
    destruct (Convert.sort_key cl e) as [k|] eqn:Ek; simpl in H; [|discriminate].
    unfold Convert.and_then in H at 1.
    destruct (Convert.map_result _ events) as [rest|]; [|discriminate].
    injection H as <-. destruct (IH rest eq_refl) as [Hm Hf].
    split; [simpl; now rewrite Hm | constructor; [exact Ek | exact Hf]].
Qed.

(** X14. The list the converter writes is the collected list in another
    order: nothing is lost or repeated. It is in the order of the start
    instants, and entries that start at the same instant keep the order in
    which they were collected (the events of the days before the
    sub-events). *)
Theorem sorted_by_start_is_a_stable_sort
  (cl : conv_library) (events out : list Convert.entry) :
  Convert.sorted_by_start cl events = Ok out →
  out ≡ₚ events
  ∧ StronglySorted (Convert.not_later cl) out
  ∧ ∀ k, List.filter (Convert.starts_at cl k) out
         = List.filter (Convert.starts_at cl k) events.
Proof.
  unfold Convert.sorted_by_start, Convert.and_then. intros H.
  destruct (Convert.map_result _ events) as [keyed|] eqn:Hk; [|discriminate].
  injection H as <-. destruct (keyed_spec cl events keyed Hk) as [Hm Hkeys].
  assert (Forall (fun p => Convert.sort_key cl (snd p) = Ok (fst p))
                 (Convert.stable_sort keyed)) as Hkeys'
    by now rewrite stable_sort_perm.
  split; [|split].
  - rewrite <- Hm. now rewrite stable_sort_perm.
  - pose proof (stable_sort_sorted keyed) as Hs.
    induction Hs as [|p l Hs IH Hp]; [constructor|].
    apply Forall_cons in Hkeys' as [Hp0 Hl]. simpl. constructor; [now apply IH|].
    apply Forall_fmap. apply Forall_forall. intros q Hq. simpl.
    exists (fst p), (fst q). split; [exact Hp0|]. split.
    + exact (proj1 (Forall_forall _ _) Hl q Hq).
    + exact (proj1 (Forall_forall _ _) Hp q Hq).
  - intros k. rewrite <- Hm.
    assert (∀ l, Forall (fun p => Convert.sort_key cl (snd p) = Ok (fst p)) l →
                 List.filter (Convert.starts_at cl k) (map snd l)
                 = map snd (List.filter (fun p => fst p =? k) l)) as Hcomm.
    { induction 1 as [|p l Hp _ IH]; [reflexivity|]. simpl.
      unfold Convert.starts_at at 1. rewrite Hp, IH. now destruct (fst p =? k). }
    rewrite (Hcomm _ Hkeys'), (Hcomm _ Hkeys). now rewrite stable_sort_filter.
Qed.

(** ** From the converter to the search *)

Lemma map_result_Forall {A B} (P : B → Prop) (f : A → result B) (l : list A)
      (out : list B) :
  (∀ x y, f x = Ok y → P y) → Convert.map_result f l = Ok out → Forall P out.
Proof.
  intros Hf. revert out; induction l as [|x l IH]; intros out H; simpl in H.
  - injection H as <-. constructor.
  - unfold Convert.and_then in H. destruct (f x) as [y|] eqn:Ey; [|discriminate].
    destruct (Convert.map_result f l) as [ys|]; [|discriminate].
    injection H as <-. constructor; [exact (Hf x y Ey) | now apply IH].
Qed.

(** Peels the sequencing of a computation that returned normally. *)
Ltac peel H :=
  repeat (unfold Convert.and_then in H at 1;
          match type of H with
          | match ?r with _ => _ end = _ => destruct r eqn:?; [|discriminate]
          end).

Lemma day_entry_for_main (cl : conv_library) (e : json) (x : Convert.entry) :
  Convert.day_entry cl e = Ok x → Convert.for_main x = true.
Proof.
  unfold Convert.day_entry. intros H. peel H. now injection H as <-.
Qed.

Lemma sub_entries_for_main (cl : conv_library) (event : json) (l : list Convert.entry) :
  Convert.sub_entries cl event = Ok l → Forall (fun x => Convert.for_main x = true) l.
Proof.
  unfold Convert.sub_entries. intros H. peel H. injection H as <-.
  apply Forall_forall. intros x Hx. apply list_elem_of_In, filter_In in Hx as [_ Hx].
  unfold Convert.for_main, Convert.title_is_str in *.
  destruct (Convert.presno x); [|reflexivity]. exact Hx.
Qed.

Lemma sub_entries_of_for_main (cl : conv_library) (events : list json)
      (l : list Convert.entry) :
  Convert.sub_entries_of cl events = Ok l →
  Forall (fun x => Convert.for_main x = true) l.
Proof.
  revert l; induction events as [|event events IH]; intros l H; simpl in H.
  - injection H as <-. constructor.
  - unfold Convert.and_then in H at 1.
    destruct (Convert.has_subevents event) as [[|]|]; [| now apply IH | discriminate].
    peel H. injection H as <-. apply Forall_app. split.
    + eapply sub_entries_for_main; eassumption.
    + now apply IH.
Qed.

Lemma chain_days_Forall (P : Convert.entry → Prop)
      (f : json → result (list Convert.entry)) (days : list json)
      (l : list Convert.entry) :
  (∀ d out, f d = Ok out → Forall P out) →
  Convert.chain_days f days = Ok l → Forall P l.
Proof.
  intros Hf. unfold Convert.chain_days. intros H. peel H. injection H as <-.
  apply Forall_concat. eapply map_result_Forall; [|eassumption]. exact Hf.
Qed.

Lemma collect_for_main (cl : conv_library) (object : json) (l : list Convert.entry) :
  Convert.collect cl object = Ok l → Forall (fun x => Convert.for_main x = true) l.
Proof.
  unfold Convert.collect. intros H. peel H. injection H as <-.
  apply Forall_app. split.
  - eapply chain_days_Forall; [|eassumption].
    intros d out Hd. unfold Convert.collect_day in Hd. peel Hd.
    eapply map_result_Forall; [|exact Hd]. intros e x. apply day_entry_for_main.
  - eapply chain_days_Forall; [|eassumption].
    intros d out Hd. unfold Convert.collect_day_sub in Hd. peel Hd.
    eapply sub_entries_of_for_main, Hd.
Qed.

Lemma to_json_presno (x : Convert.entry) :
  Py.contains "presno" (Convert.to_json x)
  = Ok (match Convert.presno x with Some _ => true | None => false end).
Proof. unfold Convert.to_json. now destruct (Convert.presno x). Qed.

Lemma to_json_title (x : Convert.entry) :
  Py.getitem (Convert.to_json x) "title" = Ok (Convert.title x).
Proof. reflexivity. Qed.

Lemma to_json_loadable (x : Convert.entry) :
  Convert.for_main x = true → loadable (Convert.to_json x) = true.
Proof.
  intros H. rewrite loadable_spec, to_json_presno, to_json_title.
  unfold Convert.for_main in H. destruct (Convert.presno x); [|reflexivity].
  now destruct (Convert.title x).
Qed.

Lemma all_str (l : list json) :
  Forall (fun k => ∃ s, k = JStr s) l → ∃ titles, l = map JStr titles.
Proof.
  induction 1 as [|k l [s ->] _ [titles ->]]; [now exists [] | now exists (s :: titles)].
Qed.

Lemma convert_for_main (cl : conv_library) (object : json) (out : list Convert.entry) :
  Convert.convert cl object = Ok out →
  Forall (fun x => Convert.for_main x = true) out.
Proof.
  unfold Convert.convert, Convert.and_then. intros H.
  destruct (Convert.collect cl object) as [events|] eqn:Hc; [|discriminate].
  pose proof (collect_for_main cl object events Hc) as Hev.
  unfold Convert.sorted_by_start, Convert.and_then in H.
  destruct (Convert.map_result _ events) as [keyed|] eqn:Hk; [|discriminate].
  injection H as <-. destruct (keyed_spec cl events keyed Hk) as [Hm _].
  rewrite <- Hm in Hev. now rewrite stable_sort_perm.
Qed.

(** A list of entries fit for the search is a loadable agenda. *)
Lemma listing_builds (out : list Convert.entry) :
  Forall (fun x => Convert.for_main x = true) out →
  ∃ d, Catalog.build (Convert.listing out) = Ok d.
Proof.
  intros Hout. unfold Convert.listing.
  assert (forallb loadable (map Convert.to_json out) = true) as Hload.
  { apply forallb_forall. intros o Ho. apply in_map_iff in Ho as (x & <- & Hx).
    apply to_json_loadable. apply list_elem_of_In in Hx.
    exact (proj1 (Forall_forall _ _) Hout x Hx). }
  pose proof (build_outcome (map Convert.to_json out)) as Hb. rewrite Hload in Hb.
  exact Hb.
Qed.

(** X15. Whatever the converter writes, the search program loads: the
    catalog is built without error, its titles are exactly the [str]
    titles of the sub-events (the events of the days have no presentation
    number and are left out), and the filter of any query runs without
    error, whatever the library of the search program. *)
Theorem converted_agenda_always_loads
  (lib : library) (cl : conv_library) (object : json) (out : list Convert.entry) :
  Convert.convert cl object = Ok out →
  ∃ d titles,
    Catalog.build (Convert.listing out) = Ok d
    ∧ dict_keys d = map JStr titles
    ∧ (∀ t, t ∈ titles ↔
            ∃ x, x ∈ out ∧ Convert.title x = JStr t ∧ Convert.presno x ≠ None)
    ∧ ∀ q, ∃ view, filter_items lib q (dict_keys d) = Ok (map JStr view).
Proof.
  intros H. pose proof (convert_for_main cl object out H) as Hout. clear H.
  destruct (listing_builds out Hout) as [d Hd].
  destruct (build_keys _ d Hd) as [Hkeys Htitles].
  assert (Forall (fun k => ∃ s, k = JStr s) (dict_keys d)) as Hstr.
  { apply Forall_forall. intros k Hk.
    destruct (Hkeys k Hk) as (o & Ho & Hp & Ht).
    apply list_elem_of_fmap in Ho as (x & -> & Hx).
    rewrite to_json_presno in Hp. rewrite to_json_title in Ht. injection Ht as <-.
    pose proof (proj1 (Forall_forall _ _) Hout x Hx) as Hx'.
    unfold Convert.for_main in Hx'. destruct (Convert.presno x); [|discriminate].
    destruct (Convert.title x); try discriminate. eauto. }
  destruct (all_str _ Hstr) as [titles Heq].
  exists d, titles. split; [exact Hd|]. split; [exact Heq|]. split.
  - intros t. split.
    + intros Ht. assert (JStr t ∈ dict_keys d) as Hk
        by (rewrite Heq; now apply list_elem_of_fmap_2).
      destruct (Hkeys _ Hk) as (o & Ho & Hp & Hti).
      apply list_elem_of_fmap in Ho as (x & -> & Hx).
      rewrite to_json_presno in Hp. rewrite to_json_title in Hti.
      exists x. split; [exact Hx|]. split; [now injection Hti|].
      destruct (Convert.presno x); [discriminate | discriminate].
    + intros (x & Hx & Ht & Hp).
      assert (JStr t ∈ dict_keys d) as Hk.
      { apply (Htitles (Convert.to_json x) t).
        - now apply list_elem_of_fmap_2.
        - rewrite to_json_presno. now destruct (Convert.presno x).
        - now rewrite to_json_title, Ht. }
      rewrite Heq in Hk. apply list_elem_of_fmap in Hk as (t' & [= ->] & Ht'). exact Ht'.
  - intros q. rewrite Heq. destruct q as [|c q].
    + exists titles. reflexivity.
    + destruct (matching_titles lib (String c q) titles) as (view & Hv & _).
      now exists view.
Qed.

(** ** The files of the converter *)

Lemma read_and_convert_pure (cl : conv_library) (w w1 : world)
      (r : result (list Convert.entry)) :
  Convert.read_and_convert cl w = (r, w1) → w1 = w.
Proof.
  unfold Convert.read_and_convert, bind, read_text, lift. intros H.
  destruct (bool_decide _); [now injection H|].
  destruct (files w !! Convert.INPUT); [|now injection H].
  destruct (json_load cl _); now injection H.
Qed.

Lemma out_min_is_not_out : Convert.OUT_MIN ≠ Convert.OUT.
Proof. discriminate. Qed.

(** One output file: it is written when its directory is there and its
    name is not taken by a directory; otherwise nothing is done. *)
Lemma dump_outcome (cl : conv_library) (indent : option Z)
      (events : list Convert.entry) (p : string) (w : world) :
  (Path.dirname p ∈ dirs w ∧ (p ∉ dirs w)
   ∧ Convert.dump cl indent events p w
     = (Ok tt, set_files (insert p (json_dumps cl indent (Convert.listing events))) w))
  ∨ (∃ e, Convert.dump cl indent events p w = (Raise e, w)
          ∧ (class_of e = FileNotFoundError ∨ class_of e = IsADirectoryError)).
Proof.
  unfold Convert.dump, bind, open_w, write, modify.
  destruct (bool_decide (p ∈ dirs w)) eqn:Ep.
  - right. eexists. split; [reflexivity|]. now right.
  - apply bool_decide_eq_false in Ep.
    destruct (bool_decide (Path.dirname p ∈ dirs w)) eqn:Er.
    + apply bool_decide_eq_true in Er. left. split; [exact Er|]. split; [exact Ep|].
      f_equal. destruct w; unfold set_files; simpl. f_equal. apply insert_insert_eq.
    + right. eexists. split; [reflexivity|]. now left.
Qed.

(** X16. A run of the converter that fails leaves the agenda of the search
    program alone. When the download is missing, is not JSON, has not the
    expected shape or has a time that cannot be parsed, nothing is printed
    and no file is touched. Otherwise an output file could not be opened:
    then only the compact output may have been written, and the indented
    output, the one the search program reads, is as it was. *)
Theorem failed_conversion_keeps_the_indented_output
  (cl : conv_library) (w w' : world) (e : exn) :
  Convert.script cl w = (Raise e, w') →
  dirs w' = dirs w
  ∧ (∀ p, p ≠ Convert.OUT_MIN → files w' !! p = files w !! p)
  ∧ ((Convert.read_and_convert cl w = (Raise e, w) ∧ w' = w)
     ∨ (∃ events, Convert.read_and_convert cl w = (Ok events, w)
                  ∧ (class_of e = FileNotFoundError ∨ class_of e = IsADirectoryError)
                  ∧ (files w' = files w ∨ Convert.OUT ∈ dirs w))).
Proof.
  unfold Convert.script, bind at 1. intros H.
  destruct (Convert.read_and_convert cl w) as [[events|e0] w1] eqn:Hr.
  - pose proof (read_and_convert_pure _ _ _ _ Hr) as ->.
    unfold print, bind at 1, modify in H.
    set (w1 := add_stdout _ w) in H. unfold bind at 1 in H.
    destruct (dump_outcome cl None events Convert.OUT_MIN w1) as [(_ & _ & Hd) | (e1 & Hd & Hc)];
      rewrite Hd in H.
    + set (w2 := set_files _ w1) in H.
      destruct (dump_outcome cl (Some 2) events Convert.OUT w2) as [(_ & _ & Hd2) | (e2 & Hd2 & Hc2)];
        rewrite Hd2 in H; [discriminate|].
      injection H as <- <-. split; [reflexivity|]. split.
      * intros p Hp. simpl. now rewrite lookup_insert_ne.
      * right. exists events. split; [reflexivity|]. split; [exact Hc2|].
        right. unfold Convert.dump, bind, open_w in Hd2.
        destruct (bool_decide (Convert.OUT ∈ dirs w2)) eqn:Eo;
          [now apply bool_decide_eq_true in Eo|].
        change (Path.dirname Convert.OUT) with Convert.RESOURCES in Hd2.
        destruct (bool_decide (Convert.RESOURCES ∈ dirs w2)) eqn:Er; [discriminate|].
        unfold Convert.dump, bind, open_w in Hd.
        destruct (bool_decide (Convert.OUT_MIN ∈ dirs w1)); [discriminate|].
        change (Path.dirname Convert.OUT_MIN) with Convert.RESOURCES in Hd.
        change (dirs w2) with (dirs w1) in Er. rewrite Er in Hd. discriminate.
    + injection H as <- <-. split; [reflexivity|]. split; [reflexivity|].
      right. exists events. split; [reflexivity|]. split; [exact Hc|]. now left.
  - pose proof (read_and_convert_pure _ _ _ _ Hr) as ->. injection H as <- <-.
    split; [reflexivity|]. split; [reflexivity|]. now left.
Qed.

(** X17. A run of the converter that ends normally has converted the
    agenda it read and written the same list to both output files, compact
    and indented; it has printed the first five entries, made or removed
    no other file, and the list it wrote is one the search program builds
    its catalog from without error. *)
Theorem converter_writes_one_list_twice (cl : conv_library) (w w' : world) :
  Convert.script cl w = (Ok tt, w') →
  ∃ events,
    Convert.read_and_convert cl w = (Ok events, w)
    ∧ files w' !! Convert.OUT_MIN = Some (json_dumps cl None (Convert.listing events))
    ∧ files w' !! Convert.OUT = Some (json_dumps cl (Some 2) (Convert.listing events))
    ∧ (∀ p, p ≠ Convert.OUT_MIN → p ≠ Convert.OUT → files w' !! p = files w !! p)
    ∧ dirs w' = dirs w
    ∧ stdout w' = (stdout w ++ [repr cl (Convert.listing (Py.take 5 events))])%list
    ∧ ∃ d, Catalog.build (Convert.listing events) = Ok d.
Proof.
  unfold Convert.script, bind at 1. intros H.
  destruct (Convert.read_and_convert cl w) as [[events|e0] w1] eqn:Hr; [|discriminate].
  pose proof (read_and_convert_pure _ _ _ _ Hr) as ->.
  unfold print, bind at 1, modify in H.
  set (w1 := add_stdout _ w) in H. unfold bind at 1 in H.
  destruct (dump_outcome cl None events Convert.OUT_MIN w1) as [(_ & _ & Hd) | (e1 & Hd & Hc)];
    rewrite Hd in H; [|discriminate].
  set (w2 := set_files _ w1) in H.
  destruct (dump_outcome cl (Some 2) events Convert.OUT w2) as [(_ & _ & Hd2) | (e2 & Hd2 & Hc2)];
    rewrite Hd2 in H; [|discriminate].
  injection H as <-. exists events. split; [reflexivity|]. simpl.
  split; [rewrite lookup_insert_ne by (symmetry; exact out_min_is_not_out); apply lookup_insert_eq|].
  split; [apply lookup_insert_eq|].
  split; [intros p H1 H2; now rewrite !lookup_insert_ne by congruence|].
  split; [reflexivity|]. split; [reflexivity|].
  apply listing_builds.
  unfold Convert.read_and_convert, bind, read_text, lift in Hr.
  destruct (bool_decide _); [discriminate|].
  destruct (files w !! Convert.INPUT); [|discriminate].
  destruct (json_load cl _) as [object|]; [|discriminate].
  destruct (Convert.convert cl object) as [out|] eqn:Hc; [|discriminate].
  injection Hr as <-. exact (convert_for_main cl object out Hc).
Qed.

(** * The further statements at work on the samples *)

Lemma arrow_keys_move_within_the_view_witness :
  ∃ st', fst (run Sample.lib [Key KEY_DOWN] Sample.world0)
         = Browsing st' [JStr "Knot Theory"; JStr "Graph Coloring"; JStr "Theory of Rings"]
         ∧ search_text st' = "" ∧ selected_index st' = 1.
Proof.
  set (st := Locals
               [(JStr "Knot Theory", Sample.record "Knot Theory" "4");
                (JStr "Graph Coloring", Sample.record "Graph Coloring" "2");
                (JStr "Theory of Rings", Sample.record "Theory of Rings" "3")]
               [JStr "Knot Theory"; JStr "Graph Coloring"; JStr "Theory of Rings"]
               "" 0 24 80).
  set (view := [JStr "Knot Theory"; JStr "Graph Coloring"; JStr "Theory of Rings"]).
  assert (run Sample.lib [] Sample.world0
          = (Browsing st view, snd (run Sample.lib [] Sample.world0))) as Hrun
    by (vm_compute; reflexivity).
  assert (step Sample.lib (Browsing st view) (Key KEY_DOWN)
            (snd (run Sample.lib [] Sample.world0))
          = (fst (run Sample.lib [Key KEY_DOWN] Sample.world0),
             snd (run Sample.lib [Key KEY_DOWN] Sample.world0))) as Hstep
    by (vm_compute; reflexivity).
  destruct (arrow_keys_move_within_the_view Sample.lib [] Sample.world0 _ _ st view
              KEY_DOWN _ Hrun (or_intror eq_refl) Hstep)
    as [_ [(e & He & _) | (st' & Hm & Hq & Hi)]].
  - vm_compute in He. discriminate.
  - exists st'. split; [exact Hm|]. split; [exact Hq | exact Hi].
Defined.

Lemma editing_the_query_refilters_from_the_top_witness :
  ∃ st', fst (run Sample.lib [Key KEY_DOWN; Key 116] Sample.world0)
         = Browsing st' [JStr "Knot Theory"; JStr "Theory of Rings"]
         ∧ search_text st' = "t" ∧ selected_index st' = 0.
Proof.
  set (st := Locals
               [(JStr "Knot Theory", Sample.record "Knot Theory" "4");
                (JStr "Graph Coloring", Sample.record "Graph Coloring" "2");
                (JStr "Theory of Rings", Sample.record "Theory of Rings" "3")]
               [JStr "Knot Theory"; JStr "Graph Coloring"; JStr "Theory of Rings"]
               "" 1 24 80).
  set (view := [JStr "Knot Theory"; JStr "Graph Coloring"; JStr "Theory of Rings"]).
  assert (run Sample.lib [Key KEY_DOWN] Sample.world0
          = (Browsing st view, snd (run Sample.lib [Key KEY_DOWN] Sample.world0))) as Hrun
    by (vm_compute; reflexivity).
  assert (step Sample.lib (Browsing st view) (Key 116)
            (snd (run Sample.lib [Key KEY_DOWN] Sample.world0))
          = (fst (run Sample.lib [Key KEY_DOWN; Key 116] Sample.world0),
             snd (run Sample.lib [Key KEY_DOWN; Key 116] Sample.world0))) as Hstep
    by (vm_compute; reflexivity).
  destruct (editing_the_query_refilters_from_the_top Sample.lib [Key KEY_DOWN]
              Sample.world0 _ _ st view 116 _ Hrun (or_introl eq_refl) Hstep)
    as [_ [(e & He & _) | (st' & Hm & Hq & Hi & _)]].
  - vm_compute in He. discriminate.
  - exists st'. split; [exact Hm|]. split; [exact Hq | exact Hi].
Defined.

Lemma other_keys_change_nothing_witness :
  fst (run Sample.lib [Key KEY_DOWN; Key 260] Sample.world0)
  = fst (run Sample.lib [Key KEY_DOWN] Sample.world0)
  ∧ same_store (snd (run Sample.lib [Key KEY_DOWN] Sample.world0))
               (snd (run Sample.lib [Key KEY_DOWN; Key 260] Sample.world0)).
Proof.
  set (st := Locals
               [(JStr "Knot Theory", Sample.record "Knot Theory" "4");
                (JStr "Graph Coloring", Sample.record "Graph Coloring" "2");
                (JStr "Theory of Rings", Sample.record "Theory of Rings" "3")]
               [JStr "Knot Theory"; JStr "Graph Coloring"; JStr "Theory of Rings"]
               "" 1 24 80).
  set (view := [JStr "Knot Theory"; JStr "Graph Coloring"; JStr "Theory of Rings"]).
  assert (run Sample.lib [Key KEY_DOWN] Sample.world0
          = (Browsing st view, snd (run Sample.lib [Key KEY_DOWN] Sample.world0))) as Hrun
    by (vm_compute; reflexivity).
  assert (step Sample.lib (Browsing st view) (Key 260)
            (snd (run Sample.lib [Key KEY_DOWN] Sample.world0))
          = (fst (run Sample.lib [Key KEY_DOWN; Key 260] Sample.world0),
             snd (run Sample.lib [Key KEY_DOWN; Key 260] Sample.world0))) as Hstep
    by (vm_compute; reflexivity).
  destruct (other_keys_change_nothing Sample.lib [Key KEY_DOWN] Sample.world0 _ _ st view
              260 _ Hrun ltac:(discriminate) ltac:(discriminate) ltac:(discriminate)
              ltac:(discriminate) eq_refl eq_refl eq_refl Hstep) as [Hs Hm].
  split; [|exact Hs].
  destruct Hm as [Hm | (e & He & _)]; [|vm_compute in He; discriminate].
  rewrite Hm. vm_compute. reflexivity.
Defined.

Lemma popup_takes_one_value_and_ignores_it_witness :
  fst (run Sample.lib [Key 10; Key 27] Sample.world0)
  = fst (run Sample.lib [] Sample.world0)
  ∧ ∃ st' view,
      fst (run Sample.lib [Key 10; Key 27; Key 79; Key 66] Sample.world0)
      = Browsing st' view
      ∧ search_text st' = "OB" ∧ selected_index st' = 0.
Proof.
  set (st := Locals
               [(JStr "Knot Theory", Sample.record "Knot Theory" "4");
                (JStr "Graph Coloring", Sample.record "Graph Coloring" "2");
                (JStr "Theory of Rings", Sample.record "Theory of Rings" "3")]
               [JStr "Knot Theory"; JStr "Graph Coloring"; JStr "Theory of Rings"]
               "" 0 24 80).
  assert (run Sample.lib [Key 10] Sample.world0
          = (DetailOverlay st, snd (run Sample.lib [Key 10] Sample.world0))) as Hrun
    by (vm_compute; reflexivity).
  assert (step Sample.lib (DetailOverlay st) (Key 27)
            (snd (run Sample.lib [Key 10] Sample.world0))
          = (fst (run Sample.lib [Key 10; Key 27] Sample.world0),
             snd (run Sample.lib [Key 10; Key 27] Sample.world0))) as Hstep
    by (vm_compute; reflexivity).
  assert (steps Sample.lib (DetailOverlay st) (Key 27 :: map Key [79; 66])
            (snd (run Sample.lib [Key 10] Sample.world0))
          = (fst (run Sample.lib [Key 10; Key 27; Key 79; Key 66] Sample.world0),
             snd (run Sample.lib [Key 10; Key 27; Key 79; Key 66] Sample.world0)))
    as Hsteps by (vm_compute; reflexivity).
  destruct (popup_takes_one_value_and_ignores_it Sample.lib [Key 10] Sample.world0 _ st
              Hrun) as [Hone Hseq].
  split.
  - destruct (Hone 27 _ _ Hstep) as [_ [(e & He & _) | (view & Hm & Hf)]].
    + vm_compute in He. discriminate.
    + rewrite Hm. vm_compute in Hf. injection Hf as <-. vm_compute. reflexivity.
  - destruct (Hseq 27 [79; 66] _ _ ltac:(discriminate)
                ltac:(repeat constructor) Hsteps)
      as [_ [(e & He & _) | (st' & view & Hm & Hq & Hi & _)]].
    + vm_compute in He. discriminate.
    + exists st', view. split; [exact Hm|]. split; [exact Hq | exact Hi].
Defined.

Lemma built_catalog_is_well_formed_witness :
  keys_distinct [(JStr "Knot Theory", Sample.record "Knot Theory" "4");
                 (JStr "Graph Coloring", Sample.record "Graph Coloring" "2");
                 (JStr "Theory of Rings", Sample.record "Theory of Rings" "3")]
  ∧ catalog_ok [(JStr "Knot Theory", Sample.record "Knot Theory" "4");
                (JStr "Graph Coloring", Sample.record "Graph Coloring" "2");
                (JStr "Theory of Rings", Sample.record "Theory of Rings" "3")].
Proof.
  apply (built_catalog_is_well_formed Sample.agenda). reflexivity.
Defined.

Lemma enter_resolves_the_selected_record_witness :
  ∃ item record presno,
    list_getitem [JStr "Knot Theory"; JStr "Theory of Rings"] 1 = Ok item
    ∧ dict_get item [(JStr "Knot Theory", Sample.record "Knot Theory" "4");
                     (JStr "Graph Coloring", Sample.record "Graph Coloring" "2");
                     (JStr "Theory of Rings", Sample.record "Theory of Rings" "3")]
      = Ok record
    ∧ Py.getitem record "presno" = Ok presno.
Proof.
  set (st := Locals
               [(JStr "Knot Theory", Sample.record "Knot Theory" "4");
                (JStr "Graph Coloring", Sample.record "Graph Coloring" "2");
                (JStr "Theory of Rings", Sample.record "Theory of Rings" "3")]
               [JStr "Knot Theory"; JStr "Graph Coloring"; JStr "Theory of Rings"]
               "t" 1 24 80).
  set (view := [JStr "Knot Theory"; JStr "Theory of Rings"]).
  assert (run Sample.lib [Key 116; Key KEY_DOWN] Sample.world0
          = (Browsing st view, snd (run Sample.lib [Key 116; Key KEY_DOWN] Sample.world0)))
    as Hrun by (vm_compute; reflexivity).
  destruct (enter_resolves_the_selected_record Sample.lib [Key 116; Key KEY_DOWN]
              Sample.world0 _ st view Hrun)
    as (item & record & presno & Hi & _ & Hd & Hp & _); [discriminate|].
  exists item, record, presno. split; [exact Hi|]. split; [exact Hd | exact Hp].
Defined.

Lemma lookup_leaves_other_entries_alone_witness :
  files (snd (lookup_abstract Sample.lib "4" Sample.world0)) !! cache_file Sample.lib "2"
  = files Sample.world0 !! cache_file Sample.lib "2".
Proof.
  apply (lookup_leaves_other_entries_alone Sample.lib "4" "2" Sample.world0).
  - reflexivity.
  - reflexivity.
  - discriminate.
Defined.

Lemma non_text_abstract_leaves_an_empty_entry_witness :
  ∃ e w1,
    lookup_abstract Faulty.lib "7" Sample.world0 = (Raise e, w1)
    ∧ class_of e = TypeError
    ∧ files w1 !! cache_file Faulty.lib "7" = Some ""
    ∧ ∀ w2, evolves Faulty.lib w1 w2 → lookup_abstract Faulty.lib "7" w2 = (Ok (JStr ""), w2).
Proof.
  apply (non_text_abstract_leaves_an_empty_entry Faulty.lib "7"
           (JObj [("RawAbstract", JNull)]) Sample.world0).
  - vm_compute. reflexivity.
  - by_compute.
  - reflexivity.
  - reflexivity.
  - intros T. discriminate.
Defined.



Lemma unloadable_agenda_stops_before_the_loop_witness :
  run Faulty.lib [Key 116; Key 10] Sample.world0
  = (Raised (Exn TypeError "argument is not iterable"), Sample.world0)
  ∧ finish (Raised (Exn TypeError "argument is not iterable"))
    = Traceback (Exn TypeError "argument is not iterable")
  ∧ (class_of (Exn TypeError "argument is not iterable") = TypeError
     ∨ class_of (Exn TypeError "argument is not iterable") = KeyError).
Proof.
  apply (unloadable_agenda_stops_before_the_loop Faulty.lib Sample.world0 "agenda"
           (JArr [Sample.record "Knot Theory" "1"; JNull])).
  - by_compute.
  - by_compute.
  - vm_compute. reflexivity.
  - reflexivity.
  - reflexivity.
Defined.

Lemma normal_time_is_padded_and_stable_witness :
  ∃ t, Convert.normal_time ConvertSample.lib (JStr "1:30 P.M.") = Ok t
       ∧ String.length t = Nat.max 8 (String.length (Convert.remove_dots "1:30 P.M."))
       ∧ Convert.every Convert.not_dot t = true
       ∧ Convert.every Convert.not_capital t = true
       ∧ Convert.normal_time ConvertSample.lib (JStr t) = Ok t.
Proof.
  apply (normal_time_is_padded_and_stable ConvertSample.lib "1:30 P.M.").
  - intros t _. reflexivity.
  - reflexivity.
Defined.

Lemma sorted_by_start_is_a_stable_sort_witness :
  [Convert.Entry (JStr "Opening Lecture") "08:00 am" "09:00 am" None 4;
   Convert.Entry (JStr "Session on Knots") "01:00 pm" "03:00 pm" None 4;
   Convert.Entry (JStr "Theory of Rings") "01:00 pm" "01:30 pm" (Some (JStr "3")) 4]
  ≡ₚ [Convert.Entry (JStr "Session on Knots") "01:00 pm" "03:00 pm" None 4;
      Convert.Entry (JStr "Opening Lecture") "08:00 am" "09:00 am" None 4;
      Convert.Entry (JStr "Theory of Rings") "01:00 pm" "01:30 pm" (Some (JStr "3")) 4]
  ∧ StronglySorted (Convert.not_later ConvertSample.lib)
      [Convert.Entry (JStr "Opening Lecture") "08:00 am" "09:00 am" None 4;
       Convert.Entry (JStr "Session on Knots") "01:00 pm" "03:00 pm" None 4;
       Convert.Entry (JStr "Theory of Rings") "01:00 pm" "01:30 pm" (Some (JStr "3")) 4]
  ∧ ∀ k, List.filter (Convert.starts_at ConvertSample.lib k)
           [Convert.Entry (JStr "Opening Lecture") "08:00 am" "09:00 am" None 4;
            Convert.Entry (JStr "Session on Knots") "01:00 pm" "03:00 pm" None 4;
            Convert.Entry (JStr "Theory of Rings") "01:00 pm" "01:30 pm" (Some (JStr "3")) 4]
         = List.filter (Convert.starts_at ConvertSample.lib k)
             [Convert.Entry (JStr "Session on Knots") "01:00 pm" "03:00 pm" None 4;
              Convert.Entry (JStr "Opening Lecture") "08:00 am" "09:00 am" None 4;
              Convert.Entry (JStr "Theory of Rings") "01:00 pm" "01:30 pm" (Some (JStr "3")) 4].
Proof.
  apply (sorted_by_start_is_a_stable_sort ConvertSample.lib). vm_compute. reflexivity.
Defined.

Lemma converted_agenda_always_loads_witness :
  ∃ d, Catalog.build (Convert.listing
         [Convert.Entry (JStr "Opening Lecture") "08:00 am" "09:00 am" None 4;
          Convert.Entry (JStr "Session on Knots") "01:00 pm" "03:00 pm" None 4;
          Convert.Entry (JStr "Theory of Rings") "01:00 pm" "01:30 pm" (Some (JStr "3")) 4;
          Convert.Entry (JStr "Knot Theory") "01:30 pm" "02:00 pm" (Some (JStr "1")) 4])
       = Ok d
       ∧ dict_keys d = [JStr "Theory of Rings"; JStr "Knot Theory"].
Proof.
  destruct (converted_agenda_always_loads Sample.lib ConvertSample.lib ConvertSample.agenda
              [Convert.Entry (JStr "Opening Lecture") "08:00 am" "09:00 am" None 4;
               Convert.Entry (JStr "Session on Knots") "01:00 pm" "03:00 pm" None 4;
               Convert.Entry (JStr "Theory of Rings") "01:00 pm" "01:30 pm" (Some (JStr "3")) 4;
               Convert.Entry (JStr "Knot Theory") "01:30 pm" "02:00 pm" (Some (JStr "1")) 4])
    as (d & titles & Hb & _); [vm_compute; reflexivity|].
  exists d. split; [exact Hb|]. vm_compute in Hb. injection Hb as <-. reflexivity.
Defined.

Lemma failed_conversion_keeps_the_indented_output_witness :
  Convert.script ConvertSample.lib ConvertSample.world_bad_input
  = (Raise (Exn JSONDecodeError "Expecting value"), ConvertSample.world_bad_input)
  ∧ files ConvertSample.world_bad_input !! Convert.OUT = Some "earlier".
Proof.
  assert (Convert.script ConvertSample.lib ConvertSample.world_bad_input
          = (Raise (Exn JSONDecodeError "Expecting value"),
             snd (Convert.script ConvertSample.lib ConvertSample.world_bad_input))) as Hs
    by (vm_compute; reflexivity).
  destruct (failed_conversion_keeps_the_indented_output ConvertSample.lib _ _ _ Hs)
    as (_ & _ & [[_ Hw] | (events & Hr & _)]).
  - rewrite Hs, Hw. split; [reflexivity | vm_compute; reflexivity].
  - vm_compute in Hr. discriminate.
Defined.

Lemma converter_writes_one_list_twice_witness :
  ∃ events,
    Convert.read_and_convert ConvertSample.lib ConvertSample.world0
    = (Ok events, ConvertSample.world0)
    ∧ files (snd (Convert.script ConvertSample.lib ConvertSample.world0)) !! Convert.OUT_MIN
      = Some (json_dumps ConvertSample.lib None (Convert.listing events))
    ∧ files (snd (Convert.script ConvertSample.lib ConvertSample.world0)) !! Convert.OUT
      = Some (json_dumps ConvertSample.lib (Some 2) (Convert.listing events))
    ∧ (∀ p, p ≠ Convert.OUT_MIN → p ≠ Convert.OUT →
            files (snd (Convert.script ConvertSample.lib ConvertSample.world0)) !! p
            = files ConvertSample.world0 !! p)
    ∧ dirs (snd (Convert.script ConvertSample.lib ConvertSample.world0))
      = dirs ConvertSample.world0
    ∧ stdout (snd (Convert.script ConvertSample.lib ConvertSample.world0))
      = (stdout ConvertSample.world0
         ++ [repr ConvertSample.lib (Convert.listing (Py.take 5 events))])%list
    ∧ ∃ d, Catalog.build (Convert.listing events) = Ok d.
Proof.
  apply (converter_writes_one_list_twice ConvertSample.lib ConvertSample.world0).
  vm_compute. reflexivity.
Defined.

